(** * DocumentPart: related-part accessors and macro stripping on save

    A shallow embedding of [src/docx/parts/document.py] (class
    [DocumentPart]) together with the pieces of the OPC package layer and
    of the XML tree it drives, followed by the properties stated for it.

    Python objects have identity and are mutated in place, so parts and XML
    elements live in stores indexed by object identity; a method is a
    computation over the store that may raise. *)

From Stdlib Require Import ZArith Lia Bool.
From Stdlib Require Import Ascii String.
From stdpp Require Import base tactics option list strings pretty.

Local Open Scope string_scope.
Local Open Scope list_scope.

(** ** Python [str] operations used by the source *)

Module Str.

(** [c.lower()] for one character.  Only the letters A-Z are mapped; no
    other character of Python's [str.lower] is sent to one of d, o, c, m,
    which is all the comparisons against [".docm"] can observe. *)
Definition lower_ascii (c : ascii) : ascii :=
  let n := nat_of_ascii c in
  if (65 <=? n)%nat && (n <=? 90)%nat then ascii_of_nat (n + 32) else c.

(** [s.lower()] *)
Fixpoint lower (s : string) : string :=
  match s with
  | EmptyString => EmptyString
  | String c s' => String (lower_ascii c) (lower s')
  end.

(** [s[:n]] for [0 <= n] *)
Fixpoint take (n : nat) (s : string) : string :=
  match n, s with
  | S n', String c s' => String c (take n' s')
  | _, _ => EmptyString
  end.

(** [s[n:]] for [0 <= n] *)
Fixpoint drop (n : nat) (s : string) : string :=
  match n, s with
  | S n', String _ s' => drop n' s'
  | _, _ => s
  end.

(** [s.endswith(suffix)] *)
Definition endswith (s suffix : string) : bool :=
  (String.length suffix <=? String.length s)%nat
  && String.eqb (drop (String.length s - String.length suffix) s) suffix.

(** [s[:-k]]: everything but the last [k] characters (empty when the
    string is shorter than [k]). *)
Definition drop_last (k : nat) (s : string) : string :=
  take (String.length s - k) s.

(** [s.rfind(c)] for a one-character [c]: the highest index holding [c],
    or [-1]. *)
Fixpoint rfind (c : ascii) (s : string) : Z :=
  match s with
  | EmptyString => (-1)%Z
  | String a s' =>
      let r := rfind c s' in
      if (0 <=? r)%Z then (r + 1)%Z
      else if Ascii.eqb a c then 0%Z else (-1)%Z
  end.

(** The loop of [genericpath._splitext] that skips the leading dots of the
    file name: [true] as soon as a character other than the dot is met at
    an index in [filenameIndex, filenameIndex + n). *)
Fixpoint has_non_dot (p : string) (filenameIndex n : nat) : bool :=
  match n with
  | O => false
  | S n' =>
      match String.get filenameIndex p with
      | Some "."%char => has_non_dot p (S filenameIndex) n'
      | _ => true
      end
  end.

(** [os.path.splitext(p)] (posixpath: [sep = "/"], no [altsep]). *)
Definition splitext (p : string) : string * string :=
  let sepIndex := rfind "/" p in
  let dotIndex := rfind "." p in
  if (sepIndex <? dotIndex)%Z
     && has_non_dot p (Z.to_nat (sepIndex + 1))
          (Z.to_nat (dotIndex - (sepIndex + 1)))
  then (take (Z.to_nat dotIndex) p, drop (Z.to_nat dotIndex) p)
  else (p, EmptyString).

End Str.

(** ** Exceptions and computations over the object store *)

Inductive exn : Type :=
| KeyError          (* dict lookup or [del] on a missing key *)
| AttributeError    (* attribute access on [None] *)
| ValueError.       (* [parent.remove(child)] on a non-child, target part of an
                       external relationship *)

Inductive result (A : Type) : Type :=
| Ok (a : A)
| Raise (e : exn).
Arguments Ok {A} a.
Arguments Raise {A} e.

(** ** The OPC object model (docx.opc) *)

(** The target of a relationship: a part object, by identity, or the URI of
    an external resource. *)
Inductive Target : Type :=
| TargetPart (part : nat)
| TargetURI (uri : string).

Record Relationship : Type := mkRel {
  rId : string;
  reltype : string;
  target : Target
}.

Definition is_external (rel : Relationship) : bool :=
  match target rel with TargetPart _ => false | TargetURI _ => true end.

(** [not rel.is_external and rel.target_part == part] *)
Definition targets_part (rel : Relationship) (part : nat) : bool :=
  match target rel with
  | TargetPart q => Nat.eqb q part
  | TargetURI _ => false
  end.

(** A [Relationships] collection is a dict from rId to relationship in which
    every relationship is stored under its own [rId]: the list of its
    values, in insertion order. *)
Definition Relationships : Type := list Relationship.

Record Part : Type := mkPart {
  content_type : string;         (* [_content_type] *)
  partname : string;
  rels : Relationships;
  element : nat;                 (* [_element]: root of the part's XML tree
                                    (meaningful for XML parts) *)
  lazy_numbering_part : option nat  (* value cached by [@lazyproperty] *)
}.

(** An lxml element: qualified tag, attributes and the parent link.  The
    elements of a store are listed in document order. *)
Record Element : Type := mkElement {
  tag : string;
  attrib : list (string * string);
  parent : option nat
}.

(** The state of the Python heap the document part can reach: the
    relationships of the package itself, every part object and every XML
    element, the latter two indexed by object identity. *)
Record State : Type := mkState {
  package_rels : Relationships;
  objects : list Part;
  xml : list Element
}.

Definition empty_part : Part := mkPart "" "" [] 0 None.

(** The part object with identity [p].  A reference held by the program
    always denotes an object of the store; outside the store the model
    reads an empty part. *)
Definition the_part (s : State) (p : nat) : Part :=
  default empty_part (objects s !! p).

Definition set_part (p : nat) (x : Part) (s : State) : State :=
  mkState (package_rels s) (<[p := x]> (objects s)) (xml s).

(** Who owns a relationship collection: the package or one of its parts. *)
Inductive Source : Type :=
| OfPackage
| OfPart (p : nat).

Definition source_rels (s : State) (src : Source) : Relationships :=
  match src with
  | OfPackage => package_rels s
  | OfPart p => rels (the_part s p)
  end.

Definition with_rels (x : Part) (rs : Relationships) : Part :=
  mkPart (content_type x) (partname x) rs (element x) (lazy_numbering_part x).

Definition set_source_rels (src : Source) (rs : Relationships) (s : State) : State :=
  match src with
  | OfPackage => mkState rs (objects s) (xml s)
  | OfPart p => set_part p (with_rels (the_part s p) rs) s
  end.

(** Computations: a state transformer that returns a value or raises; an
    exception keeps the mutations made before it. *)
Definition M (A : Type) : Type := State -> State * result A.

Definition ret {A} (a : A) : M A := fun s => (s, Ok a).
Definition raise {A} (e : exn) : M A := fun s => (s, Raise e).
Definition bind {A B} (m : M A) (k : A -> M B) : M B :=
  fun s => match m s with
           | (s', Ok a) => k a s'
           | (s', Raise e) => (s', Raise e)
           end.
Definition gets {A} (f : State -> A) : M A := fun s => (s, Ok (f s)).
Definition modify (f : State -> State) : M unit := fun s => (f s, Ok tt).

Declare Scope py_scope.
Delimit Scope py_scope with py.
Notation "'do' x <- m ; k" := (bind m (fun x => k))
  (at level 10, x name, m at level 100, k at level 200) : py_scope.
Notation "'run' m ; k" := (bind m (fun _ => k))
  (at level 10, m at level 100, k at level 200) : py_scope.
Local Open Scope py_scope.

(** [for a in l: body(a)] over a list that was built before the loop. *)
Fixpoint for_each {A} (l : list A) (body : A -> M unit) : M unit :=
  match l with
  | [] => ret tt
  | a :: l' => run body a; for_each l' body
  end.

(** [x in t] for a tuple of strings *)
Definition str_in (x : string) (t : list string) : bool :=
  existsb (String.eqb x) t.

Definition has_rId (rid : string) (rel : Relationship) : bool :=
  String.eqb (rId rel) rid.

(** [del rels[rid]] on the collection of [src] *)
Definition del_rel (src : Source) (rid : string) : M unit :=
  fun s =>
    let rs := source_rels s src in
    if existsb (has_rId rid) rs
    then (set_source_rels src (List.filter (fun r => negb (has_rId rid r)) rs) s, Ok tt)
    else (s, Raise KeyError).

(** [part in visited] *)
Definition mem_nat (p : nat) (l : list nat) : bool := existsb (Nat.eqb p) l.

(** Modelled from the spec: [OpcPackage.parts] / [iter_parts]
    (docx/opc/package.py) is not part of the sources at hand.  As the comment
    in [_remove_vba_parts] records, the package does not store a part list:
    it builds it on every access by walking the relationship graph from the
    package's own relationships, depth first, each part once, external
    relationships skipped.  [visited] is the list shared by the whole walk;
    parts are yielded in the order they enter it.  Every level of the
    recursion enters a new part, so a depth of one more than the number of
    part objects is never exceeded. *)
Fixpoint walk_parts (depth : nat) (s : State) (source : Relationships)
    (visited : list nat) : list nat :=
  match depth with
  | O => visited
  | S depth' =>
      fold_left
        (fun visited rel =>
           match target rel with
           | TargetURI _ => visited
           | TargetPart part =>
               if mem_nat part visited then visited
               else walk_parts depth' s (rels (the_part s part)) (visited ++ [part])
           end)
        source visited
  end.

Definition iter_parts (s : State) : list nat :=
  walk_parts (S (length (objects s))) s (package_rels s) [].

(** [package.parts] *)
Definition parts (s : State) : list nat := iter_parts s.

(** ** The XML tree of the document part (lxml) *)

(** [a] is a proper ancestor of [x]; the parent chain of an element of a
    tree is shorter than the number of elements. *)
Fixpoint has_ancestor (els : list Element) (steps : nat) (a x : nat) : bool :=
  match steps with
  | O => false
  | S steps' =>
      match els !! x with
      | Some e =>
          match parent e with
          | Some p => Nat.eqb p a || has_ancestor els steps' a p
          | None => false
          end
      | None => false
      end
  end.

(** [e.get(name)] *)
Fixpoint attr_get (name : string) (attrs : list (string * string)) : option string :=
  match attrs with
  | [] => None
  | (k, v) :: attrs' => if String.eqb k name then Some v else attr_get name attrs'
  end.

Definition is_control_for (rid : string) (e : Element) : bool :=
  String.eqb (tag e) "w:control"
  && match attr_get "r:id" (attrib e) with
     | Some v => String.eqb v rid
     | None => false
     end.

(** [root.xpath('.//w:control[@r:id="<rid>"]')] for an [rid] without a double
    quote: the [w:control] elements below [root] (never [root] itself) whose
    [r:id] attribute is [rid], in document order. *)
Definition xpath_control (els : list Element) (root : nat) (rid : string) : list nat :=
  List.filter
    (fun x => has_ancestor els (length els) root x
              && is_control_for rid (default (mkElement "" [] None) (els !! x)))
    (seq 0 (length els)).

(** [e.getparent()] *)
Definition getparent (e : nat) : M (option nat) :=
  gets (fun s => match xml s !! e with Some x => parent x | None => None end).

Definition set_xml (els : list Element) (s : State) : State :=
  mkState (package_rels s) (objects s) els.

(** [p.remove(e)]: unlink the child [e] of [p]; lxml raises [ValueError] when
    [e] is not a child of [p]. *)
Definition remove_child (p e : nat) : M unit :=
  fun s =>
    match xml s !! e with
    | Some x =>
        match parent x with
        | Some q =>
            if Nat.eqb q p
            then (set_xml (<[e := mkElement (tag x) (attrib x) None]> (xml s)) s, Ok tt)
            else (s, Raise ValueError)
        | None => (s, Raise ValueError)
        end
    | None => (s, Raise ValueError)
    end.

(** ** Constants (docx.opc.constants) *)

(** Modelled from the spec: the content-type registry [CONTENT_TYPE] is not
    part of the sources at hand; these are the fixed constants for the
    macro-enabled and macro-free main document and for the default parts. *)
Module CT.
Definition WML_DOCUMENT_MAIN : string :=
  "application/vnd.openxmlformats-officedocument.wordprocessingml.document.main+xml".
Definition WML_DOCUMENT_MACRO_ENABLED_MAIN : string :=
  "application/vnd.ms-word.document.macroEnabled.main+xml".
Definition WML_COMMENTS : string :=
  "application/vnd.openxmlformats-officedocument.wordprocessingml.comments+xml".
Definition WML_NUMBERING : string :=
  "application/vnd.openxmlformats-officedocument.wordprocessingml.numbering+xml".
Definition WML_SETTINGS : string :=
  "application/vnd.openxmlformats-officedocument.wordprocessingml.settings+xml".
Definition WML_STYLES : string :=
  "application/vnd.openxmlformats-officedocument.wordprocessingml.styles+xml".
End CT.

(** Modelled from the spec: the relationship-type URIs [RELATIONSHIP_TYPE]
    of the well-known related parts. *)
Module RT.
Definition COMMENTS : string :=
  "http://schemas.openxmlformats.org/officeDocument/2006/relationships/comments".
Definition FOOTER : string :=
  "http://schemas.openxmlformats.org/officeDocument/2006/relationships/footer".
Definition HEADER : string :=
  "http://schemas.openxmlformats.org/officeDocument/2006/relationships/header".
Definition NUMBERING : string :=
  "http://schemas.openxmlformats.org/officeDocument/2006/relationships/numbering".
Definition SETTINGS : string :=
  "http://schemas.openxmlformats.org/officeDocument/2006/relationships/settings".
Definition STYLES : string :=
  "http://schemas.openxmlformats.org/officeDocument/2006/relationships/styles".
End RT.

(** ** Services of [Part] the document part inherits (docx.opc.part) *)

(** Modelled from the spec: [Part.related_parts] is not part of the sources
    at hand: the parts related to [self], by rId ([relationship_by_id],
    which fails NotFound on an absent id).  Indexing the dict with a missing
    key raises [KeyError]. *)
Definition related_parts_getitem (self : nat) (rid : string) : M nat :=
  do rs <- gets (fun s => rels (the_part s self));
  match List.find (fun r => has_rId rid r && negb (is_external r)) rs with
  | Some (mkRel _ _ (TargetPart p)) => ret p
  | _ => raise KeyError
  end.

(** Modelled from the spec: [Part.part_related_by] is not part of the sources
    at hand: search the outgoing relationships of [self] for one whose
    reltype is [rt] and return its target part; a miss is signalled by the
    lookup-miss condition [KeyError]. *)
Definition part_related_by (self : nat) (rt : string) : M nat :=
  do rs <- gets (fun s => rels (the_part s self));
  match List.find (fun r => String.eqb (reltype r) rt) rs with
  | None => raise KeyError
  | Some rel =>
      match target rel with
      | TargetPart p => ret p
      | TargetURI _ => raise ValueError
      end
  end.

(** Modelled from the spec: the fresh rId of a new relationship: the first
    of rId1, rId2, ... not in use in the collection.  One of the first
    [len + 1] candidates is free, so the fallback is never taken. *)
Definition rId_candidate (n : nat) : string := "rId" +:+ pretty n.

Definition next_rId (rs : Relationships) : string :=
  default (rId_candidate 0)
    (List.find (fun c => negb (existsb (has_rId c) rs))
       (map rId_candidate (seq 1 (S (length rs))))).

(** [rels[rid] = rel] *)
Definition dict_set (rid : string) (rel : Relationship) (rs : Relationships) : Relationships :=
  if existsb (has_rId rid) rs
  then map (fun r => if has_rId rid r then rel else r) rs
  else rs ++ [rel].

(** Modelled from the spec: [Part.relate_to] ([add_relationship]) is not part
    of the sources at hand: a new internal relationship
    [(self, fresh rId, reltype, target)] is added to those of [self]; its
    rId is returned. *)
Definition relate_to (self target_part : nat) (rt : string) : M string :=
  do rs <- gets (fun s => rels (the_part s self));
  let rid := next_rId rs in
  run modify (set_source_rels (OfPart self)
                (dict_set rid (mkRel rid rt (TargetPart target_part)) rs));
  ret rid.

(** Modelled from the spec: the constructors of the default parts
    ([CommentsPart.default], [NumberingPart.new], [SettingsPart.default],
    [StylesPart.default]) are not part of the sources at hand: a new part
    object of the given content type and partname, without relationships,
    over a new root element. *)
Definition new_part (ct name root_tag : string) : M nat :=
  fun s =>
    let part := length (objects s) in
    let root := length (xml s) in
    (mkState (package_rels s)
       (objects s ++ [mkPart ct name [] root None])
       (xml s ++ [mkElement root_tag [] None]),
     Ok part).

Definition CommentsPart_default : M nat :=
  new_part CT.WML_COMMENTS "/word/comments.xml" "w:comments".
Definition NumberingPart_new : M nat :=
  new_part CT.WML_NUMBERING "/word/numbering.xml" "w:numbering".
Definition SettingsPart_default : M nat :=
  new_part CT.WML_SETTINGS "/word/settings.xml" "w:settings".
Definition StylesPart_default : M nat :=
  new_part CT.WML_STYLES "/word/styles.xml" "w:styles".

(** [try: body  except KeyError: handler] *)
Definition try_except_KeyError {A} (body handler : M A) : M A :=
  fun s =>
    match body s with
    | (s', Raise KeyError) => handler s'
    | r => r
    end.

(** Modelled from the spec: [docx.shared.lazyproperty] is not part of the
    sources at hand: the value is computed on first access and cached in the
    instance; later accesses return the cached object. *)
Definition lazyproperty_numbering (self : nat) (body : M nat) : M nat :=
  do cached <- gets (fun s => lazy_numbering_part (the_part s self));
  match cached with
  | Some v => ret v
  | None =>
      do v <- body;
      run modify (fun s =>
            let x := the_part s self in
            set_part self
              (mkPart (content_type x) (partname x) (rels x) (element x) (Some v)) s);
      ret v
  end.

(** ** [DocumentPart] (docx/parts/document.py) *)

(** [path_or_stream]: a path (a [str]) or a file-like object. *)
Inductive PathOrStream : Type :=
| Path (path : string)
| Stream (fileobj : nat).

Module DocumentPart.

(** [footer_part(rId)] *)
Definition footer_part (self : nat) (rId : string) : M nat :=
  related_parts_getitem self rId.

(** [header_part(rId)] *)
Definition header_part (self : nat) (rId : string) : M nat :=
  related_parts_getitem self rId.

(** [numbering_part], a [@lazyproperty] *)
Definition numbering_part (self : nat) : M nat :=
  lazyproperty_numbering self
    (try_except_KeyError
       (part_related_by self RT.NUMBERING)
       (do numbering_part <- NumberingPart_new;
        run relate_to self numbering_part RT.NUMBERING;
        ret numbering_part)).

(** [_comments_part] *)
Definition _comments_part (self : nat) : M nat :=
  try_except_KeyError
    (part_related_by self RT.COMMENTS)
    (do comments_part <- CommentsPart_default;
     run relate_to self comments_part RT.COMMENTS;
     ret comments_part).

(** [_settings_part] *)
Definition _settings_part (self : nat) : M nat :=
  try_except_KeyError
    (part_related_by self RT.SETTINGS)
    (do settings_part <- SettingsPart_default;
     run relate_to self settings_part RT.SETTINGS;
     ret settings_part).

(** [_styles_part] *)
Definition _styles_part (self : nat) : M nat :=
  try_except_KeyError
    (part_related_by self RT.STYLES)
    (do styles_part <- StylesPart_default;
     run relate_to self styles_part RT.STYLES;
     ret styles_part).

(** [_should_preserve_macros(path_or_stream, preserve_macros)] *)
Definition _should_preserve_macros (path_or_stream : PathOrStream)
    (preserve_macros : option bool) : bool :=
  match preserve_macros with
  | Some b => b
  | None =>
      match path_or_stream with
      | Stream _ => false
      | Path p =>
          let ext := snd (Str.splitext p) in
          String.eqb (Str.lower ext) ".docm"
      end
  end.

Definition macro_reltypes : list string :=
  [ "http://schemas.microsoft.com/office/2006/relationships/vbaProject";
    "http://schemas.microsoft.com/office/2006/relationships/wordVbaData";
    "http://schemas.openxmlformats.org/officeDocument/2006/relationships/control" ].

(** The body of the inner loop of [_remove_macro_relationships]:
    [control_elem.getparent().remove(control_elem)] *)
Definition remove_control_elem (control_elem : nat) : M unit :=
  do p <- getparent control_elem;
  match p with
  | None => raise AttributeError
  | Some p => remove_child p control_elem
  end.

(** [_remove_macro_relationships()] *)
Definition _remove_macro_relationships (self : nat) : M unit :=
  do rids_to_remove <-
    gets (fun s =>
            map rId (List.filter (fun rel => str_in (reltype rel) macro_reltypes)
                       (rels (the_part s self))));
  for_each rids_to_remove (fun rId =>
    do control_elements <-
      gets (fun s => xpath_control (xml s) (element (the_part s self)) rId);
    run for_each control_elements remove_control_elem;
    del_rel (OfPart self) rId).

Definition vba_content_types : list string :=
  [ "application/vnd.ms-word.vbaProject";
    "application/vnd.ms-word.vbaData+xml";
    "application/vnd.ms-office.activeX";
    "application/vnd.ms-office.activeX+xml" ].

Definition vba_partname_patterns : list string :=
  [ "/word/vbaProject.bin";
    "/word/vbaData.xml" ].

(** The test that collects a part into [parts_to_remove] *)
Definition is_vba_part (part : Part) : bool :=
  if str_in (content_type part) vba_content_types then true
  else existsb (fun pattern => String.eqb (partname part) pattern) vba_partname_patterns.

(** [for rel in list(rels.values()): if not rel.is_external and
    rel.target_part == part_to_remove: del rels[rel.rId]] on the
    collection of [src] *)
Definition drop_rels_to (src : Source) (part_to_remove : nat) : M unit :=
  do snapshot <- gets (fun s => source_rels s src);
  for_each snapshot (fun rel =>
    if targets_part rel part_to_remove then del_rel src (rId rel) else ret tt).

(** [_remove_vba_parts()] *)
Definition _remove_vba_parts (self : nat) : M unit :=
  do parts_to_remove <-
    gets (fun s => List.filter (fun part => is_vba_part (the_part s part)) (parts s));
  for_each parts_to_remove (fun part_to_remove =>
    run drop_rels_to OfPackage part_to_remove;
    do all_parts <- gets parts;
    for_each all_parts (fun part =>
      if Nat.eqb part part_to_remove then ret tt
      else drop_rels_to (OfPart part) part_to_remove)).

Definition set_content_type (self : nat) (ct : string) : M unit :=
  modify (fun s =>
    let x := the_part s self in
    set_part self (mkPart ct (partname x) (rels x) (element x) (lazy_numbering_part x)) s).

(** [self.package.save(path_or_stream)]: the serializer is outside the
    model.  The value returned is the destination handed to it, and the
    state at that point is the package it writes. *)
Definition package_save (path_or_stream : PathOrStream) : M PathOrStream :=
  ret path_or_stream.

(** Whether [save] strips: [will_strip_macros] *)
Definition will_strip_macros (self : nat) (path_or_stream : PathOrStream)
    (preserve_macros : option bool) (s : State) : bool :=
  let should_preserve := _should_preserve_macros path_or_stream preserve_macros in
  String.eqb (content_type (the_part s self)) CT.WML_DOCUMENT_MACRO_ENABLED_MAIN
  && negb should_preserve.

(** The correction of the destination after stripping *)
Definition corrected_path (path_or_stream : PathOrStream) : PathOrStream :=
  match path_or_stream with
  | Path p =>
      if Str.endswith (Str.lower p) ".docm"
      then Path (Str.drop_last 5 p +:+ ".docx")
      else path_or_stream
  | Stream _ => path_or_stream
  end.

(** [save(path_or_stream, preserve_macros=None)] *)
Definition save (self : nat) (path_or_stream : PathOrStream)
    (preserve_macros : option bool) : M PathOrStream :=
  do will_strip <- gets (will_strip_macros self path_or_stream preserve_macros);
  do path_or_stream <-
    (if will_strip : bool then
       run set_content_type self CT.WML_DOCUMENT_MAIN;
       run _remove_macro_relationships self;
       run _remove_vba_parts self;
       ret (corrected_path path_or_stream)
     else ret path_or_stream);
  package_save path_or_stream.

End DocumentPart.

(** * Vocabulary of the properties *)

Import DocumentPart.

(** [q] is reached from the package along non-external relationships. *)
Inductive reach (s : State) : nat -> Prop :=
| reach_root rel q :
    In rel (package_rels s) -> target rel = TargetPart q -> reach s q
| reach_step p rel q :
    reach s p -> In rel (rels (the_part s p)) -> target rel = TargetPart q ->
    reach s q.

(** One step of the loop of [walk_parts], at recursion depth [S d]. *)
Definition walk_step (s : State) (d : nat) (visited : list nat) (rel : Relationship) : list nat :=
  match target rel with
  | TargetURI _ => visited
  | TargetPart part =>
      if mem_nat part visited then visited
      else walk_parts d s (rels (the_part s part)) (visited ++ [part])
  end.

(** The part objects that have not been visited yet. *)
Definition unvisited (s : State) (visited : list nat) : nat :=
  length (List.filter (fun i => negb (mem_nat i visited))
            (seq 0 (length (objects s)))).

(** What a walk that does not run out of depth returns: an extension of
    [visited] that holds every target of [source] and, for each part it
    has entered, every target of that part. *)
Definition walk_post (s : State) (source : Relationships) (visited result : list nat) : Prop :=
  (forall p, In p visited -> In p result)
  /\ (forall rel q, In rel source -> target rel = TargetPart q -> In q result)
  /\ (forall p rel q, In p result -> ~ In p visited ->
                      In rel (rels (the_part s p)) -> target rel = TargetPart q ->
                      In q result).

Definition same_attributes (x x' : Part) : Prop :=
  content_type x' = content_type x /\ partname x' = partname x
  /\ element x' = element x /\ lazy_numbering_part x' = lazy_numbering_part x.

Definition unlinked (e e' : Element) : Prop :=
  tag e' = tag e /\ attrib e' = attrib e
  /\ (parent e' = parent e \/ parent e' = None).

(** [s'] is [s] with some relationships deleted and some elements detached
    from their parents; nothing else differs. *)
Record shrinks (s s' : State) : Prop := mkShrinks {
  sh_length : length (objects s') = length (objects s);
  sh_rels : forall src, sublist (source_rels s' src) (source_rels s src);
  sh_attributes : forall p, same_attributes (the_part s p) (the_part s' p);
  sh_xml_length : length (xml s') = length (xml s);
  sh_xml : forall x e', xml s' !! x = Some e' ->
                        exists e, xml s !! x = Some e /\ unlinked e e'
}.

(** The keys of a dict are distinct. *)
Definition rIds_unique (rs : Relationships) : Prop := NoDup (map rId rs).

(** The rId has no double quote, so that the XPath expression the source
    builds from it is the one [xpath_control] evaluates. *)
Definition quote_free (rid : string) : Prop :=
  forallb (fun c => negb (Ascii.eqb c "034")) (list_ascii_of_string rid) = true.

(** [self] is a part object; every relationship collection is a dict keyed
    by rId; the rIds of [self] can be spliced into an XPath string. *)
Definition well_formed (s : State) (self : nat) : Prop :=
  self < length (objects s)
  /\ rIds_unique (package_rels s)
  /\ Forall (fun x => rIds_unique (rels x)) (objects s)
  /\ Forall (fun rel => quote_free (rId rel)) (rels (the_part s self)).

Definition dicts (s : State) : Prop := forall src, rIds_unique (source_rels s src).

(** The body of the outer loop of [_remove_vba_parts]. *)
Definition sweep_part (part_to_remove : nat) : M unit :=
  run drop_rels_to OfPackage part_to_remove;
  do all_parts <- gets parts;
  for_each all_parts (fun part =>
    if Nat.eqb part part_to_remove then ret tt
    else drop_rels_to (OfPart part) part_to_remove).

(** The body of the outer loop of [_remove_macro_relationships]. *)
Definition cascade_one (self : nat) (rId : string) : M unit :=
  do control_elements <-
    gets (fun s => xpath_control (xml s) (element (the_part s self)) rId);
  run for_each control_elements remove_control_elem;
  del_rel (OfPart self) rId.

(** The state right after [self._content_type = CT.WML_DOCUMENT_MAIN]. *)
Definition retyped (self : nat) (s : State) : State :=
  fst (set_content_type self CT.WML_DOCUMENT_MAIN s).

(** What [save] leaves behind when it strips. *)
Record stripped (self : nat) (s s' : State) : Prop := mkStripped {
  st_shrinks : shrinks (retyped self s) s';
  st_no_macro_rels :
    forall rel, In rel (rels (the_part s' self)) ->
                str_in (reltype rel) macro_reltypes = false;
  st_no_vba_parts :
    forall q, In q (parts s') -> is_vba_part (the_part s' q) = false;
  st_no_controls :
    forall rel, In rel (rels (the_part s self)) ->
                str_in (reltype rel) macro_reltypes = true ->
                xpath_control (xml s') (element (the_part s' self)) (rId rel) = []
}.

Definition RT_OFFICE_DOCUMENT : string :=
  "http://schemas.openxmlformats.org/officeDocument/2006/relationships/officeDocument".
Definition RT_VBA_PROJECT : string :=
  "http://schemas.microsoft.com/office/2006/relationships/vbaProject".
Definition RT_VBA_DATA : string :=
  "http://schemas.microsoft.com/office/2006/relationships/wordVbaData".
Definition RT_CONTROL : string :=
  "http://schemas.openxmlformats.org/officeDocument/2006/relationships/control".
Definition CT_VBA_PROJECT : string := "application/vnd.ms-word.vbaProject".

(** A macro-enabled document (part 0) with a styles part (1), a VBA project
    (2, related as rId7) that has its VBA data part (3), and a control
    element (3) in the body that refers to rId7. *)
Definition scenario_A : State :=
  mkState
    [ mkRel "rId1" RT_OFFICE_DOCUMENT (TargetPart 0) ]
    [ mkPart CT.WML_DOCUMENT_MACRO_ENABLED_MAIN "/word/document.xml"
        [ mkRel "rId1" RT.STYLES (TargetPart 1);
          mkRel "rId7" RT_VBA_PROJECT (TargetPart 2) ]
        0 None;
      mkPart CT.WML_STYLES "/word/styles.xml" [] 4 None;
      mkPart CT_VBA_PROJECT "/word/vbaProject.bin"
        [ mkRel "rId1" RT_VBA_DATA (TargetPart 3) ] 0 None;
      mkPart "application/vnd.ms-word.vbaData+xml" "/word/vbaData.xml" [] 5 None ]
    [ mkElement "w:document" [] None;
      mkElement "w:body" [] (Some 0);
      mkElement "w:p" [] (Some 1);
      mkElement "w:control" [("w:name", "Button1"); ("r:id", "rId7")] (Some 2);
      mkElement "w:styles" [] None;
      mkElement "wne:vbaSuppData" [] None ].

(** A macro-enabled document (part 0) whose header (1) holds a relationship
    of the control type to a part that is not of a VBA or ActiveX type (2). *)
Definition header_control : State :=
  mkState
    [ mkRel "rId1" RT_OFFICE_DOCUMENT (TargetPart 0) ]
    [ mkPart CT.WML_DOCUMENT_MACRO_ENABLED_MAIN "/word/document.xml"
        [ mkRel "rId1" RT.HEADER (TargetPart 1) ] 0 None;
      mkPart "application/vnd.openxmlformats-officedocument.wordprocessingml.header+xml"
        "/word/header1.xml"
        [ mkRel "rId1" RT_CONTROL (TargetPart 2) ] 1 None;
      mkPart "application/xml" "/word/embeddings/control1.xml" [] 2 None ]
    [ mkElement "w:document" [] None;
      mkElement "w:hdr" [] None;
      mkElement "control" [] None ].

(** A document whose tree is just its root, next to a control element that
    refers to rId7 and has no parent. *)
Definition detached_control : State :=
  mkState
    [ mkRel "rId1" RT_OFFICE_DOCUMENT (TargetPart 0) ]
    [ mkPart CT.WML_DOCUMENT_MACRO_ENABLED_MAIN "/word/document.xml"
        [ mkRel "rId7" RT_VBA_PROJECT (TargetPart 1) ] 0 None;
      mkPart CT_VBA_PROJECT "/word/vbaProject.bin" [] 0 None ]
    [ mkElement "w:document" [] None;
      mkElement "w:control" [("r:id", "rId7")] None ].

(** A macro-enabled document whose numbering relationship leads to a part
    of an ActiveX content type. *)
Definition vba_numbering : State :=
  mkState
    [ mkRel "rId1" RT_OFFICE_DOCUMENT (TargetPart 0) ]
    [ mkPart CT.WML_DOCUMENT_MACRO_ENABLED_MAIN "/word/document.xml"
        [ mkRel "rId1" RT.NUMBERING (TargetPart 1) ] 0 None;
      mkPart "application/vnd.ms-office.activeX+xml" "/word/numbering.xml" [] 1 None ]
    [ mkElement "w:document" [] None;
      mkElement "w:numbering" [] None ].

(** The same after [numbering_part] was read and the document then saved,
    stripped, to a stream. *)
Definition stale_numbering : State :=
  fst (save 0 (Stream 0) None (fst (numbering_part 0 vba_numbering))).

(** The pattern the four accessors share:
    [try: return self.part_related_by(rt)
     except KeyError: part = <new part>; self.relate_to(part, rt); return part] *)
Definition related_or_default (self : nat) (rt ct name root_tag : string) : M nat :=
  try_except_KeyError
    (part_related_by self rt)
    (do part <- new_part ct name root_tag;
     run relate_to self part rt;
     ret part).

(** The first relationship of type [rt] *)
Definition rel_of_type (rt : string) (rs : Relationships) : option Relationship :=
  List.find (fun r => String.eqb (reltype r) rt) rs.

(** The accessors, with the type of the relationship each one follows. *)
Definition singleton_accessors : list ((nat -> M nat) * string) :=
  [ (_settings_part, RT.SETTINGS);
    (_styles_part, RT.STYLES);
    (_comments_part, RT.COMMENTS);
    (numbering_part, RT.NUMBERING) ].

(** The value cached for [numbering_part], if any, is the target of the
    numbering relationship: what the accessor itself establishes. *)
Definition cache_coherent (s : State) (self : nat) : Prop :=
  match lazy_numbering_part (the_part s self) with
  | None => True
  | Some v =>
      exists rel, rel_of_type RT.NUMBERING (rels (the_part s self)) = Some rel
                  /\ target rel = TargetPart v
  end.

(** [s1] has the parts, relationships and markup of [s]. *)
Definition same_graph (s s1 : State) : Prop :=
  package_rels s1 = package_rels s /\ xml s1 = xml s
  /\ length (objects s1) = length (objects s)
  /\ forall q, content_type (the_part s1 q) = content_type (the_part s q)
               /\ partname (the_part s1 q) = partname (the_part s q)
               /\ rels (the_part s1 q) = rels (the_part s q)
               /\ element (the_part s1 q) = element (the_part s q).

(** [s1] is [s] with one new part object [p], without relationships of its
    own, and one new relationship of type [rt] from [self] to it. *)
Definition defaulted (self : nat) (rt : string) (s s1 : State) (p : nat) : Prop :=
  p = length (objects s)
  /\ length (objects s1) = S (length (objects s))
  /\ package_rels s1 = package_rels s
  /\ rels (the_part s1 self)
     = rels (the_part s self)
       ++ [mkRel (next_rId (rels (the_part s self))) rt (TargetPart p)]
  /\ (forall q, q <> self -> q < length (objects s) ->
                rels (the_part s1 q) = rels (the_part s q)
                /\ content_type (the_part s1 q) = content_type (the_part s q)
                /\ partname (the_part s1 q) = partname (the_part s q))
  /\ rels (the_part s1 p) = [].

(** The state after [@lazyproperty] has cached [v]. *)
Definition cached (self v : nat) (s : State) : State :=
  let x := the_part s self in
  set_part self (mkPart (content_type x) (partname x) (rels x) (element x) (Some v)) s.

(** What one call of a singleton accessor does, by cases on the first
    relationship of its type. *)
Definition accessor_contract (acc : nat -> M nat) (rt : string) (s : State)
    (self : nat) : Prop :=
  match rel_of_type rt (rels (the_part s self)) with
  | Some rel =>
      forall p, target rel = TargetPart p ->
        exists s1, acc self s = (s1, Ok p)
                   /\ same_graph s s1
                   /\ acc self s1 = (s1, Ok p)
  | None =>
      exists s1 p, acc self s = (s1, Ok p)
                   /\ defaulted self rt s s1 p
                   /\ (In self (parts s) -> In p (parts s1))
                   /\ acc self s1 = (s1, Ok p)
  end.

(** [x] is below [a] in the tree. *)
Inductive below (els : list Element) (a : nat) : nat -> Prop :=
| below_child x e : els !! x = Some e -> parent e = Some a -> below els a x
| below_deeper x e p :
    els !! x = Some e -> parent e = Some p -> below els a p -> below els a x.

(** Elements are listed in document order: a parent comes before its
    children. *)
Definition document_order (els : list Element) : Prop :=
  forall x e p, els !! x = Some e -> parent e = Some p -> p < x.

(** * Vocabulary of the further properties *)

(** The state after the relationships of [src] to [part_to_remove] are
    deleted. *)
Definition prune (src : Source) (part_to_remove : nat) (s : State) : State :=
  set_source_rels src
    (List.filter (fun rel => negb (targets_part rel part_to_remove)) (source_rels s src))
    s.

(** The relationship targets a part with a VBA content type or partname. *)
Definition vba_target (s : State) (rel : Relationship) : bool :=
  match target rel with
  | TargetPart t => is_vba_part (the_part s t)
  | TargetURI _ => false
  end.

(** The relationship is one of a macro type held by the document part. *)
Definition macro_rel_of (self : nat) (src : Source) (rel : Relationship) : bool :=
  match src with
  | OfPart p => Nat.eqb p self && str_in (reltype rel) macro_reltypes
  | OfPackage => false
  end.

(** The element record after [parent.remove(element)]. *)
Definition detached (e : Element) : Element := mkElement (tag e) (attrib e) None.

Definition not_macro (rel : Relationship) : bool :=
  negb (str_in (reltype rel) macro_reltypes).

(** [q] is reached from the package along relationships that a strip has no
    reason to delete: none is a macro relationship of the document part and
    none leads to a part with a VBA content type or partname. *)
Inductive clean_reach (s : State) (self : nat) : nat -> Prop :=
| clean_root rel q :
    In rel (package_rels s) -> target rel = TargetPart q ->
    is_vba_part (the_part s q) = false ->
    clean_reach s self q
| clean_step p rel q :
    clean_reach s self p ->
    In rel (rels (the_part s p)) -> target rel = TargetPart q ->
    is_vba_part (the_part s q) = false ->
    macro_rel_of self (OfPart p) rel = false ->
    clean_reach s self q.

(** [add_footer_part()] and [add_header_part()].  The constructors
    [FooterPart.new] and [HeaderPart.new] belong to another module; they
    are an argument here: the computation that makes the new part object
    and returns it. *)
Definition add_footer_part (FooterPart_new : M nat) (self : nat) : M (nat * string) :=
  do footer_part <- FooterPart_new;
  do rId <- relate_to self footer_part RT.FOOTER;
  ret (footer_part, rId).

Definition add_header_part (HeaderPart_new : M nat) (self : nat) : M (nat * string) :=
  do header_part <- HeaderPart_new;
  do rId <- relate_to self header_part RT.HEADER;
  ret (header_part, rId).

(** * Properties *)

Example splitext_report : Str.splitext "dir.d/report.DOCM" = ("dir.d/report", ".DOCM").
Proof. reflexivity. Qed.

Example splitext_hidden : Str.splitext "dir/.docm" = ("dir/.docm", "").
Proof. reflexivity. Qed.

Example splitext_none : Str.splitext "a.b/report" = ("a.b/report", "").
Proof. reflexivity. Qed.

(** ** Reachability in the relationship graph *)

Lemma mem_nat_In p l : mem_nat p l = true <-> In p l.
Proof.
  unfold mem_nat. rewrite existsb_exists. split.
  - intros (x & Hx & Heq). apply Nat.eqb_eq in Heq. now subst.
  - intros H. exists p. split; [assumption | apply Nat.eqb_refl].
Qed.

Lemma mem_nat_false p l : mem_nat p l = false <-> ~ In p l.
Proof.
  rewrite <- mem_nat_In. destruct (mem_nat p l); split; congruence.
Qed.

Section Walk.

Variable s : State.

Lemma walk_parts_S d source visited :
  walk_parts (S d) s source visited = fold_left (walk_step s d) source visited.
Proof. reflexivity. Qed.

(** Soundness: whatever property holds of the parts already visited and of
    the targets met, and is closed under the relationships of a part,
    holds of every part the walk returns. *)
Lemma walk_parts_sound (P : nat -> Prop) :
  (forall p rel q, P p -> In rel (rels (the_part s p)) ->
                   target rel = TargetPart q -> P q) ->
  forall d source visited,
    (forall rel q, In rel source -> target rel = TargetPart q -> P q) ->
    (forall p, In p visited -> P p) ->
    forall p, In p (walk_parts d s source visited) -> P p.
Proof.
  intros Hclosed. induction d as [|d IHd]; intros source visited Hsrc Hvis.
  - simpl. assumption.
  - rewrite walk_parts_S. revert visited Hvis.
    induction source as [|rel source IHsource]; intros visited Hvis; simpl.
    + assumption.
    + apply IHsource.
      * intros rel' q Hin. apply Hsrc. now right.
      * unfold walk_step. destruct (target rel) as [part|uri] eqn:Htarget.
        -- destruct (mem_nat part visited); [assumption|].
           apply IHd.
           ++ intros rel' q Hin Ht. apply (Hclosed part rel' q); try assumption.
              apply (Hsrc rel part); [now left | assumption].
           ++ intros p Hp. apply in_app_or in Hp as [Hp|[Heq|[]]].
              ** now apply Hvis.
              ** subst p. apply (Hsrc rel part); [now left | assumption].
        -- assumption.
Qed.

Lemma filter_length_mono {A} (f g : A -> bool) (l : list A) :
  (forall x, In x l -> g x = true -> f x = true) ->
  length (List.filter g l) <= length (List.filter f l).
Proof.
  induction l as [|a l IH]; intros H; simpl; [lia|].
  assert (IH' : length (List.filter g l) <= length (List.filter f l)).
  { apply IH. intros x Hx. apply H. now right. }
  destruct (g a) eqn:Hg.
  - rewrite (H a (or_introl eq_refl) Hg). simpl. lia.
  - destruct (f a); simpl; lia.
Qed.

Lemma filter_length_strict {A} (f g : A -> bool) (l : list A) (a : A) :
  (forall x, In x l -> g x = true -> f x = true) ->
  In a l -> f a = true -> g a = false ->
  length (List.filter g l) < length (List.filter f l).
Proof.
  induction l as [|b l IH]; intros H Hin Hf Hg; simpl; [destruct Hin|].
  assert (Hle : length (List.filter g l) <= length (List.filter f l)).
  { apply filter_length_mono. intros x Hx. apply H. now right. }
  destruct Hin as [->|Hin].
  - rewrite Hf, Hg. simpl. lia.
  - assert (IH' : length (List.filter g l) < length (List.filter f l)).
    { apply IH; try assumption. intros x Hx. apply H. now right. }
    destruct (g b) eqn:Hgb.
    + rewrite (H b (or_introl eq_refl) Hgb). simpl. lia.
    + destruct (f b); simpl; lia.
Qed.

Lemma unvisited_mono visited visited' :
  (forall p, In p visited -> In p visited') ->
  unvisited s visited' <= unvisited s visited.
Proof.
  intros Hincl. unfold unvisited. apply filter_length_mono.
  intros x _ Hx. apply negb_true_iff in Hx. apply negb_true_iff.
  apply mem_nat_false. apply mem_nat_false in Hx. auto.
Qed.

Lemma unvisited_enter visited part :
  part < length (objects s) -> ~ In part visited ->
  unvisited s (visited ++ [part]) < unvisited s visited.
Proof.
  intros Hlt Hnot. unfold unvisited. apply filter_length_strict with (a := part).
  - intros x _ Hx. apply negb_true_iff in Hx. apply negb_true_iff.
    apply mem_nat_false. apply mem_nat_false in Hx.
    intros Hin. apply Hx. apply in_or_app. now left.
  - apply in_seq. lia.
  - apply negb_true_iff. now apply mem_nat_false.
  - apply negb_false_iff. apply mem_nat_In. apply in_or_app. right. now left.
Qed.

Lemma rels_outside part :
  length (objects s) <= part -> rels (the_part s part) = [].
Proof.
  intros Hge. unfold the_part.
  rewrite (proj2 (lookup_ge_None (objects s) part)); [reflexivity | assumption].
Qed.

Lemma walk_parts_complete :
  forall d source visited,
    source = [] \/ unvisited s visited < d ->
    walk_post s source visited (walk_parts d s source visited).
Proof.
  induction d as [|d IHd]; intros source visited Hdepth.
  - destruct Hdepth as [->|Hlt]; [|lia]. simpl.
    repeat split; try tauto. intros rel q [].
  - rewrite walk_parts_S.
    assert (Hfuel : source = [] \/ unvisited s visited < S d) by assumption.
    clear Hdepth. revert visited Hfuel.
    induction source as [|rel source IHsource]; intros visited Hfuel; simpl.
    + repeat split; try tauto. intros rel q [].
    + destruct Hfuel as [Hnil|Hlt]; [discriminate|].
      set (v1 := walk_step s d visited rel).
      assert (H1 : walk_post s (rel :: nil) visited v1).
      { unfold v1, walk_step. destruct (target rel) as [part|uri] eqn:Htarget.
        - destruct (mem_nat part visited) eqn:Hmem.
          + repeat split; try tauto.
            intros rel' q [<-|[]] Hq. rewrite Htarget in Hq.
            injection Hq as <-. now apply mem_nat_In.
          + apply mem_nat_false in Hmem.
            assert (Hd : rels (the_part s part) = []
                         \/ unvisited s (visited ++ [part]) < d).
            { destruct (Nat.lt_ge_cases part (length (objects s))) as [Hin|Hout].
              - right. pose proof (unvisited_enter visited part Hin Hmem). lia.
              - left. now apply rels_outside. }
            destruct (IHd (rels (the_part s part)) (visited ++ [part]) Hd)
              as (Hext & Htargets & Hentered).
            repeat split.
            * intros p Hp. apply Hext. apply in_or_app. now left.
            * intros rel' q [<-|[]] Hq. rewrite Htarget in Hq.
              injection Hq as <-. apply Hext. apply in_or_app. right. now left.
            * intros p rel' q Hp Hnew Hrel Hq.
              destruct (Nat.eq_dec p part) as [->|Hne].
              -- now apply (Htargets rel' q).
              -- apply (Hentered p rel' q); try assumption.
                 intros Hin. apply in_app_or in Hin as [Hin|[Heq|[]]]; auto.
        - repeat split; try tauto.
          intros rel' q [<-|[]] Hq. congruence. }
      destruct H1 as (Hext1 & Htargets1 & Hentered1).
      assert (Hfuel1 : source = [] \/ unvisited s v1 < S d).
      { right. pose proof (unvisited_mono visited v1 Hext1). lia. }
      destruct (IHsource v1 Hfuel1) as (Hext & Htargets & Hentered).
      repeat split.
      * intros p Hp. apply Hext. now apply Hext1.
      * intros rel' q [<-|Hin] Hq.
        -- apply Hext. apply (Htargets1 rel q); [now left | assumption].
        -- now apply (Htargets rel' q).
      * intros p rel' q Hp Hnew Hrel Hq.
        destruct (in_dec Nat.eq_dec p v1) as [Hin1|Hnot1].
        -- apply Hext. now apply (Hentered1 p rel' q).
        -- now apply (Hentered p rel' q).
Qed.

End Walk.

Lemma unvisited_bound s visited : unvisited s visited <= length (objects s).
Proof.
  unfold unvisited.
  etransitivity; [apply List.filter_length_le|]. now rewrite length_seq.
Qed.

(** [package.parts] holds exactly the parts reached from the package. *)
Lemma parts_reach s q : In q (parts s) <-> reach s q.
Proof.
  unfold parts, iter_parts. split.
  - apply (walk_parts_sound s (reach s)).
    + intros p rel q' Hp Hrel Hq. now apply (reach_step s p rel q').
    + intros rel q' Hrel Hq. now apply (reach_root s rel q').
    + intros p [].
  - assert (Hpost : walk_post s (package_rels s) []
                      (walk_parts (S (length (objects s))) s (package_rels s) [])).
    { apply walk_parts_complete. right.
      pose proof (unvisited_bound s []). lia. }
    destruct Hpost as (_ & Htargets & Hentered).
    induction 1 as [rel q Hrel Hq | p rel q Hp IH Hrel Hq].
    + now apply (Htargets rel q).
    + apply (Hentered p rel q); auto.
Qed.

(** The part list is closed under the relationships of its members. *)
Lemma parts_closed s p rel q :
  In p (parts s) -> In rel (rels (the_part s p)) -> target rel = TargetPart q ->
  In q (parts s).
Proof.
  rewrite !parts_reach. intros Hp Hrel Hq. now apply (reach_step s p rel q).
Qed.

Lemma parts_root s rel q :
  In rel (package_rels s) -> target rel = TargetPart q -> In q (parts s).
Proof.
  rewrite parts_reach. intros Hrel Hq. now apply (reach_root s rel q).
Qed.

(** ** The object store *)

Lemma the_part_lookup s p x : objects s !! p = Some x -> the_part s p = x.
Proof. unfold the_part. now intros ->. Qed.

Lemma the_part_outside s p : length (objects s) <= p -> the_part s p = empty_part.
Proof.
  intros H. unfold the_part. now rewrite (proj2 (lookup_ge_None (objects s) p)).
Qed.

Lemma the_part_set_eq s p x :
  p < length (objects s) -> the_part (set_part p x s) p = x.
Proof.
  intros H. unfold the_part, set_part. simpl.
  now rewrite list_lookup_insert_eq.
Qed.

Lemma the_part_set_ne s p q x : p <> q -> the_part (set_part p x s) q = the_part s q.
Proof.
  intros H. unfold the_part, set_part. simpl.
  now rewrite list_lookup_insert_ne.
Qed.

Lemma set_part_outside s p x :
  length (objects s) <= p -> objects (set_part p x s) = objects s.
Proof. intros H. unfold set_part. simpl. now apply list_insert_ge. Qed.

Lemma the_part_set_outside s p q x :
  length (objects s) <= p -> the_part (set_part p x s) q = the_part s q.
Proof. intros H. unfold the_part. now rewrite set_part_outside. Qed.

Lemma objects_set_part_length s p x :
  length (objects (set_part p x s)) = length (objects s).
Proof. unfold set_part. simpl. apply length_insert. Qed.

(** Reading the collection of [src'] after the one of [src] was replaced. *)
Lemma source_rels_set s src rs src' :
  source_rels (set_source_rels src rs s) src' =
    match src, src' with
    | OfPackage, OfPackage => rs
    | OfPart p, OfPart q =>
        if decide (p = q /\ p < length (objects s)) then rs else rels (the_part s q)
    | _, _ => source_rels s src'
    end.
Proof.
  destruct src as [|p], src' as [|q]; simpl; try reflexivity.
  case_decide as Hd.
  - destruct Hd as [<- Hlt]. now rewrite the_part_set_eq.
  - destruct (decide (p = q)) as [<-|Hne].
    + assert (Hge : length (objects s) <= p) by (apply Nat.nlt_ge; tauto).
      now rewrite the_part_set_outside.
    + now rewrite the_part_set_ne.
Qed.

(** ** States that come from deleting relationships and unlinking elements *)

Lemma shrinks_refl s : shrinks s s.
Proof.
  constructor; try reflexivity.
  - intros p. now repeat split.
  - intros x e' H. exists e'. split; [assumption|]. repeat split. now left.
Qed.

Lemma shrinks_trans s1 s2 s3 : shrinks s1 s2 -> shrinks s2 s3 -> shrinks s1 s3.
Proof.
  intros [L1 R1 A1 XL1 X1] [L2 R2 A2 XL2 X2]. constructor.
  - congruence.
  - intros src. etransitivity; [apply R2 | apply R1].
  - intros p. destruct (A1 p) as (a1 & b1 & c1 & d1), (A2 p) as (a2 & b2 & c2 & d2).
    repeat split; congruence.
  - congruence.
  - intros x e3 H3. destruct (X2 x e3 H3) as (e2 & H2 & t2 & a2 & p2).
    destruct (X1 x e2 H2) as (e1 & H1 & t1 & a1 & p1).
    exists e1. split; [assumption|]. repeat split; try congruence.
    destruct p2 as [p2|p2]; [|now right].
    destruct p1 as [p1|p1]; [left|right]; congruence.
Qed.

Lemma sublist_List_filter {A} (f : A -> bool) (l : list A) :
  sublist (List.filter f l) l.
Proof.
  induction l as [|a l IH]; simpl; [constructor|].
  destruct (f a); now constructor.
Qed.

Lemma sublist_In {A} (l1 l2 : list A) x : sublist l1 l2 -> In x l1 -> In x l2.
Proof.
  intros Hsub Hin. apply list_elem_of_In. apply list_elem_of_In in Hin.
  now apply (elem_of_sublist l1 l2).
Qed.

(** Replacing a collection by a filtered copy of itself shrinks the state. *)
Lemma shrinks_filter s src f :
  shrinks s (set_source_rels src (List.filter f (source_rels s src)) s).
Proof.
  constructor.
  - destruct src; simpl; [reflexivity | apply objects_set_part_length].
  - intros src'. rewrite source_rels_set.
    destruct src as [|p], src' as [|q]; simpl; try reflexivity.
    + apply sublist_List_filter.
    + case_decide as Hd; [|reflexivity].
      destruct Hd as [<- _]. apply sublist_List_filter.
  - intros q. destruct src as [|p]; simpl; [now repeat split|].
    destruct (decide (p = q)) as [<-|Hne].
    + destruct (Nat.lt_ge_cases p (length (objects s))) as [Hlt|Hge].
      * rewrite the_part_set_eq by assumption. now repeat split.
      * rewrite the_part_set_outside by assumption. now repeat split.
    + rewrite the_part_set_ne by assumption. now repeat split.
  - destruct src; reflexivity.
  - intros x e' H. exists e'. split.
    + destruct src; exact H.
    + repeat split. now left.
Qed.

Lemma shrinks_reach s s' q : shrinks s s' -> reach s' q -> reach s q.
Proof.
  intros Hsh. induction 1 as [rel q Hrel Hq | p rel q Hp IH Hrel Hq].
  - apply (reach_root s rel q); [|assumption].
    apply (sublist_In _ _ _ (sh_rels _ _ Hsh OfPackage)). exact Hrel.
  - apply (reach_step s p rel q); [assumption| |assumption].
    apply (sublist_In _ _ _ (sh_rels _ _ Hsh (OfPart p))). exact Hrel.
Qed.

Lemma shrinks_parts s s' q : shrinks s s' -> In q (parts s') -> In q (parts s).
Proof. rewrite !parts_reach. apply shrinks_reach. Qed.

(** ** Well-formed states *)

Lemma well_formed_dicts s self : well_formed s self -> dicts s.
Proof.
  intros (_ & Hroot & Hparts & _) [|p]; simpl; [assumption|].
  unfold the_part. destruct (objects s !! p) as [x|] eqn:Hx; simpl.
  - rewrite Forall_forall in Hparts. apply Hparts.
    apply list_elem_of_lookup. now exists p.
  - constructor.
Qed.

Lemma sublist_map {A B} (f : A -> B) (l1 l2 : list A) :
  sublist l1 l2 -> sublist (map f l1) (map f l2).
Proof. induction 1; simpl; now constructor. Qed.

Lemma rIds_unique_sublist rs rs' : sublist rs' rs -> rIds_unique rs -> rIds_unique rs'.
Proof.
  unfold rIds_unique. intros Hsub Hnd.
  eapply sublist_NoDup; [exact Hnd | apply sublist_map; exact Hsub].
Qed.

Lemma shrinks_dicts s s' : shrinks s s' -> dicts s -> dicts s'.
Proof.
  intros Hsh Hd src. apply (rIds_unique_sublist (source_rels s src)); [|apply Hd].
  apply (sh_rels _ _ Hsh).
Qed.

(** In a dict, a relationship is the only one under its rId. *)
Lemma rIds_unique_inj rs r1 r2 :
  rIds_unique rs -> In r1 rs -> In r2 rs -> rId r1 = rId r2 -> r1 = r2.
Proof.
  unfold rIds_unique. induction rs as [|r rs IH]; simpl; intros Hnd H1 H2 Heq.
  - destruct H1.
  - inversion Hnd as [|? ? Hnotin Hnd']; subst.
    destruct H1 as [<-|H1], H2 as [<-|H2]; try reflexivity.
    + exfalso. apply Hnotin. rewrite Heq. apply list_elem_of_In. now apply in_map.
    + exfalso. apply Hnotin. rewrite <- Heq. apply list_elem_of_In. now apply in_map.
    + now apply IH.
Qed.

(** ** Loops *)

(** Invariant rule for [for_each]: the invariant speaks of the items already
    processed and of those still to come. *)
Lemma for_each_inv {A} (I : list A -> list A -> State -> Prop)
    (body : A -> M unit) (l : list A) :
  (forall pre a post s, l = pre ++ a :: post -> I pre (a :: post) s ->
     exists s', body a s = (s', Ok tt) /\ I (pre ++ [a]) post s') ->
  forall s, I [] l s ->
  exists s', for_each l body s = (s', Ok tt) /\ I l [] s'.
Proof.
  intros Hbody.
  assert (Hgen : forall post pre s, l = pre ++ post -> I pre post s ->
                   exists s', for_each post body s = (s', Ok tt) /\ I l [] s').
  { induction post as [|a post IH]; intros pre s Hl HI.
    - rewrite app_nil_r in Hl. subst pre. exists s. now split.
    - destruct (Hbody pre a post s Hl HI) as (s1 & Hrun & HI1).
      destruct (IH (pre ++ [a]) s1) as (s' & Hrest & HI').
      + rewrite <- app_assoc. exact Hl.
      + exact HI1.
      + exists s'. split; [|exact HI']. simpl. unfold bind. now rewrite Hrun. }
  intros s HI. now apply (Hgen l [] s).
Qed.

Lemma existsb_has_rId rid rs :
  existsb (has_rId rid) rs = true <-> exists r, In r rs /\ rId r = rid.
Proof.
  rewrite existsb_exists. unfold has_rId.
  split; intros (r & Hin & H); exists r; (split; [assumption|]);
    now apply String.eqb_eq.
Qed.

(** [del rels[rid]] succeeds on a key that is present; it removes the
    relationship under that key and nothing else. *)
Lemma del_rel_ok s src rid :
  (exists r, In r (source_rels s src) /\ rId r = rid) ->
  exists s', del_rel src rid s = (s', Ok tt)
    /\ shrinks s s' /\ xml s' = xml s
    /\ (forall r, In r (source_rels s' src) <->
                  In r (source_rels s src) /\ rId r <> rid).
Proof.
  intros Hex. unfold del_rel.
  rewrite (proj2 (existsb_has_rId rid (source_rels s src)) Hex).
  eexists. split; [reflexivity|]. split; [apply shrinks_filter|].
  split; [destruct src; reflexivity|].
  intros r. rewrite source_rels_set.
  assert (Hfilter : In r (List.filter (fun r0 => negb (has_rId rid r0)) (source_rels s src))
                    <-> In r (source_rels s src) /\ rId r <> rid).
  { rewrite filter_In. unfold has_rId. rewrite negb_true_iff.
    split; intros [H1 H2]; (split; [assumption|]).
    - intros Heq. apply String.eqb_eq in Heq. congruence.
    - apply String.eqb_neq. assumption. }
  destruct src as [|p]; [exact Hfilter|].
  case_decide as Hd; [exact Hfilter|].
  exfalso. apply Hd. split; [reflexivity|].
  destruct Hex as (r0 & Hin & _). simpl in Hin.
  destruct (Nat.lt_ge_cases p (length (objects s))) as [Hlt|Hge]; [assumption|].
  rewrite the_part_outside in Hin by assumption. destruct Hin.
Qed.

Lemma rIds_unique_later pre a post r :
  rIds_unique (pre ++ a :: post) -> In r post -> rId r <> rId a.
Proof.
  unfold rIds_unique. rewrite map_app. simpl. intros Hnd Hin Heq.
  apply NoDup_app in Hnd as (_ & _ & Hnd).
  apply NoDup_cons in Hnd as (Hnotin & _).
  apply Hnotin. rewrite <- Heq. apply list_elem_of_In. now apply in_map.
Qed.

(** The loop that deletes the relationships of [src] to one part: in a dict
    every deletion succeeds, and no relationship to the part is left. *)
Lemma drop_rels_to_ok s src part_to_remove :
  rIds_unique (source_rels s src) ->
  exists s', drop_rels_to src part_to_remove s = (s', Ok tt)
    /\ shrinks s s' /\ xml s' = xml s
    /\ (forall rel, In rel (source_rels s' src) ->
                    targets_part rel part_to_remove = false).
Proof.
  intros Hnd. unfold drop_rels_to, bind, gets.
  set (l := source_rels s src) in *.
  pose (I := fun (pre post : Relationships) (st : State) =>
               shrinks s st /\ xml st = xml s
               /\ (forall r, In r post -> In r (source_rels st src))
               /\ (forall r, In r pre -> targets_part r part_to_remove = true ->
                             ~ In r (source_rels st src))).
  destruct (for_each_inv I
              (fun rel => if targets_part rel part_to_remove
                          then del_rel src (rId rel) else ret tt) l) with (s := s)
    as (s' & Hrun & Hsh & Hxml & _ & Hgone).
  - intros pre a post st Hl (Hsh & Hxml & Hpost & Hpre).
    destruct (targets_part a part_to_remove) eqn:Ha.
    + destruct (del_rel_ok st src (rId a)) as (st' & Hdel & Hsh' & Hxml' & Hin').
      { exists a. split; [apply Hpost; now left | reflexivity]. }
      exists st'. split; [exact Hdel|]. refine (conj _ (conj _ (conj _ _))).
      * eapply shrinks_trans; eassumption.
      * congruence.
      * intros r Hr. apply Hin'. split; [apply Hpost; now right|].
        apply (rIds_unique_later pre a post r); [|exact Hr].
        rewrite <- Hl. exact Hnd.
      * intros r Hr Ht Hin. apply Hin' in Hin as [Hin Hne].
        apply in_app_or in Hr as [Hr|[<-|[]]].
        -- now apply (Hpre r).
        -- now apply Hne.
    + exists st. split; [reflexivity|].
      refine (conj Hsh (conj Hxml (conj _ _))).
      * intros r Hr. apply Hpost. now right.
      * intros r Hr Ht. apply in_app_or in Hr as [Hr|[<-|[]]].
        -- now apply Hpre.
        -- congruence.
  - refine (conj (shrinks_refl s) (conj eq_refl (conj _ _))).
    + tauto.
    + intros r [].
  - exists s'. split; [exact Hrun|]. refine (conj Hsh (conj Hxml _)).
    intros rel Hin. destruct (targets_part rel part_to_remove) eqn:Ht; [|reflexivity].
    exfalso. apply (Hgone rel); try assumption.
    apply (sublist_In _ _ _ (sh_rels _ _ Hsh src)). exact Hin.
Qed.

(** ** The orphan-part sweep *)

Lemma targets_part_true rel q : targets_part rel q = true <-> target rel = TargetPart q.
Proof.
  unfold targets_part. destruct (target rel) as [p|u].
  - rewrite Nat.eqb_eq. split; congruence.
  - split; discriminate.
Qed.

(** After the sweep of one part, that part is no longer in the package. *)
Lemma sweep_part_ok s part_to_remove :
  dicts s ->
  exists s', sweep_part part_to_remove s = (s', Ok tt)
    /\ shrinks s s' /\ xml s' = xml s
    /\ ~ In part_to_remove (parts s').
Proof.
  intros Hd. unfold sweep_part, bind.
  destruct (drop_rels_to_ok s OfPackage part_to_remove (Hd OfPackage))
    as (s1 & Hrun1 & Hsh1 & Hxml1 & Hroot).
  rewrite Hrun1. unfold gets.
  pose (I := fun (pre post : list nat) (st : State) =>
               shrinks s1 st /\ xml st = xml s1
               /\ (forall q rel, In q pre -> q <> part_to_remove ->
                     In rel (rels (the_part st q)) ->
                     targets_part rel part_to_remove = false)).
  destruct (for_each_inv I
              (fun part => if Nat.eqb part part_to_remove then ret tt
                           else drop_rels_to (OfPart part) part_to_remove)
              (parts s1)) with (s := s1)
    as (s2 & Hrun2 & Hsh2 & Hxml2 & Hclean).
  - intros pre a post st _ (Hsh & Hxml & Hpre).
    destruct (Nat.eqb a part_to_remove) eqn:Ha.
    + apply Nat.eqb_eq in Ha. exists st. split; [reflexivity|].
      refine (conj Hsh (conj Hxml _)).
      intros q rel Hq Hne. apply in_app_or in Hq as [Hq|[<-|[]]].
      * now apply Hpre.
      * congruence.
    + assert (Hdst : dicts st).
      { apply (shrinks_dicts s1); [exact Hsh|]. now apply (shrinks_dicts s). }
      destruct (drop_rels_to_ok st (OfPart a) part_to_remove (Hdst (OfPart a)))
        as (st' & Hrun & Hsh' & Hxml' & Hnone).
      exists st'. split; [exact Hrun|].
      refine (conj (shrinks_trans _ _ _ Hsh Hsh') (conj _ _)); [congruence|].
      intros q rel Hq Hne Hrel. apply in_app_or in Hq as [Hq|[<-|[]]].
      * apply (Hpre q rel Hq Hne).
        apply (sublist_In _ _ _ (sh_rels _ _ Hsh' (OfPart q))). exact Hrel.
      * now apply Hnone.
  - refine (conj (shrinks_refl s1) (conj eq_refl _)). intros q rel [].
  - exists s2. split; [exact Hrun2|].
    refine (conj (shrinks_trans _ _ _ Hsh1 Hsh2) (conj _ _)); [congruence|].
    rewrite parts_reach.
    assert (Hne : forall q, reach s2 q -> q <> part_to_remove).
    { induction 1 as [rel q Hrel Hq | p rel q Hp IH Hrel Hq]; intros ->.
      - apply targets_part_true in Hq. rewrite Hroot in Hq; [discriminate|].
        apply (sublist_In _ _ _ (sh_rels _ _ Hsh2 OfPackage)). exact Hrel.
      - apply targets_part_true in Hq.
        rewrite (Hclean p rel) in Hq; [discriminate| |assumption|assumption].
        apply parts_reach. now apply (shrinks_reach s1 s2). }
    intros Hreach. now apply (Hne part_to_remove).
Qed.

Lemma is_vba_part_same x x' :
  same_attributes x x' -> is_vba_part x' = is_vba_part x.
Proof. intros (Hct & Hname & _). unfold is_vba_part. now rewrite Hct, Hname. Qed.

(** [_remove_vba_parts] returns, has only deleted relationships, and leaves
    no part with a VBA content type or partname in the package. *)
Lemma remove_vba_parts_ok s self :
  dicts s ->
  exists s', _remove_vba_parts self s = (s', Ok tt)
    /\ shrinks s s' /\ xml s' = xml s
    /\ (forall q, In q (parts s') -> is_vba_part (the_part s' q) = false).
Proof.
  intros Hd. unfold _remove_vba_parts, bind, gets.
  set (l := List.filter (fun part => is_vba_part (the_part s part)) (parts s)).
  change (exists s', for_each l sweep_part s = (s', Ok tt)
            /\ shrinks s s' /\ xml s' = xml s
            /\ (forall q, In q (parts s') -> is_vba_part (the_part s' q) = false)).
  pose (I := fun (pre post : list nat) (st : State) =>
               shrinks s st /\ xml st = xml s
               /\ (forall q, In q pre -> ~ In q (parts st))).
  destruct (for_each_inv I sweep_part l) with (s := s)
    as (s' & Hrun & Hsh & Hxml & Hgone).
  - intros pre a post st _ (Hsh & Hxml & Hpre).
    destruct (sweep_part_ok st a) as (st' & Hrun & Hsh' & Hxml' & Hnot).
    { now apply (shrinks_dicts s). }
    exists st'. split; [exact Hrun|].
    refine (conj (shrinks_trans _ _ _ Hsh Hsh') (conj _ _)); [congruence|].
    intros q Hq. apply in_app_or in Hq as [Hq|[<-|[]]].
    + intros Hin. apply (Hpre q Hq). now apply (shrinks_parts st st').
    + exact Hnot.
  - refine (conj (shrinks_refl s) (conj eq_refl _)). intros q [].
  - exists s'. split; [exact Hrun|]. refine (conj Hsh (conj Hxml _)).
    intros q Hq. destruct (is_vba_part (the_part s' q)) eqn:Hvba; [|reflexivity].
    exfalso. apply (Hgone q); [|exact Hq].
    unfold l. apply filter_In. split.
    + now apply (shrinks_parts s s').
    + rewrite <- Hvba. symmetry. apply is_vba_part_same. apply (sh_attributes _ _ Hsh).
Qed.

(** ** The XML tree *)

(** An element below another one has a parent. *)
Lemma has_ancestor_parent els steps a x :
  has_ancestor els steps a x = true ->
  exists e p, els !! x = Some e /\ parent e = Some p.
Proof.
  destruct steps as [|steps]; simpl; [discriminate|].
  destruct (els !! x) as [e|]; [|discriminate].
  destruct (parent e) as [p|] eqn:Hp; [|discriminate].
  intros _. now exists e, p.
Qed.

(** Detaching elements never puts an element below another one. *)
Lemma has_ancestor_unlinked els els' :
  (forall x e', els' !! x = Some e' -> exists e, els !! x = Some e /\ unlinked e e') ->
  forall steps a x,
    has_ancestor els' steps a x = true -> has_ancestor els steps a x = true.
Proof.
  intros Hun. induction steps as [|steps IH]; intros a x; simpl; [discriminate|].
  destruct (els' !! x) as [e'|] eqn:He'; [|discriminate].
  destruct (Hun x e' He') as (e & He & _ & _ & Hparent). rewrite He.
  destruct (parent e') as [p|] eqn:Hp; [|discriminate].
  destruct Hparent as [Hparent|Hparent]; [|discriminate].
  rewrite <- Hparent. intros H. apply orb_true_iff in H as [H|H].
  - now rewrite H.
  - rewrite (IH a p H). apply orb_true_r.
Qed.

Lemma xpath_control_In els root rid x :
  In x (xpath_control els root rid) <->
    x < length els
    /\ has_ancestor els (length els) root x = true
    /\ is_control_for rid (default (mkElement "" [] None) (els !! x)) = true.
Proof.
  unfold xpath_control. rewrite filter_In, in_seq, andb_true_iff.
  split; intros H; repeat split; try tauto; lia.
Qed.

Lemma xpath_control_NoDup els root rid : NoDup (xpath_control els root rid).
Proof.
  unfold xpath_control.
  eapply sublist_NoDup; [apply NoDup_seq | apply sublist_List_filter].
Qed.

(** In a state that has shrunk, the query finds no element it did not find
    before. *)
Lemma xpath_control_shrinks s s' root rid x :
  shrinks s s' ->
  In x (xpath_control (xml s') root rid) -> In x (xpath_control (xml s) root rid).
Proof.
  intros Hsh. rewrite !xpath_control_In. intros (Hlt & Hanc & Hctl).
  rewrite (sh_xml_length _ _ Hsh) in Hlt, Hanc.
  destruct (xml s' !! x) as [e'|] eqn:He'.
  - destruct (sh_xml _ _ Hsh x e' He') as (e & He & Htag & Hattr & _).
    repeat split; [assumption| |].
    + apply (has_ancestor_unlinked (xml s) (xml s')); [|exact Hanc].
      apply (sh_xml _ _ Hsh).
    + rewrite He. simpl in *. unfold is_control_for in *. now rewrite <- Htag, <- Hattr.
  - apply lookup_ge_None in He'. rewrite (sh_xml_length _ _ Hsh) in He'. lia.
Qed.

Lemma shrinks_set_xml s x e :
  xml s !! x = Some e ->
  shrinks s (set_xml (<[x := mkElement (tag e) (attrib e) None]> (xml s)) s).
Proof.
  intros He. constructor; simpl.
  - reflexivity.
  - intros [|p]; reflexivity.
  - intros p. now repeat split.
  - apply length_insert.
  - intros y e' Hy. destruct (decide (x = y)) as [<-|Hne].
    + rewrite list_lookup_insert_eq in Hy by (now apply (lookup_lt_Some _ _ e)).
      injection Hy as <-. exists e. split; [assumption|]. repeat split. now right.
    + rewrite list_lookup_insert_ne in Hy by assumption.
      exists e'. split; [assumption|]. repeat split. now left.
Qed.

(** Removing an element that has a parent detaches it and touches nothing
    else. *)
Lemma remove_control_elem_ok s control_elem e p :
  xml s !! control_elem = Some e -> parent e = Some p ->
  remove_control_elem control_elem s
  = (set_xml (<[control_elem := mkElement (tag e) (attrib e) None]> (xml s)) s, Ok tt).
Proof.
  intros He Hp. unfold remove_control_elem, bind, getparent, gets, remove_child.
  rewrite He, Hp, He, Hp. now rewrite Nat.eqb_refl.
Qed.

(** The inner loop of the cascade: every element the query returned has a
    parent when its turn comes, so the loop returns; afterwards all of them
    are detached. *)
Lemma remove_control_elems_ok s control_elements :
  NoDup control_elements ->
  (forall ce, In ce control_elements ->
     exists e p, xml s !! ce = Some e /\ parent e = Some p) ->
  exists s', for_each control_elements remove_control_elem s = (s', Ok tt)
    /\ shrinks s s'
    /\ objects s' = objects s /\ package_rels s' = package_rels s
    /\ (forall ce e, In ce control_elements -> xml s' !! ce = Some e ->
                     parent e = None).
Proof.
  intros Hnd Hparents.
  pose (I := fun (pre post : list nat) (st : State) =>
               shrinks s st
               /\ objects st = objects s /\ package_rels st = package_rels s
               /\ (forall ce, In ce post ->
                     exists e p, xml st !! ce = Some e /\ parent e = Some p)
               /\ (forall ce e, In ce pre -> xml st !! ce = Some e ->
                     parent e = None)).
  destruct (for_each_inv I remove_control_elem control_elements) with (s := s)
    as (s' & Hrun & Hsh & Hobj & Hpkg & _ & Hdetached).
  - intros pre a post st Hl (Hsh & Hobj & Hpkg & Hpost & Hpre).
    destruct (Hpost a (or_introl eq_refl)) as (e & p & He & Hp).
    eexists. split; [apply (remove_control_elem_ok st a e p He Hp)|].
    assert (Hfresh : ~ In a post /\ ~ In a pre).
    { rewrite Hl in Hnd. apply NoDup_app in Hnd as (_ & Hdisj & Hnd).
      apply NoDup_cons in Hnd as (Hnotin & _).
      rewrite list_elem_of_In in Hnotin. split; [assumption|].
      intros Hin. apply (Hdisj a); [now apply list_elem_of_In|].
      apply list_elem_of_In. now left. }
    destruct Hfresh as (Hpost_ne & Hpre_ne).
    refine (conj _ (conj Hobj (conj Hpkg (conj _ _)))).
    + eapply shrinks_trans; [exact Hsh | now apply shrinks_set_xml].
    + intros ce Hce. simpl. rewrite list_lookup_insert_ne by congruence.
      apply Hpost. now right.
    + intros ce e0 Hce. simpl. apply in_app_or in Hce as [Hce|[<-|[]]].
      * rewrite list_lookup_insert_ne by congruence. now apply Hpre.
      * rewrite list_lookup_insert_eq by (now apply (lookup_lt_Some _ _ e)).
        now intros [= <-].
  - refine (conj (shrinks_refl s) (conj eq_refl (conj eq_refl (conj Hparents _)))).
    intros ce e [].
  - exists s'. split; [exact Hrun|].
    refine (conj Hsh (conj Hobj (conj Hpkg _))).
    intros ce e Hce. now apply Hdetached.
Qed.

(** ** The relationship cascade *)

Lemma nil_or_In {A} (l : list A) : l = [] \/ exists x, In x l.
Proof. destruct l as [|x l]; [now left | right; exists x; now left]. Qed.

Lemma xpath_control_nil_shrinks s s' self rid :
  shrinks s s' ->
  xpath_control (xml s) (element (the_part s self)) rid = [] ->
  xpath_control (xml s') (element (the_part s' self)) rid = [].
Proof.
  intros Hsh Hnil.
  destruct (nil_or_In (xpath_control (xml s') (element (the_part s' self)) rid))
    as [H|(x & Hx)]; [exact H|].
  destruct (sh_attributes _ _ Hsh self) as (_ & _ & Hroot & _).
  rewrite Hroot in Hx. apply (xpath_control_shrinks s s') in Hx; [|exact Hsh].
  rewrite Hnil in Hx. destruct Hx.
Qed.

Lemma cascade_one_ok s self rid :
  (exists r, In r (rels (the_part s self)) /\ rId r = rid) ->
  exists s', cascade_one self rid s = (s', Ok tt)
    /\ shrinks s s'
    /\ (forall r, In r (rels (the_part s' self)) <->
                  In r (rels (the_part s self)) /\ rId r <> rid)
    /\ xpath_control (xml s') (element (the_part s' self)) rid = [].
Proof.
  intros Hex. unfold cascade_one, bind, gets.
  set (root := element (the_part s self)).
  set (ces := xpath_control (xml s) root rid).
  destruct (remove_control_elems_ok s ces) as (s1 & Hrun1 & Hsh1 & Hobj & Hpkg & Hdet).
  { apply xpath_control_NoDup. }
  { intros ce Hce. apply xpath_control_In in Hce as (_ & Hanc & _).
    now apply has_ancestor_parent in Hanc. }
  rewrite Hrun1.
  assert (Hpart : the_part s1 self = the_part s self).
  { unfold the_part. now rewrite Hobj. }
  destruct (del_rel_ok s1 (OfPart self) rid) as (s2 & Hrun2 & Hsh2 & Hxml2 & Hin2).
  { simpl. now rewrite Hpart. }
  exists s2. split; [exact Hrun2|].
  assert (Hsh : shrinks s s2) by (eapply shrinks_trans; eassumption).
  refine (conj Hsh (conj _ _)).
  - intros r. simpl in Hin2. rewrite Hin2. now rewrite Hpart.
  - destruct (nil_or_In (xpath_control (xml s2) (element (the_part s2 self)) rid))
      as [H|(x & Hx)]; [exact H|]. exfalso.
    destruct (sh_attributes _ _ Hsh self) as (_ & _ & Hroot & _).
    rewrite Hroot, Hxml2 in Hx. fold root in Hx.
    pose proof (xpath_control_shrinks s s1 root rid x Hsh1 Hx) as Hbefore.
    apply xpath_control_In in Hx as (_ & Hanc & _).
    apply has_ancestor_parent in Hanc as (e & p & He & Hp).
    rewrite (Hdet x e Hbefore He) in Hp. discriminate.
Qed.

(** [_remove_macro_relationships] returns; the document part is left
    without relationships of a macro type, and the markup without control
    elements that refer to one of the removed relationships. *)
Lemma remove_macro_relationships_ok s self :
  rIds_unique (rels (the_part s self)) ->
  exists s', _remove_macro_relationships self s = (s', Ok tt)
    /\ shrinks s s'
    /\ (forall rel, In rel (rels (the_part s' self)) ->
                    str_in (reltype rel) macro_reltypes = false)
    /\ (forall rel, In rel (rels (the_part s self)) ->
                    str_in (reltype rel) macro_reltypes = true ->
                    xpath_control (xml s') (element (the_part s' self)) (rId rel) = []).
Proof.
  intros Hnd. unfold _remove_macro_relationships, bind, gets.
  set (macro := List.filter (fun rel => str_in (reltype rel) macro_reltypes)
                  (rels (the_part s self))).
  set (l := map rId macro).
  change (exists s', for_each l (cascade_one self) s = (s', Ok tt)
            /\ shrinks s s'
            /\ (forall rel, In rel (rels (the_part s' self)) ->
                            str_in (reltype rel) macro_reltypes = false)
            /\ (forall rel, In rel (rels (the_part s self)) ->
                            str_in (reltype rel) macro_reltypes = true ->
                            xpath_control (xml s') (element (the_part s' self)) (rId rel) = [])).
  assert (Hl : NoDup l).
  { apply (rIds_unique_sublist (rels (the_part s self))); [|exact Hnd].
    apply sublist_List_filter. }
  assert (Hmem : forall rel, In rel (rels (the_part s self)) ->
                   str_in (reltype rel) macro_reltypes = true -> In (rId rel) l).
  { intros rel Hin Hm. unfold l. apply in_map. apply filter_In. now split. }
  pose (I := fun (pre post : list string) (st : State) =>
               shrinks s st
               /\ (forall rid, In rid post ->
                     exists r, In r (rels (the_part st self)) /\ rId r = rid)
               /\ (forall rid, In rid pre ->
                     (forall r, In r (rels (the_part st self)) -> rId r <> rid)
                     /\ xpath_control (xml st) (element (the_part st self)) rid = [])).
  destruct (for_each_inv I (cascade_one self) l) with (s := s)
    as (s' & Hrun & Hsh & _ & Hdone).
  - intros pre a post st Hsplit (Hsh & Hpost & Hpre).
    destruct (cascade_one_ok st self a (Hpost a (or_introl eq_refl)))
      as (st' & Hrun & Hsh' & Hin' & Hnil').
    exists st'. split; [exact Hrun|].
    refine (conj (shrinks_trans _ _ _ Hsh Hsh') (conj _ _)).
    + intros rid Hrid. destruct (Hpost rid (or_intror Hrid)) as (r & Hr & Heq).
      exists r. split; [|exact Heq]. apply Hin'. split; [exact Hr|].
      rewrite Heq. intros ->. rewrite Hsplit in Hl.
      apply NoDup_app in Hl as (_ & _ & Hl). apply NoDup_cons in Hl as (Hnotin & _).
      apply Hnotin. now apply list_elem_of_In.
    + intros rid Hrid. apply in_app_or in Hrid as [Hrid|[<-|[]]].
      * destruct (Hpre rid Hrid) as (Hne & Hnil). split.
        -- intros r Hr. apply Hne. now apply Hin'.
        -- now apply (xpath_control_nil_shrinks st st').
      * split; [|exact Hnil']. intros r Hr. now apply Hin'.
  - refine (conj (shrinks_refl s) (conj _ _)).
    + intros rid Hrid. unfold l in Hrid. apply in_map_iff in Hrid as (r & Heq & Hr).
      apply filter_In in Hr as (Hr & _). now exists r.
    + intros rid [].
  - exists s'. split; [exact Hrun|]. refine (conj Hsh (conj _ _)).
    + intros rel Hrel.
      destruct (str_in (reltype rel) macro_reltypes) eqn:Hm; [|reflexivity].
      exfalso.
      assert (Hold : In rel (rels (the_part s self))).
      { apply (sublist_In _ _ _ (sh_rels _ _ Hsh (OfPart self))). exact Hrel. }
      destruct (Hdone (rId rel) (Hmem rel Hold Hm)) as (Hne & _).
      now apply (Hne rel).
    + intros rel Hrel Hm. now destruct (Hdone (rId rel) (Hmem rel Hrel Hm)).
Qed.

(** ** [save] *)

Lemma retyped_rels self s src : source_rels (retyped self s) src = source_rels s src.
Proof.
  unfold retyped, set_content_type, modify. cbn [fst].
  destruct src as [|p]; [reflexivity|]. cbn [source_rels].
  destruct (decide (self = p)) as [<-|Hne].
  - destruct (Nat.lt_ge_cases self (length (objects s))) as [Hlt|Hge].
    + now rewrite the_part_set_eq.
    + now rewrite the_part_set_outside.
  - now rewrite the_part_set_ne.
Qed.

Lemma retyped_other self s q : q <> self -> the_part (retyped self s) q = the_part s q.
Proof.
  intros Hne. unfold retyped, set_content_type, modify. cbn [fst].
  now rewrite the_part_set_ne by congruence.
Qed.

Lemma retyped_self self s :
  self < length (objects s) ->
  the_part (retyped self s) self
  = mkPart CT.WML_DOCUMENT_MAIN (partname (the_part s self)) (rels (the_part s self))
      (element (the_part s self)) (lazy_numbering_part (the_part s self)).
Proof.
  intros Hlt. unfold retyped, set_content_type, modify. cbn [fst].
  now rewrite the_part_set_eq.
Qed.

Lemma retyped_dicts self s : dicts s -> dicts (retyped self s).
Proof. intros Hd src. rewrite retyped_rels. apply Hd. Qed.

Lemma retyped_reach self s q : reach (retyped self s) q <-> reach s q.
Proof.
  split; induction 1 as [rel q Hrel Hq | p rel q Hp IH Hrel Hq].
  - apply (reach_root _ rel q); [|assumption].
    change (In rel (source_rels s OfPackage)).
    now rewrite <- (retyped_rels self s OfPackage).
  - apply (reach_step _ p rel q); [assumption| |assumption].
    change (In rel (source_rels s (OfPart p))).
    now rewrite <- (retyped_rels self s (OfPart p)).
  - apply (reach_root _ rel q); [|assumption].
    change (In rel (source_rels (retyped self s) OfPackage)).
    now rewrite retyped_rels.
  - apply (reach_step _ p rel q); [assumption| |assumption].
    change (In rel (source_rels (retyped self s) (OfPart p))).
    now rewrite retyped_rels.
Qed.

Lemma save_noop self path_or_stream preserve_macros s :
  will_strip_macros self path_or_stream preserve_macros s = false ->
  save self path_or_stream preserve_macros s = (s, Ok path_or_stream).
Proof. intros H. unfold save, bind, gets. now rewrite H. Qed.

Lemma save_strips self path_or_stream preserve_macros s :
  well_formed s self ->
  will_strip_macros self path_or_stream preserve_macros s = true ->
  exists s', save self path_or_stream preserve_macros s
             = (s', Ok (corrected_path path_or_stream))
    /\ stripped self s s'.
Proof.
  intros Hwf Hstrip. pose proof (well_formed_dicts s self Hwf) as Hd.
  unfold save, bind, gets. rewrite Hstrip.
  unfold set_content_type, modify. fold (set_content_type self CT.WML_DOCUMENT_MAIN).
  change (set_part self _ s) with (retyped self s).
  pose proof (retyped_dicts self s Hd) as Hd0.
  destruct (remove_macro_relationships_ok (retyped self s) self (Hd0 (OfPart self)))
    as (s1 & Hrun1 & Hsh1 & Hrels1 & Hxml1).
  rewrite Hrun1.
  destruct (remove_vba_parts_ok s1 self (shrinks_dicts _ _ Hsh1 Hd0))
    as (s2 & Hrun2 & Hsh2 & Hxml2 & Hvba2).
  rewrite Hrun2. exists s2. split; [reflexivity|].
  constructor.
  - eapply shrinks_trans; eassumption.
  - intros rel Hrel. apply Hrels1.
    apply (sublist_In _ _ _ (sh_rels _ _ Hsh2 (OfPart self))). exact Hrel.
  - exact Hvba2.
  - intros rel Hrel Hm. apply (xpath_control_nil_shrinks s1 s2); [exact Hsh2|].
    apply Hxml1; [|exact Hm].
    change (In rel (source_rels (retyped self s) (OfPart self))).
    now rewrite retyped_rels.
Qed.

(** ** Strings *)

Lemma lower_length s : String.length (Str.lower s) = String.length s.
Proof. induction s as [|c s IH]; simpl; congruence. Qed.

Lemma lower_drop n s : Str.lower (Str.drop n s) = Str.drop n (Str.lower s).
Proof.
  revert n. induction s as [|c s IH]; intros [|n]; simpl; try reflexivity.
  apply IH.
Qed.

Lemma take_drop n s : Str.take n s +:+ Str.drop n s = s.
Proof.
  revert n. induction s as [|c s IH]; intros [|n]; simpl; try reflexivity.
  change (String c (Str.take n s +:+ Str.drop n s) = String c s).
  f_equal. apply IH.
Qed.

Lemma append_inv_length a b c d :
  String.length a = String.length c -> a +:+ b = c +:+ d -> b = d.
Proof.
  revert c. induction a as [|x a IH]; intros [|y c]; simpl; try discriminate.
  - auto.
  - intros Hlen Heq.
    change (String x (a +:+ b) = String y (c +:+ d)) in Heq.
    injection Heq as _ Heq. injection Hlen as Hlen. eauto.
Qed.

(** A path that ends in the macro-enabled extension, in any case, is its
    stem followed by that extension. *)
Lemma endswith_docm_split p :
  Str.endswith (Str.lower p) ".docm" = true ->
  exists ext, p = Str.drop_last 5 p +:+ ext /\ Str.lower ext = ".docm".
Proof.
  unfold Str.endswith, Str.drop_last. rewrite lower_length. simpl String.length.
  intros H. apply andb_true_iff in H as (_ & H). apply String.eqb_eq in H.
  exists (Str.drop (String.length p - 5) p). split.
  - symmetry. apply take_drop.
  - now rewrite lower_drop.
Qed.

Lemma corrected_path_differs p :
  Str.endswith (Str.lower p) ".docm" = true ->
  Str.drop_last 5 p +:+ ".docx" <> p.
Proof.
  intros H Heq. destruct (endswith_docm_split p H) as (ext & Hp & Hext).
  rewrite Hp in Heq at 2. apply append_inv_length in Heq; [|reflexivity].
  subst ext. discriminate Hext.
Qed.

Lemma splitext_join p : fst (Str.splitext p) +:+ snd (Str.splitext p) = p.
Proof.
  unfold Str.splitext.
  destruct (_ && _); simpl; [apply take_drop|].
  induction p as [|c p IH]; [reflexivity|].
  change (String c (p +:+ "") = String c p). now f_equal.
Qed.

Lemma find_by_rId_miss rid rs :
  (forall rel p, In rel rs -> rId rel = rid -> target rel <> TargetPart p) ->
  List.find (fun r => has_rId rid r && negb (is_external r)) rs = None.
Proof.
  intros H. destruct (List.find _ rs) as [r|] eqn:Hfind; [|reflexivity].
  apply find_some in Hfind as (Hin & Hr). apply andb_true_iff in Hr as (Hid & Hint).
  apply String.eqb_eq in Hid. unfold is_external in Hint.
  destruct (target r) as [p|u] eqn:Ht; [|discriminate].
  now destruct (H r p Hin Hid).
Qed.

Lemma find_by_rId_hit rs rel p :
  rIds_unique rs -> In rel rs -> target rel = TargetPart p ->
  List.find (fun r => has_rId (rId rel) r && negb (is_external r)) rs = Some rel.
Proof.
  intros Hnd Hin Ht.
  destruct (List.find _ rs) as [r|] eqn:Hfind.
  - apply find_some in Hfind as (Hr & Hp). apply andb_true_iff in Hp as (Hid & _).
    apply String.eqb_eq in Hid. f_equal. now apply (rIds_unique_inj rs).
  - apply find_none with (x := rel) in Hfind; [|exact Hin].
    unfold has_rId, is_external in Hfind. rewrite String.eqb_refl, Ht in Hfind.
    discriminate.
Qed.

(** ** The lazy related-part accessors *)

Lemma rId_candidate_inj n m : rId_candidate n = rId_candidate m -> n = m.
Proof.
  unfold rId_candidate. intros H.
  apply append_inv_length in H; [|reflexivity].
  now apply (inj pretty) in H.
Qed.

Lemma NoDup_candidates n m : NoDup (map rId_candidate (seq n m)).
Proof.
  revert n. induction m as [|m IH]; intros n; simpl; constructor.
  - rewrite list_elem_of_In, in_map_iff. intros (k & Hk & Hin).
    apply rId_candidate_inj in Hk. apply in_seq in Hin. lia.
  - apply IH.
Qed.

(** The rId chosen for a new relationship is not in use. *)
Lemma next_rId_fresh rs : existsb (has_rId (next_rId rs)) rs = false.
Proof.
  unfold next_rId.
  set (candidates := map rId_candidate (seq 1 (S (length rs)))).
  destruct (List.find _ candidates) as [c|] eqn:Hfind; simpl.
  - apply find_some in Hfind as (_ & Hc). now apply negb_true_iff in Hc.
  - exfalso.
    assert (Hsub : candidates ⊆+ map rId rs).
    { apply NoDup_submseteq; [apply NoDup_candidates|].
      intros c Hc. apply list_elem_of_In in Hc.
      apply (find_none _ _ Hfind) in Hc. apply negb_false_iff in Hc.
      apply existsb_has_rId in Hc as (r & Hr & Heq).
      apply list_elem_of_In. rewrite <- Heq. now apply in_map. }
    apply submseteq_length in Hsub. unfold candidates in Hsub.
    rewrite !length_map, length_seq in Hsub. lia.
Qed.

Lemma find_app_miss {A} (f : A -> bool) (l : list A) (x : A) :
  List.find f l = None -> f x = true -> List.find f (l ++ [x]) = Some x.
Proof.
  induction l as [|a l IH]; simpl; intros Hnone Hx.
  - now rewrite Hx.
  - destruct (f a); [discriminate|]. now apply IH.
Qed.

Lemma part_related_by_found s self rt rel p :
  rel_of_type rt (rels (the_part s self)) = Some rel -> target rel = TargetPart p ->
  part_related_by self rt s = (s, Ok p).
Proof.
  intros Hfind Ht. unfold part_related_by, bind, gets.
  unfold rel_of_type in Hfind. now rewrite Hfind, Ht.
Qed.

Lemma related_or_default_found s self rt ct name root_tag rel p :
  rel_of_type rt (rels (the_part s self)) = Some rel -> target rel = TargetPart p ->
  related_or_default self rt ct name root_tag s = (s, Ok p).
Proof.
  intros Hfind Ht. unfold related_or_default, try_except_KeyError.
  now rewrite (part_related_by_found s self rt rel p Hfind Ht).
Qed.

Lemma the_part_new_old pr xm s x q :
  q < length (objects s) -> the_part (mkState pr (objects s ++ [x]) xm) q = the_part s q.
Proof. intros Hlt. unfold the_part. simpl. now rewrite lookup_app_l. Qed.

Lemma the_part_new_last pr xm s x :
  the_part (mkState pr (objects s ++ [x]) xm) (length (objects s)) = x.
Proof.
  unfold the_part. simpl. rewrite lookup_app_r by lia.
  now rewrite Nat.sub_diag.
Qed.

(** On a miss the accessor makes the default part and relates it, once; the
    relationship it adds is then the one of that type. *)
Lemma related_or_default_miss s self rt ct name root_tag :
  self < length (objects s) ->
  rel_of_type rt (rels (the_part s self)) = None ->
  exists s1,
    related_or_default self rt ct name root_tag s = (s1, Ok (length (objects s)))
    /\ defaulted self rt s s1 (length (objects s))
    /\ content_type (the_part s1 (length (objects s))) = ct
    /\ lazy_numbering_part (the_part s1 self) = lazy_numbering_part (the_part s self)
    /\ rel_of_type rt (rels (the_part s1 self))
       = Some (mkRel (next_rId (rels (the_part s self))) rt
                 (TargetPart (length (objects s)))).
Proof.
  intros Hself Hmiss.
  set (p := length (objects s)).
  set (s0 := mkState (package_rels s)
               (objects s ++ [mkPart ct name [] (length (xml s)) None])
               (xml s ++ [mkElement root_tag [] None])).
  set (rs := rels (the_part s self)).
  set (new_rel := mkRel (next_rId rs) rt (TargetPart p)).
  assert (Hold : forall q, q < length (objects s) -> the_part s0 q = the_part s q).
  { intros q Hq. now apply the_part_new_old. }
  assert (Hself0 : self < length (objects s0)).
  { unfold s0. simpl. rewrite length_app. simpl. lia. }
  exists (set_source_rels (OfPart self) (rs ++ [new_rel]) s0).
  assert (Hrels1 : rels (the_part (set_source_rels (OfPart self) (rs ++ [new_rel]) s0) self)
                   = rs ++ [new_rel]).
  { unfold set_source_rels. now rewrite the_part_set_eq. }
  split; [|split; [|split; [|split]]].
  - unfold related_or_default, try_except_KeyError.
    assert (Hraise : part_related_by self rt s = (s, Raise KeyError)).
    { unfold part_related_by, bind, gets. unfold rel_of_type in Hmiss.
      now rewrite Hmiss. }
    rewrite Hraise. unfold bind, new_part. fold p. fold s0.
    unfold relate_to, bind, gets, modify, ret.
    rewrite (Hold self Hself). fold rs.
    unfold dict_set. now rewrite next_rId_fresh.
  - unfold defaulted. split; [reflexivity|]. split; [|split; [|split; [|split]]].
    + unfold set_source_rels. rewrite objects_set_part_length. unfold s0. simpl.
      rewrite length_app. simpl. fold p. lia.
    + reflexivity.
    + exact Hrels1.
    + intros q Hne Hq. unfold set_source_rels. rewrite the_part_set_ne by congruence.
      now rewrite (Hold q Hq).
    + unfold set_source_rels. rewrite the_part_set_ne by (unfold p; lia).
      unfold s0, p. now rewrite the_part_new_last.
  - unfold set_source_rels. rewrite the_part_set_ne by (unfold p; lia).
    unfold s0, p. now rewrite the_part_new_last.
  - unfold set_source_rels. rewrite the_part_set_eq by assumption.
    simpl. now rewrite (Hold self Hself).
  - rewrite Hrels1. unfold rel_of_type. apply find_app_miss.
    + exact Hmiss.
    + simpl. apply String.eqb_refl.
Qed.

Lemma cached_same_graph self v s : same_graph s (cached self v s).
Proof.
  unfold same_graph, cached. split; [reflexivity|]. split; [reflexivity|].
  split; [apply objects_set_part_length|].
  intros q. destruct (decide (self = q)) as [<-|Hne].
  - destruct (Nat.lt_ge_cases self (length (objects s))) as [Hlt|Hge].
    + now rewrite the_part_set_eq.
    + now rewrite the_part_set_outside.
  - now rewrite the_part_set_ne.
Qed.

Lemma cached_lookup self v s :
  self < length (objects s) ->
  lazy_numbering_part (the_part (cached self v s) self) = Some v.
Proof. intros Hlt. unfold cached. now rewrite the_part_set_eq. Qed.

Lemma lazyproperty_cached self body s v :
  lazy_numbering_part (the_part s self) = Some v ->
  lazyproperty_numbering self body s = (s, Ok v).
Proof. intros H. unfold lazyproperty_numbering, bind, gets. now rewrite H. Qed.

Lemma lazyproperty_first self body s s1 v :
  lazy_numbering_part (the_part s self) = None ->
  body s = (s1, Ok v) ->
  lazyproperty_numbering self body s = (cached self v s1, Ok v).
Proof.
  intros H Hbody. unfold lazyproperty_numbering, bind, gets, modify, ret.
  now rewrite H, Hbody.
Qed.

Lemma defaulted_same_graph self rt s s1 s2 p :
  self < length (objects s) ->
  defaulted self rt s s1 p -> same_graph s1 s2 -> defaulted self rt s s2 p.
Proof.
  intros Hself (Hp & Hlen & Hpkg & Hrels & Hother & Hnew) (Hpkg2 & _ & Hlen2 & Hq).
  unfold defaulted. split; [exact Hp|]. split; [congruence|]. split; [congruence|].
  split; [|split].
  - destruct (Hq self) as (_ & _ & -> & _). exact Hrels.
  - intros q Hne Hlt. destruct (Hq q) as (-> & -> & -> & _). now apply Hother.
  - destruct (Hq p) as (_ & _ & -> & _). exact Hnew.
Qed.

(** A part made by default is in the package as soon as the part it was
    related to is. *)
Lemma defaulted_parts self rt s s1 p :
  defaulted self rt s s1 p -> In self (parts s) -> In p (parts s1).
Proof.
  intros (Hp & Hlen & Hpkg & Hrels & Hother & Hnew). rewrite !parts_reach.
  intros Hself.
  assert (Hmono : forall q, reach s q -> reach s1 q).
  { induction 1 as [rel q Hrel Hq | p0 rel q Hp0 IH Hrel Hq].
    - apply (reach_root s1 rel q); [|exact Hq]. now rewrite Hpkg.
    - apply (reach_step s1 p0 rel q); [exact IH| |exact Hq].
      destruct (Nat.lt_ge_cases p0 (length (objects s))) as [Hlt|Hge].
      + destruct (decide (p0 = self)) as [->|Hne].
        * rewrite Hrels. apply in_or_app. now left.
        * destruct (Hother p0 Hne Hlt) as (-> & _). exact Hrel.
      + rewrite the_part_outside in Hrel by assumption. destruct Hrel. }
  apply (reach_step s1 self
           (mkRel (next_rId (rels (the_part s self))) rt (TargetPart p)) p).
  - now apply Hmono.
  - rewrite Hrels. apply in_or_app. right. now left.
  - reflexivity.
Qed.

Lemma same_graph_refl s : same_graph s s.
Proof. unfold same_graph. now repeat split. Qed.

Lemma related_or_default_contract rt ct name root_tag s self :
  self < length (objects s) ->
  accessor_contract (fun self => related_or_default self rt ct name root_tag) rt s self.
Proof.
  intros Hself. unfold accessor_contract.
  destruct (rel_of_type rt (rels (the_part s self))) as [rel|] eqn:Hfind.
  - intros p Ht. exists s.
    pose proof (related_or_default_found s self rt ct name root_tag rel p Hfind Ht).
    split; [assumption|]. split; [apply same_graph_refl | assumption].
  - destruct (related_or_default_miss s self rt ct name root_tag Hself Hfind)
      as (s1 & Hrun & Hdef & _ & _ & Hfind1).
    exists s1, (length (objects s)). split; [exact Hrun|]. split; [exact Hdef|].
    split; [now apply (defaulted_parts self rt s s1)|].
    now apply (related_or_default_found s1 self rt ct name root_tag _ _ Hfind1).
Qed.

Lemma numbering_part_contract s self :
  self < length (objects s) -> cache_coherent s self ->
  accessor_contract numbering_part RT.NUMBERING s self.
Proof.
  intros Hself Hcache. unfold accessor_contract, numbering_part.
  fold (related_or_default self RT.NUMBERING CT.WML_NUMBERING
          "/word/numbering.xml" "w:numbering").
  set (body := related_or_default self RT.NUMBERING CT.WML_NUMBERING
                 "/word/numbering.xml" "w:numbering").
  unfold cache_coherent in Hcache.
  destruct (rel_of_type RT.NUMBERING (rels (the_part s self))) as [rel|] eqn:Hfind.
  - intros p Ht.
    destruct (lazy_numbering_part (the_part s self)) as [v|] eqn:Hlazy.
    + destruct Hcache as (rel' & [= <-] & Hv).
      assert (v = p) as -> by congruence.
      pose proof (lazyproperty_cached self body s p Hlazy).
      exists s. split; [assumption|]. split; [apply same_graph_refl | assumption].
    + exists (cached self p s). split; [|split].
      * apply lazyproperty_first; [exact Hlazy|].
        now apply (related_or_default_found s self _ _ _ _ rel p).
      * apply cached_same_graph.
      * apply lazyproperty_cached. now apply cached_lookup.
  - destruct (lazy_numbering_part (the_part s self)) as [v|] eqn:Hlazy.
    { destruct Hcache as (rel' & Hrel' & _). discriminate. }
    destruct (related_or_default_miss s self RT.NUMBERING CT.WML_NUMBERING
                "/word/numbering.xml" "w:numbering" Hself Hfind)
      as (s1 & Hrun & Hdef & _ & _ & _).
    assert (Hself1 : self < length (objects s1)).
    { destruct Hdef as (_ & Hlen & _). lia. }
    assert (Hdef' : defaulted self RT.NUMBERING s (cached self (length (objects s)) s1)
                      (length (objects s))).
    { apply (defaulted_same_graph self RT.NUMBERING s s1); try assumption.
      apply cached_same_graph. }
    exists (cached self (length (objects s)) s1), (length (objects s)).
    split; [|split; [exact Hdef'|split]].
    + now apply lazyproperty_first.
    + now apply (defaulted_parts self RT.NUMBERING s).
    + apply lazyproperty_cached. now apply cached_lookup.
Qed.

(** ** Adequacy of the bound on parent chains *)

Lemma has_ancestor_sound els steps a x :
  has_ancestor els steps a x = true -> below els a x.
Proof.
  revert x. induction steps as [|steps IH]; intros x; simpl; [discriminate|].
  destruct (els !! x) as [e|] eqn:He; [|discriminate].
  destruct (parent e) as [p|] eqn:Hp; [|discriminate].
  intros H. apply orb_true_iff in H as [H|H].
  - apply Nat.eqb_eq in H. subst p. now apply (below_child els a x e).
  - apply (below_deeper els a x e p); auto.
Qed.

Lemma has_ancestor_enough els a x :
  document_order els -> below els a x ->
  forall steps, x < steps -> has_ancestor els steps a x = true.
Proof.
  intros Hord. induction 1 as [x e He Hp | x e p He Hp Hbelow IH];
    intros [|steps] Hlt; try lia; simpl; rewrite He, Hp.
  - now rewrite Nat.eqb_refl.
  - rewrite IH; [apply orb_true_r|]. pose proof (Hord x e p He Hp). lia.
Qed.

(** In a tree listed in document order the bounded search decides
    [below]. *)
Lemma has_ancestor_below els a x :
  document_order els ->
  has_ancestor els (length els) a x = true <-> below els a x.
Proof.
  intros Hord. split; [apply has_ancestor_sound|].
  intros H. apply (has_ancestor_enough els a x Hord H).
  destruct H as [x e He _ | x e p He _ _]; now apply (lookup_lt_Some els x e).
Qed.

Lemma shrinks_document_order s s' :
  shrinks s s' -> document_order (xml s) -> document_order (xml s').
Proof.
  intros Hsh Hord x e' p He' Hp.
  destruct (sh_xml _ _ Hsh x e' He') as (e & He & _ & _ & [Hsame|Hnone]).
  - apply (Hord x e p He). congruence.
  - congruence.
Qed.

(** ** Sample packages *)

Lemma scenario_A_well_formed : well_formed scenario_A 0.
Proof.
  unfold well_formed, rIds_unique, quote_free. compute_done.
Qed.

Lemma header_control_well_formed : well_formed header_control 0.
Proof.
  unfold well_formed, rIds_unique, quote_free. compute_done.
Qed.

Lemma detached_control_well_formed : well_formed detached_control 0.
Proof.
  unfold well_formed, rIds_unique, quote_free. compute_done.
Qed.

Example quote_free_rId7 : quote_free "rId7".
Proof. reflexivity. Qed.

Example quote_free_rejects_quote : ~ quote_free (String "034" "rId7").
Proof. unfold quote_free. simpl. discriminate. Qed.

Example parts_scenario_A : parts scenario_A = [0; 1; 2; 3].
Proof. reflexivity. Qed.

Example parts_after_strip :
  parts (fst (save 0 (Path "report.docx") None scenario_A)) = [0; 1].
Proof. reflexivity. Qed.

(** * Specified behaviour *)

(** C1 (integrity).  After a macro-strip conversion -- [save] on a document
    part of the macro-enabled content type with the preserve decision
    resolved to false -- [save] returns, and every non-external relationship
    left in the package, whether of the package itself or of any of its
    parts, has a target that is in the package's part list. *)
Theorem save_strip_integrity s self path_or_stream preserve_macros :
  well_formed s self ->
  will_strip_macros self path_or_stream preserve_macros s = true ->
  exists s' dest,
    save self path_or_stream preserve_macros s = (s', Ok dest)
    /\ (forall rel q, In rel (package_rels s') -> target rel = TargetPart q ->
                      In q (parts s'))
    /\ (forall p rel q, In p (parts s') -> In rel (rels (the_part s' p)) ->
                        target rel = TargetPart q -> In q (parts s')).
Proof.
  intros Hwf Hstrip.
  destruct (save_strips self path_or_stream preserve_macros s Hwf Hstrip)
    as (s' & Hrun & _).
  exists s', (corrected_path path_or_stream). split; [exact Hrun|]. split.
  - intros rel q. apply parts_root.
  - intros p rel q. apply parts_closed.
Qed.

Lemma save_strip_integrity_witness :
  well_formed scenario_A 0
  /\ will_strip_macros 0 (Path "report.docx") None scenario_A = true
  /\ exists s' dest,
       save 0 (Path "report.docx") None scenario_A = (s', Ok dest)
       /\ (forall rel q, In rel (package_rels s') -> target rel = TargetPart q ->
                         In q (parts s'))
       /\ (forall p rel q, In p (parts s') -> In rel (rels (the_part s' p)) ->
                           target rel = TargetPart q -> In q (parts s')).
Proof.
  assert (Hwf : well_formed scenario_A 0)
    by (unfold well_formed, rIds_unique, quote_free; compute_done).
  split; [exact Hwf|]. split; [reflexivity|].
  apply (save_strip_integrity scenario_A 0 (Path "report.docx") None);
    [exact Hwf | reflexivity].
Defined.

(** C2 (scenario A).  A document part of the macro-enabled content type
    holds a relationship rId7 of the VBA-project type to a part of content
    type application/vnd.ms-word.vbaProject, and its markup holds a control
    element whose r:id is rId7.  Then [save] with [preserve_macros=False]
    returns and leaves the document with the macro-free content type,
    without rId7 among its relationships, without the VBA part in the
    package's part list, and without the control element (or any other
    control that refers to rId7) in its markup: the element is no longer
    found below the root of the document, and in a tree listed in document
    order it is not below the root. *)
Theorem save_scenario_A s self path_or_stream rel vba control :
  well_formed s self ->
  content_type (the_part s self) = CT.WML_DOCUMENT_MACRO_ENABLED_MAIN ->
  In rel (rels (the_part s self)) ->
  rId rel = "rId7" -> reltype rel = RT_VBA_PROJECT -> target rel = TargetPart vba ->
  content_type (the_part s vba) = CT_VBA_PROJECT ->
  In control (xpath_control (xml s) (element (the_part s self)) "rId7") ->
  exists s' dest,
    save self path_or_stream (Some false) s = (s', Ok dest)
    /\ content_type (the_part s' self) = CT.WML_DOCUMENT_MAIN
    /\ (forall r, In r (rels (the_part s' self)) -> rId r <> "rId7")
    /\ ~ In vba (parts s')
    /\ xpath_control (xml s') (element (the_part s' self)) "rId7" = []
    /\ has_ancestor (xml s') (length (xml s')) (element (the_part s' self)) control
       = false
    /\ (document_order (xml s) ->
        ~ below (xml s') (element (the_part s' self)) control).
Proof.
  intros Hwf Hct Hrel HrId Hreltype Htarget Hvba Hcontrol.
  assert (Hstrip : will_strip_macros self path_or_stream (Some false) s = true).
  { unfold will_strip_macros. rewrite Hct. reflexivity. }
  destruct (save_strips self path_or_stream (Some false) s Hwf Hstrip)
    as (s' & Hrun & [Hsh Hrels Hparts Hxml]).
  pose proof (well_formed_dicts s self Hwf (OfPart self)) as Hnd.
  assert (Hself : self < length (objects s)) by apply Hwf.
  assert (Hmacro : str_in (reltype rel) macro_reltypes = true)
    by (rewrite Hreltype; reflexivity).
  exists s', (corrected_path path_or_stream). split; [exact Hrun|].
  destruct (sh_attributes _ _ Hsh self) as (Hct' & _ & Hroot & _).
  rewrite retyped_self in Hct', Hroot by assumption. simpl in Hct', Hroot.
  assert (Hnil : xpath_control (xml s') (element (the_part s' self)) "rId7" = []).
  { rewrite <- HrId. now apply Hxml. }
  assert (Hgone : has_ancestor (xml s') (length (xml s'))
                    (element (the_part s' self)) control = false).
  { destruct (has_ancestor (xml s') (length (xml s')) (element (the_part s' self)) control)
      eqn:Hanc'; [|reflexivity].
    exfalso.
    assert (Hlater : In control (xpath_control (xml s') (element (the_part s' self)) "rId7")).
    { apply xpath_control_In in Hcontrol as (Hlt & _ & Hctl).
      apply xpath_control_In. rewrite (sh_xml_length _ _ Hsh).
      split; [exact Hlt|]. split; [now rewrite <- (sh_xml_length _ _ Hsh)|].
      destruct (lookup_lt_is_Some_2 (xml s') control) as (e' & He').
      { now rewrite (sh_xml_length _ _ Hsh). }
      destruct (sh_xml _ _ Hsh control e' He') as (e & He & Htag & Hattr & _).
      change (xml (retyped self s)) with (xml s) in He.
      rewrite He in Hctl. rewrite He'. simpl in *.
      unfold is_control_for in *. now rewrite Htag, Hattr. }
    rewrite Hnil in Hlater. destruct Hlater. }
  split; [exact Hct'|]. split; [|split; [|split; [exact Hnil|split; [exact Hgone|]]]].
  - intros r Hr Heq.
    assert (Hold : In r (rels (the_part s self))).
    { apply (sublist_In _ _ _ (sh_rels _ _ Hsh (OfPart self))) in Hr.
      now rewrite retyped_rels in Hr. }
    assert (r = rel) as ->
      by (apply (rIds_unique_inj _ _ _ Hnd); [assumption | assumption | congruence]).
    rewrite (Hrels rel Hr) in Hmacro. discriminate.
  - intros Hin. apply Hparts in Hin.
    assert (Hne : vba <> self).
    { intros ->. rewrite Hct in Hvba. discriminate. }
    destruct (sh_attributes _ _ Hsh vba) as (Hctv & _).
    rewrite retyped_other in Hctv by assumption.
    unfold is_vba_part in Hin. rewrite Hctv, Hvba in Hin. discriminate.
  - intros Hord Hbelow.
    apply (has_ancestor_below (xml s')) in Hbelow; [congruence|].
    apply (shrinks_document_order (retyped self s) s' Hsh). exact Hord.
Qed.

Lemma save_scenario_A_witness :
  exists s' dest,
    save 0 (Path "report.docx") (Some false) scenario_A = (s', Ok dest)
    /\ content_type (the_part s' 0) = CT.WML_DOCUMENT_MAIN
    /\ (forall r, In r (rels (the_part s' 0)) -> rId r <> "rId7")
    /\ ~ In 2 (parts s')
    /\ xpath_control (xml s') (element (the_part s' 0)) "rId7" = []
    /\ has_ancestor (xml s') (length (xml s')) (element (the_part s' 0)) 3 = false
    /\ (document_order (xml scenario_A) ->
        ~ below (xml s') (element (the_part s' 0)) 3).
Proof.
  apply (save_scenario_A scenario_A 0 (Path "report.docx")
           (mkRel "rId7" RT_VBA_PROJECT (TargetPart 2)) 2 3).
  - unfold well_formed, rIds_unique, quote_free; compute_done.
  - reflexivity.
  - simpl. right. left. reflexivity.
  - reflexivity.
  - reflexivity.
  - reflexivity.
  - reflexivity.
  - vm_compute. left. reflexivity.
Defined.

(** C3 (idempotence), as the code has it.  With stripping requested, [save]
    returns, and a second [save] of the result, whatever its arguments,
    changes nothing: it returns the same state and hands its destination to
    the serializer as given.  When the document part was of the macro-enabled
    type, the first run leaves no part of a VBA content type or partname in
    the package, no relationship of a macro type on the document part, and
    no relationship of the package or of one of its parts to a VBA part
    (parts other than the document part keep relationships of a macro type
    when their targets are not VBA parts; a document that is not of the
    macro-enabled type is left as it is). *)
Theorem save_twice s self path_or_stream preserve_macros :
  well_formed s self ->
  _should_preserve_macros path_or_stream preserve_macros = false ->
  exists s1 dest1,
    save self path_or_stream preserve_macros s = (s1, Ok dest1)
    /\ (forall path_or_stream2 preserve_macros2,
          save self path_or_stream2 preserve_macros2 s1 = (s1, Ok path_or_stream2))
    /\ (content_type (the_part s self) = CT.WML_DOCUMENT_MACRO_ENABLED_MAIN ->
        (forall q, In q (parts s1) -> is_vba_part (the_part s1 q) = false)
        /\ (forall rel, In rel (rels (the_part s1 self)) ->
                        str_in (reltype rel) macro_reltypes = false)
        /\ (forall rel t, In rel (package_rels s1) -> target rel = TargetPart t ->
                          is_vba_part (the_part s1 t) = false)
        /\ (forall q rel t, In q (parts s1) -> In rel (rels (the_part s1 q)) ->
                            target rel = TargetPart t ->
                            is_vba_part (the_part s1 t) = false)).
Proof.
  intros Hwf Hpreserve.
  destruct (will_strip_macros self path_or_stream preserve_macros s) eqn:Hstrip.
  - destruct (save_strips self path_or_stream preserve_macros s Hwf Hstrip)
      as (s1 & Hrun & [Hsh Hrels Hparts Hxml]).
    exists s1, (corrected_path path_or_stream). split; [exact Hrun|]. split.
    + intros path2 preserve2. apply save_noop. unfold will_strip_macros.
      destruct (sh_attributes _ _ Hsh self) as (Hct & _).
      rewrite retyped_self in Hct by apply Hwf. simpl in Hct. rewrite Hct.
      reflexivity.
    + intros _. split; [exact Hparts|]. split; [exact Hrels|]. split.
      * intros rel t Hrel Ht. apply Hparts. now apply (parts_root s1 rel t).
      * intros q rel t Hq Hrel Ht. apply Hparts. now apply (parts_closed s1 q rel t).
  - exists s, path_or_stream. split; [now apply save_noop|].
    unfold will_strip_macros in Hstrip. rewrite Hpreserve in Hstrip.
    simpl in Hstrip. rewrite andb_true_r in Hstrip. split.
    + intros path2 preserve2. apply save_noop. unfold will_strip_macros.
      now rewrite Hstrip.
    + intros Hct. rewrite Hct in Hstrip. discriminate.
Qed.

Lemma save_twice_witness :
  well_formed scenario_A 0
  /\ _should_preserve_macros (Path "report.docx") None = false
  /\ exists s1 dest1,
       save 0 (Path "report.docx") None scenario_A = (s1, Ok dest1)
       /\ (forall path_or_stream2 preserve_macros2,
             save 0 path_or_stream2 preserve_macros2 s1 = (s1, Ok path_or_stream2))
       /\ (content_type (the_part scenario_A 0) = CT.WML_DOCUMENT_MACRO_ENABLED_MAIN ->
           (forall q, In q (parts s1) -> is_vba_part (the_part s1 q) = false)
           /\ (forall rel, In rel (rels (the_part s1 0)) ->
                           str_in (reltype rel) macro_reltypes = false)
           /\ (forall rel t, In rel (package_rels s1) -> target rel = TargetPart t ->
                             is_vba_part (the_part s1 t) = false)
           /\ (forall q rel t, In q (parts s1) -> In rel (rels (the_part s1 q)) ->
                               target rel = TargetPart t ->
                               is_vba_part (the_part s1 t) = false)).
Proof.
  assert (Hwf : well_formed scenario_A 0)
    by (unfold well_formed, rIds_unique, quote_free; compute_done).
  split; [exact Hwf|]. split; [reflexivity|].
  apply (save_twice scenario_A 0 (Path "report.docx") None); [exact Hwf | reflexivity].
Defined.

(** C3 as stated fails: after a strip, a relationship of a macro type can
    remain in the package.  The header of [header_control] keeps its
    control relationship, and the header is still a part of the package. *)
Lemma save_keeps_macro_relationship_of_header :
  ~ (forall s self path_or_stream preserve_macros s1 dest1,
       well_formed s self ->
       will_strip_macros self path_or_stream preserve_macros s = true ->
       save self path_or_stream preserve_macros s = (s1, Ok dest1) ->
       forall q rel, In q (parts s1) -> In rel (rels (the_part s1 q)) ->
                     str_in (reltype rel) macro_reltypes = false).
Proof.
  intros H.
  pose (s1 := fst (save 0 (Path "report.docx") None header_control)).
  assert (Hfalse : str_in (reltype (mkRel "rId1" RT_CONTROL (TargetPart 2)))
                     macro_reltypes = false).
  { apply (H header_control 0 (Path "report.docx") None s1 (Path "report.docx"))
      with (q := 1).
    - unfold well_formed, rIds_unique, quote_free; compute_done.
    - reflexivity.
    - reflexivity.
    - vm_compute. right. left. reflexivity.
    - vm_compute. left. reflexivity. }
  discriminate Hfalse.
Qed.

(** C4 (decide).  The preserve decision is a function of the flag and the
    destination alone: an explicit flag is returned as it is; without a
    flag a stream gives strip; without a flag a path gives preserve exactly
    when its extension -- the second component of [os.path.splitext], which
    splits the path into two pieces -- is .docm up to case.  So
    report.DOCM is preserved, and a path with another extension or with
    none is stripped. *)
Theorem should_preserve_macros_decision :
  (forall path_or_stream b, _should_preserve_macros path_or_stream (Some b) = b)
  /\ (forall fileobj, _should_preserve_macros (Stream fileobj) None = false)
  /\ (forall p, _should_preserve_macros (Path p) None = true
                <-> Str.lower (snd (Str.splitext p)) = Str.lower ".docm")
  /\ (forall p, fst (Str.splitext p) +:+ snd (Str.splitext p) = p)
  /\ _should_preserve_macros (Path "report.DOCM") None = true
  /\ _should_preserve_macros (Path "report.docx") None = false
  /\ _should_preserve_macros (Path "report.docm.bak") None = false
  /\ _should_preserve_macros (Path "archive.docm/report") None = false
  /\ _should_preserve_macros (Path "report") None = false.
Proof.
  split; [reflexivity|]. split; [reflexivity|]. split.
  - intros p. simpl. apply String.eqb_eq.
  - split; [apply splitext_join|]. repeat split; reflexivity.
Qed.

(** C5 (no-op guard).  When the document part is not of the macro-enabled
    content type, or the preserve decision is true, [save] mutates nothing:
    the state handed to the serializer -- content types, parts,
    relationships, markup -- is the input state, and so is the
    destination. *)
Theorem save_noop_guard s self path_or_stream preserve_macros :
  content_type (the_part s self) <> CT.WML_DOCUMENT_MACRO_ENABLED_MAIN
  \/ _should_preserve_macros path_or_stream preserve_macros = true ->
  save self path_or_stream preserve_macros s = (s, Ok path_or_stream).
Proof.
  intros H. apply save_noop. unfold will_strip_macros.
  destruct H as [H|H].
  - apply String.eqb_neq in H. now rewrite H.
  - rewrite H. apply andb_false_r.
Qed.

Lemma save_noop_guard_witness :
  (content_type (the_part scenario_A 0) <> CT.WML_DOCUMENT_MACRO_ENABLED_MAIN
   \/ _should_preserve_macros (Path "report.docx") (Some true) = true)
  /\ save 0 (Path "report.docx") (Some true) scenario_A
     = (scenario_A, Ok (Path "report.docx")).
Proof.
  assert (H : content_type (the_part scenario_A 0) <> CT.WML_DOCUMENT_MACRO_ENABLED_MAIN
              \/ _should_preserve_macros (Path "report.docx") (Some true) = true)
    by (right; reflexivity).
  split; [exact H|].
  apply (save_noop_guard scenario_A 0 (Path "report.docx") (Some true) H).
Defined.

(** The statement of the inner loop has no guard of its own: on an element
    without a parent [getparent()] is [None] and the call raises. *)
Lemma remove_control_elem_without_parent s control_elem e :
  xml s !! control_elem = Some e -> parent e = None ->
  remove_control_elem control_elem s = (s, Raise AttributeError).
Proof.
  intros He Hp. unfold remove_control_elem, bind, getparent, gets.
  now rewrite He, Hp.
Qed.

(** C6 (detached control elements).  On a well-formed state the cascade
    returns, whatever elements without a parent the store holds -- control
    elements that refer to the rId of a macro relationship included.  Every
    control element the query hands to the loop is below the root of the
    document and so has a parent, and an element without a parent is left
    exactly as it was: meeting one is not an error. *)
Theorem cascade_tolerates_detached_element s self :
  well_formed s self ->
  exists s',
    _remove_macro_relationships self s = (s', Ok tt)
    /\ (forall rid control_elem,
          In control_elem (xpath_control (xml s) (element (the_part s self)) rid) ->
          exists e p, xml s !! control_elem = Some e /\ parent e = Some p)
    /\ (forall control_elem e,
          xml s !! control_elem = Some e -> parent e = None ->
          xml s' !! control_elem = Some e).
Proof.
  intros Hwf.
  destruct (remove_macro_relationships_ok s self) as (s' & Hrun & Hsh & _).
  { apply (well_formed_dicts s self Hwf (OfPart self)). }
  exists s'. split; [exact Hrun|]. split.
  - intros rid ce Hce. apply xpath_control_In in Hce as (_ & Hanc & _).
    now apply has_ancestor_parent in Hanc.
  - intros ce e He Hp.
    assert (Hlt : ce < length (xml s')).
    { rewrite (sh_xml_length _ _ Hsh). now apply lookup_lt_Some in He. }
    apply lookup_lt_is_Some in Hlt as (e' & He').
    destruct (sh_xml _ _ Hsh ce e' He') as (e0 & He0 & Htag & Hattr & Hparent).
    rewrite He in He0. injection He0 as <-.
    rewrite He'. f_equal. destruct e as [t a p], e' as [t' a' p'].
    simpl in *. subst. destruct Hparent as [->| ->]; reflexivity.
Qed.

(** In [detached_control] element 1 is a control element that refers to
    the rId of the VBA-project relationship and has no parent; the cascade
    returns and leaves it as it is. *)
Lemma cascade_tolerates_detached_element_witness :
  well_formed detached_control 0
  /\ is_control_for "rId7" (mkElement "w:control" [("r:id", "rId7")] None) = true
  /\ exists s',
       _remove_macro_relationships 0 detached_control = (s', Ok tt)
       /\ xml s' !! 1 = Some (mkElement "w:control" [("r:id", "rId7")] None).
Proof.
  assert (Hwf : well_formed detached_control 0)
    by (unfold well_formed, rIds_unique, quote_free; compute_done).
  split; [exact Hwf|]. split; [reflexivity|].
  destruct (cascade_tolerates_detached_element detached_control 0 Hwf)
    as (s' & Hrun & _ & Hkept).
  exists s'. split; [exact Hrun|].
  apply (Hkept 1 (mkElement "w:control" [("r:id", "rId7")] None)); reflexivity.
Defined.

(** C7 (by-rId miss).  For an rId that is not among the related parts of the
    document part, [header_part] and [footer_part] raise [KeyError] and
    leave the state as it was: no part is made, no relationship added. *)
Theorem by_rId_miss s self rid :
  (forall rel p, In rel (rels (the_part s self)) -> rId rel = rid ->
                 target rel <> TargetPart p) ->
  header_part self rid s = (s, Raise KeyError)
  /\ footer_part self rid s = (s, Raise KeyError).
Proof.
  intros H.
  unfold header_part, footer_part, related_parts_getitem, bind, gets.
  now rewrite (find_by_rId_miss rid _ H).
Qed.

Lemma by_rId_miss_witness :
  header_part 0 "rId9" scenario_A = (scenario_A, Raise KeyError)
  /\ footer_part 0 "rId9" scenario_A = (scenario_A, Raise KeyError).
Proof.
  apply (by_rId_miss scenario_A 0 "rId9").
  intros rel p Hin Heq. simpl in Hin.
  destruct Hin as [<-|[<-|[]]]; discriminate Heq.
Defined.




Example stale_numbering_run :
  rel_of_type RT.NUMBERING (rels (the_part stale_numbering 0)) = None
  /\ parts stale_numbering = [0]
  /\ numbering_part 0 stale_numbering = (stale_numbering, Ok 1).
Proof. vm_compute. repeat split. Qed.

(** The styles part of [scenario_A] is found; its numbering part is made on
    the first access, related as rId2, and returned again on the second. *)
Example styles_part_found : _styles_part 0 scenario_A = (scenario_A, Ok 1).
Proof. reflexivity. Qed.

Example numbering_part_defaulted :
  let s1 := fst (numbering_part 0 scenario_A) in
  numbering_part 0 scenario_A = (s1, Ok 4)
  /\ rels (the_part s1 0)
     = [ mkRel "rId1" RT.STYLES (TargetPart 1);
         mkRel "rId7" RT_VBA_PROJECT (TargetPart 2);
         mkRel "rId2" RT.NUMBERING (TargetPart 4) ]
  /\ parts s1 = [0; 1; 2; 3; 4]
  /\ numbering_part 0 s1 = (s1, Ok 4).
Proof. vm_compute. repeat split. Qed.

(** C9 (path correction).  [save] on a well-formed state returns, and the
    destination it hands to the serializer differs from the one it was given
    exactly when macros were stripped and the destination is a path that
    ends, in any case, in .docm; the path handed over is then the given one
    with that extension replaced by .docx.  Without stripping the
    destination is handed over as given, whatever its extension. *)
Theorem save_path_correction s self path_or_stream preserve_macros :
  well_formed s self ->
  exists s' dest,
    save self path_or_stream preserve_macros s = (s', Ok dest)
    /\ (dest <> path_or_stream <->
          will_strip_macros self path_or_stream preserve_macros s = true
          /\ exists p, path_or_stream = Path p
                       /\ Str.endswith (Str.lower p) ".docm" = true)
    /\ (dest <> path_or_stream ->
          exists stem ext, path_or_stream = Path (stem +:+ ext)
                           /\ Str.lower ext = ".docm"
                           /\ dest = Path (stem +:+ ".docx"))
    /\ (will_strip_macros self path_or_stream preserve_macros s = false ->
          s' = s /\ dest = path_or_stream).
Proof.
  intros Hwf.
  destruct (will_strip_macros self path_or_stream preserve_macros s) eqn:Hstrip.
  - destruct (save_strips self path_or_stream preserve_macros s Hwf Hstrip)
      as (s' & Hrun & _).
    exists s', (corrected_path path_or_stream). split; [exact Hrun|].
    assert (Hiff : corrected_path path_or_stream <> path_or_stream <->
                   exists p, path_or_stream = Path p
                             /\ Str.endswith (Str.lower p) ".docm" = true).
    { destruct path_or_stream as [p|f]; simpl.
      - destruct (Str.endswith (Str.lower p) ".docm") eqn:Hends.
        + split; [intros _; now exists p|]. intros _ [= Heq].
          now apply (corrected_path_differs p).
        + split; [congruence|]. intros (p' & [= <-] & H). congruence.
      - split; [congruence|]. intros (p & Hp & _). discriminate. }
    split; [|split].
    + rewrite Hiff. tauto.
    + intros Hne. apply Hiff in Hne as (p & -> & Hends).
      destruct (endswith_docm_split p Hends) as (ext & Hp & Hext).
      exists (Str.drop_last 5 p), ext. simpl. rewrite Hends. now rewrite <- Hp.
    + discriminate.
  - exists s, path_or_stream. split; [now apply save_noop|].
    split; [|split].
    + split; [congruence|]. intros (H & _). discriminate.
    + congruence.
    + now split.
Qed.

Lemma save_path_correction_witness :
  well_formed scenario_A 0
  /\ exists s' dest,
       save 0 (Path "out/Report.DocM") (Some false) scenario_A = (s', Ok dest)
       /\ (dest <> Path "out/Report.DocM" <->
             will_strip_macros 0 (Path "out/Report.DocM") (Some false) scenario_A = true
             /\ exists p, Path "out/Report.DocM" = Path p
                          /\ Str.endswith (Str.lower p) ".docm" = true)
       /\ (dest <> Path "out/Report.DocM" ->
             exists stem ext, Path "out/Report.DocM" = Path (stem +:+ ext)
                              /\ Str.lower ext = ".docm"
                              /\ dest = Path (stem +:+ ".docx"))
       /\ (will_strip_macros 0 (Path "out/Report.DocM") (Some false) scenario_A = false ->
             s' = scenario_A /\ dest = Path "out/Report.DocM").
Proof.
  assert (Hwf : well_formed scenario_A 0)
    by (unfold well_formed, rIds_unique, quote_free; compute_done).
  split; [exact Hwf|].
  apply (save_path_correction scenario_A 0 (Path "out/Report.DocM") (Some false) Hwf).
Defined.

Example save_path_corrected :
  snd (save 0 (Path "out/Report.DocM") (Some false) scenario_A)
  = Ok (Path "out/Report.docx").
Proof. reflexivity. Qed.

(** C10 (no type check by rId).  For an rId among the related parts of the
    document part, [header_part] and [footer_part] return the target part
    and change nothing, whatever the type of the relationship. *)
Theorem by_rId_any_reltype s self rel p :
  rIds_unique (rels (the_part s self)) ->
  In rel (rels (the_part s self)) -> target rel = TargetPart p ->
  header_part self (rId rel) s = (s, Ok p)
  /\ footer_part self (rId rel) s = (s, Ok p).
Proof.
  intros Hnd Hin Ht.
  unfold header_part, footer_part, related_parts_getitem, bind, gets.
  rewrite (find_by_rId_hit _ rel p Hnd Hin Ht).
  destruct rel as [i t tg]. simpl in Ht. now rewrite Ht.
Qed.

(** The styles part of [scenario_A] is returned as a header and as a
    footer. *)
Lemma by_rId_any_reltype_witness :
  reltype (mkRel "rId1" RT.STYLES (TargetPart 1)) = RT.STYLES
  /\ header_part 0 "rId1" scenario_A = (scenario_A, Ok 1)
  /\ footer_part 0 "rId1" scenario_A = (scenario_A, Ok 1).
Proof.
  split; [reflexivity|].
  apply (by_rId_any_reltype scenario_A 0 (mkRel "rId1" RT.STYLES (TargetPart 1)) 1).
  - unfold rIds_unique. compute_done.
  - simpl. left. reflexivity.
  - reflexivity.
Defined.

(** * Further properties of the code *)

(** ** Exact effect of the deletion loops *)

Lemma with_rels_same x : with_rels x (rels x) = x.
Proof. now destruct x. Qed.

Lemma set_part_same s p : set_part p (the_part s p) s = s.
Proof.
  unfold set_part, the_part. destruct s as [pr objs xm]. simpl. f_equal.
  destruct (objs !! p) as [x|] eqn:Hx; simpl.
  - now apply list_insert_id.
  - apply list_insert_ge. now apply lookup_ge_None.
Qed.

Lemma set_source_rels_same s src : set_source_rels src (source_rels s src) s = s.
Proof.
  destruct src as [|p]; simpl.
  - now destruct s.
  - rewrite with_rels_same. apply set_part_same.
Qed.

Lemma set_source_rels_twice s src rs1 rs2 :
  set_source_rels src rs2 (set_source_rels src rs1 s) = set_source_rels src rs2 s.
Proof.
  destruct src as [|p]; [reflexivity|].
  unfold set_source_rels, set_part. simpl. f_equal.
  destruct (Nat.lt_ge_cases p (length (objects s))) as [Hlt|Hge].
  - unfold the_part at 1. simpl. rewrite list_lookup_insert_eq by assumption. simpl.
    rewrite list_insert_insert_eq. reflexivity.
  - unfold the_part at 1. simpl.
    rewrite (list_insert_ge (objects s) p) by assumption.
    reflexivity.
Qed.

Lemma source_rels_set_same s src rs :
  source_rels s src <> [] -> source_rels (set_source_rels src rs s) src = rs.
Proof.
  intros Hne. rewrite source_rels_set. destruct src as [|p]; [reflexivity|].
  case_decide as Hd; [reflexivity|]. exfalso. apply Hne. simpl.
  destruct (Nat.lt_ge_cases p (length (objects s))) as [Hlt|Hge]; [tauto|].
  now rewrite the_part_outside.
Qed.

(** In a dict, deleting the key of a relationship removes that relationship
    and nothing else. *)
Lemma filter_out_rId l1 a l2 :
  (forall r, In r l1 -> rId r <> rId a) -> (forall r, In r l2 -> rId r <> rId a) ->
  List.filter (fun r => negb (has_rId (rId a) r)) (l1 ++ a :: l2) = l1 ++ l2.
Proof.
  intros H1 H2. rewrite List.filter_app. simpl. unfold has_rId at 2.
  rewrite String.eqb_refl. simpl. f_equal.
  - apply forallb_filter_id. apply forallb_forall. intros r Hr.
    apply negb_true_iff. apply String.eqb_neq. now apply H1.
  - apply forallb_filter_id. apply forallb_forall. intros r Hr.
    apply negb_true_iff. apply String.eqb_neq. now apply H2.
Qed.

Lemma rIds_unique_earlier pre a post r :
  rIds_unique (pre ++ a :: post) -> In r pre -> rId r <> rId a.
Proof.
  unfold rIds_unique. rewrite map_app. simpl. intros Hnd Hin Heq.
  apply NoDup_app in Hnd as (_ & Hdisj & _).
  apply (Hdisj (rId r)).
  - apply list_elem_of_In. now apply in_map.
  - rewrite Heq. apply list_elem_of_In. now left.
Qed.

Lemma drop_loop_exact src part_to_remove :
  forall post pre s,
    source_rels s src
    = List.filter (fun rel => negb (targets_part rel part_to_remove)) pre ++ post ->
    rIds_unique (pre ++ post) ->
    for_each post
      (fun rel => if targets_part rel part_to_remove
                  then del_rel src (rId rel) else ret tt) s
    = (set_source_rels src
         (List.filter (fun rel => negb (targets_part rel part_to_remove)) (pre ++ post)) s,
       Ok tt).
Proof.
  induction post as [|a post IH]; intros pre s Hcur Hnd.
  - simpl. rewrite app_nil_r in *. rewrite <- Hcur.
    now rewrite set_source_rels_same.
  - simpl. unfold bind.
    assert (Hnd' : rIds_unique ((pre ++ [a]) ++ post)) by now rewrite <- app_assoc.
    destruct (targets_part a part_to_remove) eqn:Ha.
    + unfold del_rel.
      assert (Hex : existsb (has_rId (rId a)) (source_rels s src) = true).
      { apply existsb_has_rId. exists a. split; [|reflexivity].
        rewrite Hcur. apply in_or_app. right. now left. }
      rewrite Hex.
      assert (Hnew : List.filter (fun r => negb (has_rId (rId a) r)) (source_rels s src)
                     = List.filter (fun rel => negb (targets_part rel part_to_remove)) pre
                       ++ post).
      { rewrite Hcur. apply filter_out_rId.
        - intros r Hr. apply filter_In in Hr as (Hr & _).
          now apply (rIds_unique_earlier pre a post).
        - intros r Hr. now apply (rIds_unique_later pre a post). }
      rewrite Hnew.
      rewrite (IH (pre ++ [a])); [|
        rewrite source_rels_set_same;
          [rewrite List.filter_app; simpl; rewrite Ha; simpl; now rewrite app_nil_r
          | rewrite Hcur; now destruct (List.filter _ pre)]
        | exact Hnd'].
      rewrite set_source_rels_twice. now rewrite <- app_assoc.
    + unfold ret at 1.
      rewrite (IH (pre ++ [a])); [now rewrite <- app_assoc | | exact Hnd'].
      rewrite List.filter_app. simpl. rewrite Ha. simpl.
      now rewrite <- app_assoc.
Qed.

(** [drop_rels_to] on a dict is [prune]. *)
Lemma drop_rels_to_exact s src part_to_remove :
  rIds_unique (source_rels s src) ->
  drop_rels_to src part_to_remove s = (prune src part_to_remove s, Ok tt).
Proof.
  intros Hnd. unfold drop_rels_to, bind, gets.
  now apply (drop_loop_exact src part_to_remove (source_rels s src) [] s).
Qed.

(** ** What the sweep keeps *)

Lemma prune_shrinks s src part_to_remove : shrinks s (prune src part_to_remove s).
Proof. apply shrinks_filter. Qed.

Lemma prune_xml s src part_to_remove : xml (prune src part_to_remove s) = xml s.
Proof. destruct src; reflexivity. Qed.

(** [prune] keeps every relationship that does not target the part. *)
Lemma prune_keeps s src part_to_remove src' rel :
  In rel (source_rels s src') -> targets_part rel part_to_remove = false ->
  In rel (source_rels (prune src part_to_remove s) src').
Proof.
  intros Hin Ht. unfold prune. rewrite source_rels_set.
  assert (Hf : In rel (List.filter (fun r => negb (targets_part r part_to_remove))
                         (source_rels s src'))).
  { apply filter_In. split; [exact Hin | now rewrite Ht]. }
  destruct src as [|p], src' as [|q]; try exact Hin; try exact Hf.
  case_decide as Hd; [|exact Hin]. destruct Hd as [<- _]. exact Hf.
Qed.

(** The sweep of one part returns and deletes nothing but relationships to
    that part. *)
Lemma sweep_part_keeps s part_to_remove :
  dicts s ->
  exists s', sweep_part part_to_remove s = (s', Ok tt)
    /\ shrinks s s'
    /\ (forall src rel, In rel (source_rels s src) ->
                        targets_part rel part_to_remove = false ->
                        In rel (source_rels s' src)).
Proof.
  intros Hd. unfold sweep_part, bind.
  rewrite (drop_rels_to_exact s OfPackage part_to_remove (Hd OfPackage)).
  unfold gets.
  set (s1 := prune OfPackage part_to_remove s).
  assert (Hsh1 : shrinks s s1) by apply prune_shrinks.
  pose (I := fun (pre post : list nat) (st : State) =>
               shrinks s st
               /\ (forall src rel, In rel (source_rels s src) ->
                                   targets_part rel part_to_remove = false ->
                                   In rel (source_rels st src))).
  destruct (for_each_inv I
              (fun part => if Nat.eqb part part_to_remove then ret tt
                           else drop_rels_to (OfPart part) part_to_remove)
              (parts s1)) with (s := s1)
    as (s2 & Hrun2 & Hsh2 & Hkeep).
  - intros pre a post st _ (Hsh & Hkeep).
    destruct (Nat.eqb a part_to_remove).
    + exists st. split; [reflexivity|]. now split.
    + rewrite (drop_rels_to_exact st (OfPart a) part_to_remove
                 (shrinks_dicts s st Hsh Hd (OfPart a))).
      eexists. split; [reflexivity|]. split.
      * eapply shrinks_trans; [exact Hsh | apply prune_shrinks].
      * intros src rel Hin Ht. apply prune_keeps; [|exact Ht]. now apply Hkeep.
  - split; [exact Hsh1|]. intros src rel Hin Ht. now apply prune_keeps.
  - exists s2. split; [exact Hrun2|]. now split.
Qed.

Lemma vba_target_targets s rel part :
  is_vba_part (the_part s part) = true -> vba_target s rel = false ->
  targets_part rel part = false.
Proof.
  unfold vba_target, targets_part. destruct (target rel) as [t|u]; [|reflexivity].
  intros Hvba Hnot. destruct (Nat.eqb t part) eqn:Heq; [|reflexivity].
  apply Nat.eqb_eq in Heq. subst t. congruence.
Qed.

(** [_remove_vba_parts] deletes nothing but relationships to parts with a
    VBA content type or partname. *)
Lemma remove_vba_parts_keeps s self :
  dicts s ->
  exists s', _remove_vba_parts self s = (s', Ok tt)
    /\ shrinks s s'
    /\ (forall src rel, In rel (source_rels s src) -> vba_target s rel = false ->
                        In rel (source_rels s' src)).
Proof.
  intros Hd. unfold _remove_vba_parts, bind, gets.
  set (l := List.filter (fun part => is_vba_part (the_part s part)) (parts s)).
  change (exists s', for_each l sweep_part s = (s', Ok tt)
            /\ shrinks s s'
            /\ (forall src rel, In rel (source_rels s src) -> vba_target s rel = false ->
                                In rel (source_rels s' src))).
  pose (I := fun (pre post : list nat) (st : State) =>
               shrinks s st
               /\ (forall src rel, In rel (source_rels s src) ->
                                   vba_target s rel = false ->
                                   In rel (source_rels st src))).
  destruct (for_each_inv I sweep_part l) with (s := s) as (s' & Hrun & Hsh & Hkeep).
  - intros pre a post st Hl (Hsh & Hkeep).
    destruct (sweep_part_keeps st a (shrinks_dicts s st Hsh Hd))
      as (st' & Hrun & Hsh' & Hkeep').
    exists st'. split; [exact Hrun|]. split.
    + eapply shrinks_trans; eassumption.
    + intros src rel Hin Hv. apply Hkeep'; [now apply Hkeep|].
      apply (vba_target_targets s); [|exact Hv].
      assert (Ha : In a l) by (rewrite Hl; apply in_or_app; right; now left).
      unfold l in Ha. now apply filter_In in Ha as (_ & Ha).
  - split; [apply shrinks_refl|]. tauto.
  - exists s'. split; [exact Hrun|]. now split.
Qed.

(** ** Exact effect of the cascade *)

Lemma run_unique {A} (m : M A) s s1 s2 (r1 r2 : result A) :
  m s = (s1, r1) -> m s = (s2, r2) -> s1 = s2 /\ r1 = r2.
Proof. intros H1 H2. rewrite H1 in H2. now injection H2. Qed.

(** The inner loop detaches the elements it is given and leaves every other
    element, every part and every relationship as it was. *)
Lemma remove_control_elems_frame s control_elements :
  NoDup control_elements ->
  (forall ce, In ce control_elements ->
     exists e p, xml s !! ce = Some e /\ parent e = Some p) ->
  exists s', for_each control_elements remove_control_elem s = (s', Ok tt)
    /\ shrinks s s'
    /\ objects s' = objects s /\ package_rels s' = package_rels s
    /\ (forall x, ~ In x control_elements -> xml s' !! x = xml s !! x)
    /\ (forall x e, In x control_elements -> xml s !! x = Some e ->
                    xml s' !! x = Some (detached e)).
Proof.
  intros Hnd Hparents.
  destruct (remove_control_elems_ok s control_elements Hnd Hparents)
    as (s0 & Hrun0 & Hsh0 & _).
  pose (I := fun (pre post : list nat) (st : State) =>
               objects st = objects s /\ package_rels st = package_rels s
               /\ (forall ce, In ce post ->
                     exists e p, xml st !! ce = Some e /\ parent e = Some p)
               /\ (forall x, ~ In x pre -> xml st !! x = xml s !! x)
               /\ (forall x e, In x pre -> xml s !! x = Some e ->
                               xml st !! x = Some (detached e))).
  destruct (for_each_inv I remove_control_elem control_elements) with (s := s)
    as (s' & Hrun & Hobj & Hpkg & _ & Hframe & Hdet).
  - intros pre a post st Hl (Hobj & Hpkg & Hpost & Hframe & Hdet).
    destruct (Hpost a (or_introl eq_refl)) as (e & p & He & Hp).
    eexists. split; [apply (remove_control_elem_ok st a e p He Hp)|].
    assert (Hfresh : ~ In a post /\ ~ In a pre).
    { rewrite Hl in Hnd. apply NoDup_app in Hnd as (_ & Hdisj & Hnd).
      apply NoDup_cons in Hnd as (Hnotin & _).
      rewrite list_elem_of_In in Hnotin. split; [assumption|].
      intros Hin. apply (Hdisj a); [now apply list_elem_of_In|].
      apply list_elem_of_In. now left. }
    destruct Hfresh as (Hpost_ne & Hpre_ne).
    refine (conj Hobj (conj Hpkg (conj _ (conj _ _)))).
    + intros ce Hce. simpl. rewrite list_lookup_insert_ne by congruence.
      apply Hpost. now right.
    + intros x Hx. simpl.
      rewrite list_lookup_insert_ne
        by (intros ->; apply Hx; apply in_or_app; right; now left).
      apply Hframe. intros Hin. apply Hx. apply in_or_app. now left.
    + intros x e0 Hx He0. simpl. apply in_app_or in Hx as [Hx|[<-|[]]].
      * rewrite list_lookup_insert_ne by congruence. now apply Hdet.
      * rewrite list_lookup_insert_eq by (now apply (lookup_lt_Some _ _ e)).
        rewrite (Hframe a Hpre_ne) in He. now replace e0 with e by congruence.
  - refine (conj eq_refl (conj eq_refl (conj Hparents (conj _ _)))).
    + reflexivity.
    + intros x e [].
  - destruct (run_unique _ _ _ _ _ _ Hrun0 Hrun) as (<- & _).
    exists s0. split; [exact Hrun|]. now refine (conj Hsh0 (conj Hobj (conj Hpkg _))).
Qed.

Lemma the_part_objects s s' q : objects s' = objects s -> the_part s' q = the_part s q.
Proof. intros H. unfold the_part. now rewrite H. Qed.

(** One turn of the cascade: the control elements found for the rId are
    detached, the relationship under the rId is deleted from the document
    part, and nothing else changes. *)
Lemma cascade_one_exact s self rid :
  (exists r, In r (rels (the_part s self)) /\ rId r = rid) ->
  exists s', cascade_one self rid s = (s', Ok tt)
    /\ shrinks s s'
    /\ package_rels s' = package_rels s
    /\ length (objects s') = length (objects s)
    /\ (forall q, q <> self -> the_part s' q = the_part s q)
    /\ the_part s' self
       = with_rels (the_part s self)
           (List.filter (fun r => negb (has_rId rid r)) (rels (the_part s self)))
    /\ (forall x, ~ In x (xpath_control (xml s) (element (the_part s self)) rid) ->
                  xml s' !! x = xml s !! x)
    /\ (forall x e, In x (xpath_control (xml s) (element (the_part s self)) rid) ->
                    xml s !! x = Some e -> xml s' !! x = Some (detached e)).
Proof.
  intros Hex. unfold cascade_one, bind, gets.
  set (ces := xpath_control (xml s) (element (the_part s self)) rid).
  destruct (remove_control_elems_frame s ces)
    as (s1 & Hrun1 & Hsh1 & Hobj & Hpkg & Hframe & Hdet).
  { apply xpath_control_NoDup. }
  { intros ce Hce. apply xpath_control_In in Hce as (_ & Hanc & _).
    now apply has_ancestor_parent in Hanc. }
  rewrite Hrun1.
  assert (Hpart : forall q, the_part s1 q = the_part s q)
    by (intros q; now apply the_part_objects).
  assert (Hself : self < length (objects s)).
  { destruct Hex as (r & Hr & _).
    destruct (Nat.lt_ge_cases self (length (objects s))) as [Hlt|Hge]; [exact Hlt|].
    rewrite the_part_outside in Hr by assumption. destruct Hr. }
  unfold del_rel. simpl source_rels. rewrite Hpart.
  rewrite (proj2 (existsb_has_rId rid (rels (the_part s self))) Hex).
  eexists. split; [reflexivity|].
  refine (conj _ (conj Hpkg (conj _ (conj _ (conj _ (conj Hframe Hdet)))))).
  - eapply shrinks_trans; [exact Hsh1|].
    rewrite <- (Hpart self). apply (shrinks_filter s1 (OfPart self)).
  - unfold set_source_rels. rewrite objects_set_part_length. now rewrite Hobj.
  - intros q Hne. unfold set_source_rels. rewrite the_part_set_ne by congruence.
    apply Hpart.
  - unfold set_source_rels. rewrite the_part_set_eq by (now rewrite Hobj).
    now rewrite Hpart.
Qed.

Lemma filter_both {A} (f g : A -> bool) (l : list A) :
  List.filter f (List.filter g l) = List.filter (fun x => g x && f x) l.
Proof.
  induction l as [|a l IH]; simpl; [reflexivity|].
  destruct (g a); simpl; [destruct (f a)|]; now rewrite IH.
Qed.

Lemma with_rels_twice x rs1 rs2 : with_rels (with_rels x rs1) rs2 = with_rels x rs2.
Proof. reflexivity. Qed.

Lemma str_in_In x t : str_in x t = true <-> In x t.
Proof.
  unfold str_in. rewrite existsb_exists. split.
  - intros (y & Hy & Heq). apply String.eqb_eq in Heq. now subst.
  - intros H. exists x. split; [assumption | apply String.eqb_refl].
Qed.

Lemma str_in_snoc x l a : str_in x (l ++ [a]) = str_in x l || String.eqb x a.
Proof. unfold str_in. rewrite existsb_app. simpl. now rewrite orb_false_r. Qed.

Lemma detached_twice e : detached (detached e) = detached e.
Proof. reflexivity. Qed.

(** In a dict, the relationships whose rId is one of those of the macro
    relationships are the macro relationships. *)
Lemma macro_rIds_filter rs :
  rIds_unique rs ->
  List.filter
    (fun r => negb (str_in (rId r)
                      (map rId (List.filter
                                  (fun rel => str_in (reltype rel) macro_reltypes) rs))))
    rs
  = List.filter not_macro rs.
Proof.
  intros Hnd. apply filter_ext_in. intros r Hr. unfold not_macro. f_equal.
  destruct (str_in (reltype r) macro_reltypes) eqn:Hm.
  - apply str_in_In. apply in_map. apply filter_In. now split.
  - destruct (str_in (rId r) _) eqn:Hin; [|reflexivity].
    apply str_in_In in Hin. apply in_map_iff in Hin as (r' & Heq & Hr').
    apply filter_In in Hr' as (Hr' & Hm').
    assert (r' = r) by now apply (rIds_unique_inj rs).
    subst r'. congruence.
Qed.

(** [_remove_macro_relationships], exactly: the package's own relationships
    and every other part are untouched; the document part loses its
    relationships of a macro type and keeps the others, in order; an
    element either is as it was, or it was a control element found below
    the root for the rId of a macro relationship and is now detached. *)
Lemma remove_macro_relationships_exact s self :
  rIds_unique (rels (the_part s self)) ->
  exists s', _remove_macro_relationships self s = (s', Ok tt)
    /\ shrinks s s'
    /\ package_rels s' = package_rels s
    /\ length (objects s') = length (objects s)
    /\ (forall q, q <> self -> the_part s' q = the_part s q)
    /\ the_part s' self
       = with_rels (the_part s self) (List.filter not_macro (rels (the_part s self)))
    /\ (forall x e', xml s' !! x = Some e' ->
          xml s !! x = Some e'
          \/ exists e rel,
               In rel (rels (the_part s self))
               /\ str_in (reltype rel) macro_reltypes = true
               /\ In x (xpath_control (xml s) (element (the_part s self)) (rId rel))
               /\ xml s !! x = Some e /\ e' = detached e).
Proof.
  intros Hnd. unfold _remove_macro_relationships, bind, gets.
  set (rels0 := rels (the_part s self)) in *.
  set (root := element (the_part s self)).
  set (l := map rId (List.filter (fun rel => str_in (reltype rel) macro_reltypes) rels0)).
  change (exists s', for_each l (cascade_one self) s = (s', Ok tt)
            /\ shrinks s s'
            /\ package_rels s' = package_rels s
            /\ length (objects s') = length (objects s)
            /\ (forall q, q <> self -> the_part s' q = the_part s q)
            /\ the_part s' self = with_rels (the_part s self) (List.filter not_macro rels0)
            /\ (forall x e', xml s' !! x = Some e' ->
                  xml s !! x = Some e'
                  \/ exists e rel,
                       In rel rels0
                       /\ str_in (reltype rel) macro_reltypes = true
                       /\ In x (xpath_control (xml s) root (rId rel))
                       /\ xml s !! x = Some e /\ e' = detached e)).
  assert (Hl : NoDup l).
  { apply (rIds_unique_sublist rels0); [|exact Hnd]. apply sublist_List_filter. }
  assert (Hmem : forall rid, In rid l ->
                   exists rel, In rel rels0 /\ str_in (reltype rel) macro_reltypes = true
                               /\ rId rel = rid).
  { intros rid Hrid. unfold l in Hrid. apply in_map_iff in Hrid as (r & Heq & Hr).
    apply filter_In in Hr as (Hr & Hm). now exists r. }
  pose (I := fun (pre post : list string) (st : State) =>
               shrinks s st
               /\ package_rels st = package_rels s
               /\ length (objects st) = length (objects s)
               /\ (forall q, q <> self -> the_part st q = the_part s q)
               /\ the_part st self
                  = with_rels (the_part s self)
                      (List.filter (fun r => negb (str_in (rId r) pre)) rels0)
               /\ (forall x e', xml st !! x = Some e' ->
                     xml s !! x = Some e'
                     \/ exists e rid,
                          In rid pre /\ In x (xpath_control (xml s) root rid)
                          /\ xml s !! x = Some e /\ e' = detached e)).
  destruct (for_each_inv I (cascade_one self) l) with (s := s)
    as (s' & Hrun & Hsh & Hpkg & Hlen & Hother & Hself & Hxml).
  - intros pre a post st Hsplit (Hsh & Hpkg & Hlen & Hother & Hself & Hxml).
    assert (Ha : In a l) by (rewrite Hsplit; apply in_or_app; right; now left).
    assert (Hfresh : ~ In a pre).
    { rewrite Hsplit in Hl. apply NoDup_app in Hl as (_ & Hdisj & _).
      intros Hin. apply (Hdisj a); [now apply list_elem_of_In|].
      apply list_elem_of_In. now left. }
    destruct (Hmem a Ha) as (r0 & Hr0 & _ & Hr0id).
    destruct (cascade_one_exact st self a)
      as (st' & Hrun & Hsh' & Hpkg' & Hlen' & Hother' & Hself' & Hframe & Hdet).
    { exists r0. split; [|exact Hr0id]. rewrite Hself. simpl.
      apply filter_In. split; [exact Hr0|]. apply negb_true_iff.
      destruct (str_in (rId r0) pre) eqn:Hin; [|reflexivity].
      apply str_in_In in Hin. congruence. }
    assert (Hroot : element (the_part st self) = root) by now rewrite Hself.
    rewrite Hroot in Hframe, Hdet.
    exists st'. split; [exact Hrun|].
    refine (conj (shrinks_trans _ _ _ Hsh Hsh')
              (conj _ (conj _ (conj _ (conj _ _))))); try congruence.
    + intros q Hq. rewrite (Hother' q Hq). now apply Hother.
    + rewrite Hself', Hself. simpl rels. rewrite with_rels_twice. f_equal.
      rewrite filter_both. apply filter_ext. intros r.
      rewrite str_in_snoc, negb_orb. reflexivity.
    + intros x e' He'.
      destruct (in_dec Nat.eq_dec x (xpath_control (xml st) root a)) as [Hin|Hnot].
      * assert (Hlt : x < length (xml st)) by (now apply xpath_control_In in Hin).
        destruct (lookup_lt_is_Some_2 (xml st) x Hlt) as (e_st & He_st).
        rewrite (Hdet x e_st Hin He_st) in He'. injection He' as <-.
        right. destruct (Hxml x e_st He_st) as [Hsame|(e & rid & Hrid & Hx & He & ->)].
        -- exists e_st, a. split; [apply in_or_app; right; now left|].
           split; [now apply (xpath_control_shrinks s st)|]. now split.
        -- exists e, rid. split; [apply in_or_app; now left|].
           split; [exact Hx|]. split; [exact He|]. apply detached_twice.
      * rewrite (Hframe x Hnot) in He'.
        destruct (Hxml x e' He') as [Hsame|(e & rid & Hrid & Hx & He & ->)];
          [now left|].
        right. exists e, rid. split; [apply in_or_app; now left|]. now repeat split.
  - refine (conj (shrinks_refl s) (conj eq_refl (conj eq_refl (conj _ (conj _ _))))).
    + reflexivity.
    + simpl. rewrite forallb_filter_id by (apply forallb_forall; reflexivity).
      symmetry. apply with_rels_same.
    + intros x e' He'. now left.
  - exists s'. split; [exact Hrun|].
    refine (conj Hsh (conj Hpkg (conj Hlen (conj Hother (conj _ _))))).
    + rewrite Hself. f_equal. now apply macro_rIds_filter.
    + intros x e' He'.
      destruct (Hxml x e' He') as [Hsame|(e & rid & Hrid & Hx & He & ->)]; [now left|].
      destruct (Hmem rid Hrid) as (rel & Hrel & Hm & <-).
      right. exists e, rel. now repeat split.
Qed.

(** ** What a stripping [save] keeps *)

Lemma retyped_xml self s : xml (retyped self s) = xml s.
Proof. reflexivity. Qed.

Lemma retyped_element self s q :
  element (the_part (retyped self s) q) = element (the_part s q).
Proof.
  destruct (decide (q = self)) as [->|Hne]; [|now rewrite retyped_other].
  destruct (Nat.lt_ge_cases self (length (objects s))) as [Hlt|Hge].
  - now rewrite retyped_self.
  - unfold retyped, set_content_type, modify. cbn [fst].
    now rewrite the_part_set_outside.
Qed.

(** Flipping the content type of a macro-enabled document part does not
    change which parts the sweep collects. *)
Lemma is_vba_part_retyped self s q :
  content_type (the_part s self) = CT.WML_DOCUMENT_MACRO_ENABLED_MAIN ->
  is_vba_part (the_part (retyped self s) q) = is_vba_part (the_part s q).
Proof.
  intros Hct. destruct (decide (q = self)) as [->|Hne]; [|now rewrite retyped_other].
  destruct (Nat.lt_ge_cases self (length (objects s))) as [Hlt|Hge].
  - rewrite retyped_self by assumption. unfold is_vba_part. simpl. now rewrite Hct.
  - unfold retyped, set_content_type, modify. cbn [fst].
    now rewrite the_part_set_outside.
Qed.

Lemma save_strips_exact self path_or_stream preserve_macros s :
  well_formed s self ->
  will_strip_macros self path_or_stream preserve_macros s = true ->
  exists s', save self path_or_stream preserve_macros s
             = (s', Ok (corrected_path path_or_stream))
    /\ stripped self s s'
    /\ (forall src rel, In rel (source_rels s src) ->
          vba_target s rel = false -> macro_rel_of self src rel = false ->
          In rel (source_rels s' src))
    /\ (forall x e', xml s' !! x = Some e' ->
          xml s !! x = Some e'
          \/ exists e rel,
               In rel (rels (the_part s self))
               /\ str_in (reltype rel) macro_reltypes = true
               /\ In x (xpath_control (xml s) (element (the_part s self)) (rId rel))
               /\ xml s !! x = Some e /\ e' = detached e).
Proof.
  intros Hwf Hstrip.
  destruct (save_strips self path_or_stream preserve_macros s Hwf Hstrip)
    as (s' & Hsave & Hstripped).
  exists s'. split; [exact Hsave|]. split; [exact Hstripped|].
  pose proof (well_formed_dicts s self Hwf) as Hd.
  assert (Hself : self < length (objects s)) by apply Hwf.
  assert (Hct : content_type (the_part s self) = CT.WML_DOCUMENT_MACRO_ENABLED_MAIN).
  { unfold will_strip_macros in Hstrip. apply andb_true_iff in Hstrip as (Hct & _).
    now apply String.eqb_eq in Hct. }
  revert Hsave. unfold save, bind, gets. rewrite Hstrip.
  unfold set_content_type, modify. fold (set_content_type self CT.WML_DOCUMENT_MAIN).
  change (set_part self _ s) with (retyped self s).
  pose proof (retyped_dicts self s Hd) as Hd0.
  destruct (remove_macro_relationships_exact (retyped self s) self (Hd0 (OfPart self)))
    as (s1 & Hrun1 & Hsh1 & Hpkg1 & Hlen1 & Hother1 & Hself1 & Hxml1).
  rewrite Hrun1.
  destruct (remove_vba_parts_keeps s1 self (shrinks_dicts _ _ Hsh1 Hd0))
    as (s2 & Hrun2 & Hsh2 & Hkeep2).
  destruct (remove_vba_parts_ok s1 self (shrinks_dicts _ _ Hsh1 Hd0))
    as (s2' & Hrun2' & _ & Hxml2 & _).
  destruct (run_unique _ _ _ _ _ _ Hrun2 Hrun2') as (<- & _).
  rewrite Hrun2. intros [= <-]. split.
  - intros src rel Hin Hvba Hmacro. apply Hkeep2.
    + destruct src as [|q]; simpl.
      * rewrite Hpkg1. exact Hin.
      * destruct (decide (q = self)) as [->|Hne].
        -- rewrite Hself1. simpl. apply filter_In. split.
           ++ change (In rel (source_rels (retyped self s) (OfPart self))).
              now rewrite retyped_rels.
           ++ unfold macro_rel_of in Hmacro. rewrite Nat.eqb_refl in Hmacro.
              cbn [andb] in Hmacro. unfold not_macro. now rewrite Hmacro.
        -- rewrite (Hother1 q Hne).
           change (In rel (source_rels (retyped self s) (OfPart q))).
           now rewrite retyped_rels.
    + unfold vba_target in *. destruct (target rel) as [t|u]; [|reflexivity].
      rewrite <- Hvba, <- (is_vba_part_retyped self s t Hct).
      apply is_vba_part_same. apply (sh_attributes _ _ Hsh1).
  - intros x e' He'. rewrite Hxml2 in He'.
    destruct (Hxml1 x e' He') as [Hsame|(e & rel & Hrel & Hm & Hx & He & ->)];
      [now left|].
    right. exists e, rel. rewrite retyped_element in Hx.
    split; [|now repeat split].
    change (In rel (source_rels (retyped self s) (OfPart self))) in Hrel.
    now rewrite retyped_rels in Hrel.
Qed.

Lemma stripped_is_vba_part self s s' q :
  content_type (the_part s self) = CT.WML_DOCUMENT_MACRO_ENABLED_MAIN ->
  stripped self s s' -> is_vba_part (the_part s' q) = is_vba_part (the_part s q).
Proof.
  intros Hct Hst. rewrite <- (is_vba_part_retyped self s q Hct).
  apply is_vba_part_same. apply (sh_attributes _ _ (st_shrinks _ _ _ Hst)).
Qed.

Lemma stripped_rels self s s' src rel :
  stripped self s s' -> In rel (source_rels s' src) -> In rel (source_rels s src).
Proof.
  intros Hst Hin. rewrite <- (retyped_rels self s src).
  apply (sublist_In _ _ _ (sh_rels _ _ (st_shrinks _ _ _ Hst) src)). exact Hin.
Qed.

Lemma will_strip_content_type self path_or_stream preserve_macros s :
  will_strip_macros self path_or_stream preserve_macros s = true ->
  content_type (the_part s self) = CT.WML_DOCUMENT_MACRO_ENABLED_MAIN.
Proof.
  unfold will_strip_macros. intros H. apply andb_true_iff in H as (H & _).
  now apply String.eqb_eq in H.
Qed.

(** The parts of a stripped package are the parts reached along the
    relationships the strip keeps. *)
Lemma stripped_parts self s s' :
  content_type (the_part s self) = CT.WML_DOCUMENT_MACRO_ENABLED_MAIN ->
  stripped self s s' ->
  (forall src rel, In rel (source_rels s src) ->
     vba_target s rel = false -> macro_rel_of self src rel = false ->
     In rel (source_rels s' src)) ->
  forall q, In q (parts s') <-> clean_reach s self q.
Proof.
  intros Hct Hst Hkeep q. rewrite parts_reach. split.
  - induction 1 as [rel q Hrel Hq | p rel q Hp IH Hrel Hq].
    + apply (clean_root s self rel q); [|exact Hq|].
      * apply (stripped_rels self s s' OfPackage rel Hst Hrel).
      * rewrite <- (stripped_is_vba_part self s s' q Hct Hst).
        apply (st_no_vba_parts _ _ _ Hst). now apply (parts_root s' rel q).
    + apply (clean_step s self p rel q); [exact IH| |exact Hq| |].
      * apply (stripped_rels self s s' (OfPart p) rel Hst Hrel).
      * rewrite <- (stripped_is_vba_part self s s' q Hct Hst).
        apply (st_no_vba_parts _ _ _ Hst). apply parts_reach.
        now apply (reach_step s' p rel q).
      * unfold macro_rel_of. destruct (Nat.eqb p self) eqn:Heq; [|reflexivity].
        apply Nat.eqb_eq in Heq. subst p. simpl.
        now apply (st_no_macro_rels _ _ _ Hst).
  - induction 1 as [rel q Hrel Hq Hvba | p rel q Hp IH Hrel Hq Hvba Hmacro].
    + apply (reach_root s' rel q); [|exact Hq].
      apply (Hkeep OfPackage rel Hrel); [|reflexivity].
      unfold vba_target. now rewrite Hq.
    + apply (reach_step s' p rel q); [exact IH| |exact Hq].
      apply (Hkeep (OfPart p) rel Hrel); [|exact Hmacro].
      unfold vba_target. now rewrite Hq.
Qed.

Lemma dicts_Forall s : dicts s -> Forall (fun x => rIds_unique (rels x)) (objects s).
Proof.
  intros Hd. apply Forall_forall. intros x Hx.
  apply list_elem_of_lookup in Hx as (p & Hp).
  rewrite <- (the_part_lookup s p x Hp). apply (Hd (OfPart p)).
Qed.

Lemma retyped_well_formed self s : well_formed s self -> well_formed (retyped self s) self.
Proof.
  intros Hwf. pose proof (retyped_dicts self s (well_formed_dicts s self Hwf)) as Hd.
  destruct Hwf as (Hself & _ & _ & Hq).
  split; [|split; [|split]].
  - unfold retyped, set_content_type, modify. cbn [fst].
    now rewrite objects_set_part_length.
  - apply (Hd OfPackage).
  - now apply dicts_Forall.
  - change (rels (the_part (retyped self s) self))
      with (source_rels (retyped self s) (OfPart self)).
    now rewrite retyped_rels.
Qed.

(** Deleting relationships and detaching elements keeps a state
    well-formed. *)
Lemma shrinks_well_formed self s s' :
  shrinks s s' -> well_formed s self -> well_formed s' self.
Proof.
  intros Hsh Hwf.
  pose proof (shrinks_dicts s s' Hsh (well_formed_dicts s self Hwf)) as Hd.
  destruct Hwf as (Hself & _ & _ & Hq).
  split; [|split; [|split]].
  - now rewrite (sh_length _ _ Hsh).
  - apply (Hd OfPackage).
  - now apply dicts_Forall.
  - apply Forall_forall. intros rel Hrel. rewrite Forall_forall in Hq. apply Hq.
    apply (elem_of_sublist _ _ _ Hrel). apply (sh_rels _ _ Hsh (OfPart self)).
Qed.

(** ** Further results on [save] and its two passes *)

(** X1 (frame of a stripping save).  A stripping [save] creates and destroys
    no part object and changes no attribute of a part except the content
    type of the document part; it adds no relationship and reorders none;
    and the only relationships it deletes are relationships of a macro type
    held by the document part and relationships to a part with a VBA
    content type or partname. *)
Theorem save_strip_frame s self path_or_stream preserve_macros :
  well_formed s self ->
  will_strip_macros self path_or_stream preserve_macros s = true ->
  exists s' dest,
    save self path_or_stream preserve_macros s = (s', Ok dest)
    /\ length (objects s') = length (objects s)
    /\ (forall q, partname (the_part s' q) = partname (the_part s q)
                  /\ element (the_part s' q) = element (the_part s q)
                  /\ lazy_numbering_part (the_part s' q) = lazy_numbering_part (the_part s q)
                  /\ (q <> self -> content_type (the_part s' q) = content_type (the_part s q)))
    /\ (forall src, sublist (source_rels s' src) (source_rels s src))
    /\ (forall src rel, In rel (source_rels s src) ->
          vba_target s rel = false -> macro_rel_of self src rel = false ->
          In rel (source_rels s' src)).
Proof.
  intros Hwf Hstrip.
  destruct (save_strips_exact self path_or_stream preserve_macros s Hwf Hstrip)
    as (s' & Hrun & [Hsh _ _ _] & Hkeep & _).
  exists s', (corrected_path path_or_stream). split; [exact Hrun|].
  assert (Hself : self < length (objects s)) by apply Hwf.
  split; [|split; [|split; [|exact Hkeep]]].
  - rewrite (sh_length _ _ Hsh). unfold retyped, set_content_type, modify. cbn [fst].
    apply objects_set_part_length.
  - intros q. destruct (sh_attributes _ _ Hsh q) as (Hct & Hname & Hel & Hlazy).
    destruct (decide (q = self)) as [->|Hne].
    + rewrite retyped_self in Hname, Hel, Hlazy by assumption. simpl in *.
      repeat split; try assumption. congruence.
    + rewrite retyped_other in Hct, Hname, Hel, Hlazy by assumption.
      now repeat split.
  - intros src. rewrite <- (retyped_rels self s src). apply (sh_rels _ _ Hsh).
Qed.

Lemma save_strip_frame_witness :
  well_formed scenario_A 0
  /\ will_strip_macros 0 (Path "report.docx") None scenario_A = true
  /\ exists s' dest,
    save 0 (Path "report.docx") None scenario_A = (s', Ok dest)
    /\ length (objects s') = length (objects scenario_A)
    /\ (forall q, partname (the_part s' q) = partname (the_part scenario_A q)
                  /\ element (the_part s' q) = element (the_part scenario_A q)
                  /\ lazy_numbering_part (the_part s' q)
                     = lazy_numbering_part (the_part scenario_A q)
                  /\ (q <> 0 -> content_type (the_part s' q)
                                = content_type (the_part scenario_A q)))
    /\ (forall src, sublist (source_rels s' src) (source_rels scenario_A src))
    /\ (forall src rel, In rel (source_rels scenario_A src) ->
          vba_target scenario_A rel = false -> macro_rel_of 0 src rel = false ->
          In rel (source_rels s' src)).
Proof.
  assert (Hwf : well_formed scenario_A 0)
    by (unfold well_formed, rIds_unique, quote_free; compute_done).
  split; [exact Hwf|]. split; [reflexivity|].
  apply (save_strip_frame scenario_A 0 (Path "report.docx") None Hwf). reflexivity.
Defined.

(** X2 (markup frame).  After a stripping [save] every element has its tag
    and attributes, and either is exactly as it was or was a control element
    found below the document root for the rId of a macro relationship of
    the document part and is now detached.  In particular an element that
    is not below the root of the document part -- the markup of a header,
    say -- is never touched, whatever it refers to. *)
Theorem save_strip_markup_frame s self path_or_stream preserve_macros :
  well_formed s self ->
  will_strip_macros self path_or_stream preserve_macros s = true ->
  exists s' dest,
    save self path_or_stream preserve_macros s = (s', Ok dest)
    /\ length (xml s') = length (xml s)
    /\ (forall x e', xml s' !! x = Some e' ->
          xml s !! x = Some e'
          \/ exists e rel,
               In rel (rels (the_part s self))
               /\ str_in (reltype rel) macro_reltypes = true
               /\ In x (xpath_control (xml s) (element (the_part s self)) (rId rel))
               /\ xml s !! x = Some e /\ e' = detached e)
    /\ (forall x, has_ancestor (xml s) (length (xml s)) (element (the_part s self)) x
                  = false ->
                  xml s' !! x = xml s !! x).
Proof.
  intros Hwf Hstrip.
  destruct (save_strips_exact self path_or_stream preserve_macros s Hwf Hstrip)
    as (s' & Hrun & [Hsh _ _ _] & _ & Hxml).
  exists s', (corrected_path path_or_stream). split; [exact Hrun|].
  pose proof (sh_xml_length _ _ Hsh) as Hlen. rewrite retyped_xml in Hlen.
  split; [exact Hlen|]. split; [exact Hxml|].
  intros x Hout. destruct (xml s' !! x) as [e'|] eqn:He'.
  - destruct (Hxml x e' He') as [Hsame|(e & rel & _ & _ & Hx & _)]; [now symmetry|].
    apply xpath_control_In in Hx as (_ & Hanc & _). congruence.
  - symmetry. apply lookup_ge_None. apply lookup_ge_None in He'. lia.
Qed.

Lemma save_strip_markup_frame_witness :
  well_formed header_control 0
  /\ will_strip_macros 0 (Stream 0) None header_control = true
  /\ exists s' dest,
    save 0 (Stream 0) None header_control = (s', Ok dest)
    /\ length (xml s') = length (xml header_control)
    /\ (forall x e', xml s' !! x = Some e' ->
          xml header_control !! x = Some e'
          \/ exists e rel,
               In rel (rels (the_part header_control 0))
               /\ str_in (reltype rel) macro_reltypes = true
               /\ In x (xpath_control (xml header_control)
                          (element (the_part header_control 0)) (rId rel))
               /\ xml header_control !! x = Some e /\ e' = detached e)
    /\ (forall x, has_ancestor (xml header_control) (length (xml header_control))
                    (element (the_part header_control 0)) x = false ->
                  xml s' !! x = xml header_control !! x).
Proof.
  assert (Hwf : well_formed header_control 0)
    by (unfold well_formed, rIds_unique, quote_free; compute_done).
  split; [exact Hwf|]. split; [reflexivity|].
  apply (save_strip_markup_frame header_control 0 (Stream 0) None Hwf). reflexivity.
Defined.

(** X3 (surviving parts).  After a stripping [save] the parts of the package
    are exactly the parts that were reached from the package along
    relationships that are neither macro relationships of the document part
    nor relationships to a part with a VBA content type or partname: a part
    that was reached only through a VBA part leaves the package with it. *)
Theorem save_strip_surviving_parts s self path_or_stream preserve_macros :
  well_formed s self ->
  will_strip_macros self path_or_stream preserve_macros s = true ->
  exists s' dest,
    save self path_or_stream preserve_macros s = (s', Ok dest)
    /\ forall q, In q (parts s') <-> clean_reach s self q.
Proof.
  intros Hwf Hstrip.
  destruct (save_strips_exact self path_or_stream preserve_macros s Hwf Hstrip)
    as (s' & Hrun & Hst & Hkeep & _).
  exists s', (corrected_path path_or_stream). split; [exact Hrun|].
  apply (stripped_parts self s s'); try assumption.
  now apply (will_strip_content_type self path_or_stream preserve_macros).
Qed.

Lemma save_strip_surviving_parts_witness :
  well_formed scenario_A 0
  /\ will_strip_macros 0 (Path "report.docx") None scenario_A = true
  /\ exists s' dest,
    save 0 (Path "report.docx") None scenario_A = (s', Ok dest)
    /\ forall q, In q (parts s') <-> clean_reach scenario_A 0 q.
Proof.
  assert (Hwf : well_formed scenario_A 0)
    by (unfold well_formed, rIds_unique, quote_free; compute_done).
  split; [exact Hwf|]. split; [reflexivity|].
  apply (save_strip_surviving_parts scenario_A 0 (Path "report.docx") None Hwf).
  reflexivity.
Defined.

(** X4 (well-formedness is kept).  [save] on a well-formed state returns a
    well-formed state, whether it strips or not: the document part is still
    a part object, every relationship collection still has distinct rIds. *)
Theorem save_keeps_well_formed s self path_or_stream preserve_macros :
  well_formed s self ->
  exists s' dest,
    save self path_or_stream preserve_macros s = (s', Ok dest)
    /\ well_formed s' self.
Proof.
  intros Hwf.
  destruct (will_strip_macros self path_or_stream preserve_macros s) eqn:Hstrip.
  - destruct (save_strips self path_or_stream preserve_macros s Hwf Hstrip)
      as (s' & Hrun & [Hsh _ _ _]).
    exists s', (corrected_path path_or_stream). split; [exact Hrun|].
    apply (shrinks_well_formed self (retyped self s)); [exact Hsh|].
    now apply retyped_well_formed.
  - exists s, path_or_stream. split; [now apply save_noop | exact Hwf].
Qed.

Lemma save_keeps_well_formed_witness :
  well_formed scenario_A 0
  /\ exists s' dest,
       save 0 (Path "report.docx") None scenario_A = (s', Ok dest)
       /\ well_formed s' 0.
Proof.
  assert (Hwf : well_formed scenario_A 0)
    by (unfold well_formed, rIds_unique, quote_free; compute_done).
  split; [exact Hwf|].
  apply (save_keeps_well_formed scenario_A 0 (Path "report.docx") None Hwf).
Defined.

Lemma filter_none {A} (f : A -> bool) (l : list A) :
  (forall x, In x l -> f x = false) -> List.filter f l = [].
Proof.
  intros H. induction l as [|a l IH]; simpl; [reflexivity|].
  rewrite (H a (or_introl eq_refl)). apply IH. intros x Hx. apply H. now right.
Qed.

Lemma retyped_parts self s q : In q (parts (retyped self s)) <-> In q (parts s).
Proof. rewrite !parts_reach. apply retyped_reach. Qed.

(** X5 (nothing to strip).  When a macro-enabled document part holds no
    relationship of a macro type and the package holds no part with a VBA
    content type or partname, a stripping [save] does nothing but flip the
    content type of the document part: no relationship, part or element is
    touched; no uniqueness of rIds is needed for it to return. *)
Theorem save_strip_only_retypes s self path_or_stream preserve_macros :
  will_strip_macros self path_or_stream preserve_macros s = true ->
  (forall rel, In rel (rels (the_part s self)) ->
               str_in (reltype rel) macro_reltypes = false) ->
  (forall q, In q (parts s) -> is_vba_part (the_part s q) = false) ->
  save self path_or_stream preserve_macros s
  = (retyped self s, Ok (corrected_path path_or_stream)).
Proof.
  intros Hstrip Hrels Hparts.
  pose proof (will_strip_content_type _ _ _ _ Hstrip) as Hct.
  unfold save, bind, gets. rewrite Hstrip.
  unfold set_content_type, modify. fold (set_content_type self CT.WML_DOCUMENT_MAIN).
  change (set_part self _ s) with (retyped self s).
  unfold _remove_macro_relationships, bind, gets.
  change (rels (the_part (retyped self s) self))
    with (source_rels (retyped self s) (OfPart self)).
  rewrite retyped_rels. simpl source_rels.
  rewrite (filter_none _ _ Hrels). simpl.
  unfold _remove_vba_parts, bind, gets.
  rewrite filter_none; [reflexivity|].
  intros q Hq. rewrite (is_vba_part_retyped self s q Hct).
  apply Hparts. now apply (retyped_parts self s q).
Qed.

Lemma save_strip_only_retypes_witness :
  will_strip_macros 0 (Path "out.docm") (Some false) header_control = true
  /\ save 0 (Path "out.docm") (Some false) header_control
     = (retyped 0 header_control, Ok (Path "out.docx")).
Proof.
  split; [reflexivity|].
  apply (save_strip_only_retypes header_control 0 (Path "out.docm") (Some false)).
  - reflexivity.
  - intros rel [<-|[]]. reflexivity.
  - intros q Hq. vm_compute in Hq.
    destruct Hq as [<-|[<-|[<-|[]]]]; reflexivity.
Defined.

(** X6 (the cascade, exactly).  On a document part whose relationships have
    distinct rIds, those of a macro type without a double quote -- they are
    spliced into the XPath string of the query --,
    [_remove_macro_relationships] returns; it leaves the relationships of
    the package and every other part as they were, and the document part
    keeps, in their order, exactly its relationships that are not of a macro
    type (VBA project, VBA data, control), external ones included. *)
Theorem remove_macro_relationships_effect s self :
  rIds_unique (rels (the_part s self)) ->
  (forall rel, In rel (rels (the_part s self)) ->
               str_in (reltype rel) macro_reltypes = true -> quote_free (rId rel)) ->
  exists s', _remove_macro_relationships self s = (s', Ok tt)
    /\ package_rels s' = package_rels s
    /\ length (objects s') = length (objects s)
    /\ (forall q, q <> self -> the_part s' q = the_part s q)
    /\ the_part s' self
       = with_rels (the_part s self) (List.filter not_macro (rels (the_part s self))).
Proof.
  intros Hnd _.
  destruct (remove_macro_relationships_exact s self Hnd)
    as (s' & Hrun & _ & Hpkg & Hlen & Hother & Hself & _).
  exists s'. now repeat split.
Qed.

Lemma remove_macro_relationships_effect_witness :
  rIds_unique (rels (the_part scenario_A 0))
  /\ (forall rel, In rel (rels (the_part scenario_A 0)) ->
                  str_in (reltype rel) macro_reltypes = true -> quote_free (rId rel))
  /\ exists s', _remove_macro_relationships 0 scenario_A = (s', Ok tt)
    /\ package_rels s' = package_rels scenario_A
    /\ length (objects s') = length (objects scenario_A)
    /\ (forall q, q <> 0 -> the_part s' q = the_part scenario_A q)
    /\ the_part s' 0
       = with_rels (the_part scenario_A 0)
           (List.filter not_macro (rels (the_part scenario_A 0))).
Proof.
  assert (Hnd : rIds_unique (rels (the_part scenario_A 0)))
    by (unfold rIds_unique; compute_done).
  assert (Hq : forall rel, In rel (rels (the_part scenario_A 0)) ->
                 str_in (reltype rel) macro_reltypes = true -> quote_free (rId rel)).
  { intros rel Hin _. simpl in Hin. destruct Hin as [<-|[<-|[]]]; reflexivity. }
  split; [exact Hnd|]. split; [exact Hq|].
  apply (remove_macro_relationships_effect scenario_A 0 Hnd Hq).
Defined.

(** X7 (the sweep alone).  On a well-formed state [_remove_vba_parts]
    returns; it leaves the markup and the attributes of every part as they
    were, deletes relationships only, and none but relationships to a part
    with a VBA content type or partname; afterwards no such part is in the
    package.  A part qualifies by its partname alone as well as by its
    content type. *)
Theorem remove_vba_parts_effect s self :
  well_formed s self ->
  exists s', _remove_vba_parts self s = (s', Ok tt)
    /\ xml s' = xml s
    /\ length (objects s') = length (objects s)
    /\ (forall q, same_attributes (the_part s q) (the_part s' q))
    /\ (forall src, sublist (source_rels s' src) (source_rels s src))
    /\ (forall src rel, In rel (source_rels s src) -> vba_target s rel = false ->
                        In rel (source_rels s' src))
    /\ (forall q, In q (parts s') ->
          str_in (content_type (the_part s' q)) vba_content_types = false
          /\ str_in (partname (the_part s' q)) vba_partname_patterns = false).
Proof.
  intros Hwf. pose proof (well_formed_dicts s self Hwf) as Hd.
  destruct (remove_vba_parts_ok s self Hd) as (s' & Hrun & Hsh & Hxml & Hvba).
  destruct (remove_vba_parts_keeps s self Hd) as (s'' & Hrun' & _ & Hkeep).
  destruct (run_unique _ _ _ _ _ _ Hrun Hrun') as (<- & _).
  exists s'. split; [exact Hrun|]. split; [exact Hxml|].
  split; [apply (sh_length _ _ Hsh)|]. split; [apply (sh_attributes _ _ Hsh)|].
  split; [apply (sh_rels _ _ Hsh)|]. split; [exact Hkeep|].
  intros q Hq. specialize (Hvba q Hq). unfold is_vba_part in Hvba.
  destruct (str_in (content_type (the_part s' q)) vba_content_types);
    [discriminate|].
  split; [reflexivity|]. exact Hvba.
Qed.

Lemma remove_vba_parts_effect_witness :
  well_formed scenario_A 0
  /\ exists s', _remove_vba_parts 0 scenario_A = (s', Ok tt)
    /\ xml s' = xml scenario_A
    /\ length (objects s') = length (objects scenario_A)
    /\ (forall q, same_attributes (the_part scenario_A q) (the_part s' q))
    /\ (forall src, sublist (source_rels s' src) (source_rels scenario_A src))
    /\ (forall src rel, In rel (source_rels scenario_A src) ->
                        vba_target scenario_A rel = false ->
                        In rel (source_rels s' src))
    /\ (forall q, In q (parts s') ->
          str_in (content_type (the_part s' q)) vba_content_types = false
          /\ str_in (partname (the_part s' q)) vba_partname_patterns = false).
Proof.
  assert (Hwf : well_formed scenario_A 0)
    by (unfold well_formed, rIds_unique, quote_free; compute_done).
  split; [exact Hwf|].
  apply (remove_vba_parts_effect scenario_A 0 Hwf).
Defined.

(** ** The two extension tests *)

Lemma str_length_app a b :
  String.length (a +:+ b) = String.length a + String.length b.
Proof.
  induction a as [|c a IH]; [reflexivity|].
  change (S (String.length (a +:+ b)) = S (String.length a) + String.length b).
  now rewrite IH.
Qed.

Lemma lower_app a b : Str.lower (a +:+ b) = Str.lower a +:+ Str.lower b.
Proof.
  induction a as [|c a IH]; [reflexivity|].
  change (String (Str.lower_ascii c) (Str.lower (a +:+ b))
          = String (Str.lower_ascii c) (Str.lower a +:+ Str.lower b)).
  now rewrite IH.
Qed.

Lemma drop_app a b n : Str.drop (String.length a + n) (a +:+ b) = Str.drop n b.
Proof.
  induction a as [|c a IH]; [reflexivity|].
  change (Str.drop (String.length a + n) (a +:+ b) = Str.drop n b). exact IH.
Qed.

Lemma take_app a b n :
  Str.take (String.length a + n) (a +:+ b) = a +:+ Str.take n b.
Proof.
  induction a as [|c a IH]; [reflexivity|].
  change (String c (Str.take (String.length a + n) (a +:+ b))
          = String c (a +:+ Str.take n b)).
  now rewrite IH.
Qed.

Lemma drop_length n s : String.length (Str.drop n s) = String.length s - n.
Proof.
  revert n. induction s as [|c s IH]; intros [|n]; simpl; try reflexivity.
  apply IH.
Qed.

Lemma take_0 s : Str.take 0 s = "".
Proof. now destruct s. Qed.

Lemma drop_0 s : Str.drop 0 s = s.
Proof. now destruct s. Qed.

Lemma append_nil_r s : s +:+ "" = s.
Proof.
  induction s as [|c s IH]; [reflexivity|].
  change (String c (s +:+ "") = String c s). now rewrite IH.
Qed.

Lemma append_assoc a b c : (a +:+ b) +:+ c = a +:+ (b +:+ c).
Proof.
  induction a as [|x a IH]; [reflexivity|].
  change (String x ((a +:+ b) +:+ c) = String x (a +:+ (b +:+ c))).
  now rewrite IH.
Qed.

(** A path that ends in [suffix] (of the length of .docm) up to case. *)
Lemma endswith_app a suffix :
  String.length suffix = 5 ->
  Str.endswith (Str.lower (a +:+ suffix)) ".docm"
  = String.eqb (Str.lower suffix) ".docm".
Proof.
  intros Hlen. unfold Str.endswith. rewrite lower_length, str_length_app, Hlen.
  simpl String.length.
  replace (5 <=? String.length a + 5)%nat with true
    by (symmetry; apply Nat.leb_le; lia).
  simpl andb. rewrite <- lower_drop.
  replace (String.length a + 5 - 5) with (String.length a + 0) by lia.
  now rewrite drop_app, drop_0.
Qed.

Lemma drop_last_app a suffix :
  String.length suffix = 5 -> Str.drop_last 5 (a +:+ suffix) = a.
Proof.
  intros Hlen. unfold Str.drop_last. rewrite str_length_app, Hlen.
  replace (String.length a + 5 - 5) with (String.length a + 0) by lia.
  now rewrite take_app, take_0, append_nil_r.
Qed.

(** When the destination is inferred as macro-enabled, its path ends in
    .docm up to case. *)
Lemma preserve_endswith p :
  _should_preserve_macros (Path p) None = true ->
  Str.endswith (Str.lower p) ".docm" = true.
Proof.
  unfold _should_preserve_macros, Str.splitext.
  destruct (_ && _); simpl snd; [|discriminate].
  set (n := Z.to_nat (Str.rfind "." p)).
  intros H. apply String.eqb_eq in H.
  assert (Hlen : String.length p - n = 5).
  { rewrite <- drop_length, <- lower_length. now rewrite H. }
  unfold Str.endswith. rewrite lower_length. simpl String.length.
  apply andb_true_iff. split; [apply Nat.leb_le; lia|].
  replace (String.length p - 5) with n by lia.
  rewrite <- lower_drop. now apply String.eqb_eq.
Qed.

Lemma rfind_bounds c s : (-1 <= Str.rfind c s < Z.of_nat (String.length s))%Z.
Proof.
  induction s as [|x s IH]; simpl; [lia|].
  destruct (0 <=? Str.rfind c s)%Z eqn:H.
  - apply Z.leb_le in H. lia.
  - destruct (Ascii.eqb x c); lia.
Qed.

Lemma rfind_app c a b :
  Str.rfind c (a +:+ b)
  = if (0 <=? Str.rfind c b)%Z then (Z.of_nat (String.length a) + Str.rfind c b)%Z
    else Str.rfind c a.
Proof.
  induction a as [|x a IH].
  - change ("" +:+ b) with b. pose proof (rfind_bounds c b) as Hb.
    destruct (0 <=? Str.rfind c b)%Z eqn:H; simpl.
    + lia.
    + apply Z.leb_gt in H. lia.
  - change (Str.rfind c (String x (a +:+ b))
            = if (0 <=? Str.rfind c b)%Z
              then (Z.of_nat (String.length (String x a)) + Str.rfind c b)%Z
              else Str.rfind c (String x a)).
    simpl Str.rfind. rewrite IH. destruct (0 <=? Str.rfind c b)%Z eqn:H.
    + apply Z.leb_le in H.
      replace (0 <=? Z.of_nat (String.length a) + Str.rfind c b)%Z with true
        by (symmetry; apply Z.leb_le; lia).
      simpl String.length. lia.
    + reflexivity.
Qed.

Lemma hidden_docm_not_preserved dir :
  _should_preserve_macros (Path (dir +:+ "/.docm")) None = false.
Proof.
  assert (Hsep : Str.rfind "/" (dir +:+ "/.docm") = Z.of_nat (String.length dir)).
  { rewrite rfind_app. change (Str.rfind "/" "/.docm") with 0%Z. simpl. lia. }
  assert (Hdot : Str.rfind "." (dir +:+ "/.docm") = (Z.of_nat (String.length dir) + 1)%Z).
  { rewrite rfind_app. change (Str.rfind "." "/.docm") with 1%Z. reflexivity. }
  unfold _should_preserve_macros, Str.splitext. rewrite Hsep, Hdot.
  replace (Z.to_nat (Z.of_nat (String.length dir) + 1
                     - (Z.of_nat (String.length dir) + 1))) with 0 by lia.
  simpl Str.has_non_dot. now rewrite andb_false_r.
Qed.

Lemma hidden_docm_corrected dir :
  corrected_path (Path (dir +:+ "/.docm")) = Path (dir +:+ "/.docx").
Proof.
  unfold corrected_path.
  replace (dir +:+ "/.docm") with ((dir +:+ "/") +:+ ".docm")
    by (now rewrite append_assoc).
  rewrite endswith_app by reflexivity. simpl String.eqb.
  rewrite drop_last_app by reflexivity. now rewrite append_assoc.
Qed.

(** X8 (the two extension tests).  Whenever the destination is inferred as
    macro-enabled, its path ends in .docm up to case; the converse fails.  A
    file named just .docm, in any directory, has no extension for
    [os.path.splitext]: with no flag given the decision is to strip, while
    the path correction, which looks at the end of the path, rewrites the
    name to .docx. *)
Theorem preserve_decision_and_path_end :
  (forall p, _should_preserve_macros (Path p) None = true ->
             Str.endswith (Str.lower p) ".docm" = true)
  /\ (forall dir,
        _should_preserve_macros (Path (dir +:+ "/.docm")) None = false
        /\ Str.endswith (Str.lower (dir +:+ "/.docm")) ".docm" = true
        /\ corrected_path (Path (dir +:+ "/.docm")) = Path (dir +:+ "/.docx"))
  /\ _should_preserve_macros (Path ".docm") None = false
  /\ corrected_path (Path ".docm") = Path ".docx".
Proof.
  split; [exact preserve_endswith|]. split; [|split; reflexivity].
  intros dir. split; [apply hidden_docm_not_preserved|].
  split; [|apply hidden_docm_corrected].
  replace (dir +:+ "/.docm") with ((dir +:+ "/") +:+ ".docm")
    by (now rewrite append_assoc).
  now rewrite endswith_app.
Qed.

Lemma corrected_path_not_docm d p' :
  corrected_path d = Path p' -> Str.endswith (Str.lower p') ".docm" = false.
Proof.
  destruct d as [p|f]; simpl; [|discriminate].
  destruct (Str.endswith (Str.lower p) ".docm") eqn:Hends.
  - intros [= <-]. now rewrite endswith_app.
  - now intros [= <-].
Qed.

Lemma corrected_path_idempotent d : corrected_path (corrected_path d) = corrected_path d.
Proof.
  destruct (corrected_path d) as [p'|f] eqn:Hd.
  - simpl. now rewrite (corrected_path_not_docm d p' Hd).
  - reflexivity.
Qed.

Lemma corrected_path_length p p' :
  corrected_path (Path p) = Path p' -> String.length p' = String.length p.
Proof.
  simpl. destruct (Str.endswith (Str.lower p) ".docm") eqn:Hends.
  - intros [= <-]. destruct (endswith_docm_split p Hends) as (ext & Hp & Hext).
    rewrite Hp at 2. rewrite !str_length_app. f_equal.
    now rewrite <- (lower_length ext), Hext.
  - now intros [= <-].
Qed.

(** X9 (the destination of a stripped package).  After a stripping [save]
    the destination handed to the serializer never ends in .docm, in any
    case; a path keeps its length and a stream is handed over as it is;
    correcting the destination again would change nothing. *)
Theorem save_strip_destination s self path_or_stream preserve_macros :
  well_formed s self ->
  will_strip_macros self path_or_stream preserve_macros s = true ->
  exists s' dest,
    save self path_or_stream preserve_macros s = (s', Ok dest)
    /\ (forall p', dest = Path p' -> Str.endswith (Str.lower p') ".docm" = false)
    /\ (forall p p', path_or_stream = Path p -> dest = Path p' ->
                     String.length p' = String.length p)
    /\ (forall f, path_or_stream = Stream f -> dest = Stream f)
    /\ corrected_path dest = dest.
Proof.
  intros Hwf Hstrip.
  destruct (save_strips self path_or_stream preserve_macros s Hwf Hstrip)
    as (s' & Hrun & _).
  exists s', (corrected_path path_or_stream). split; [exact Hrun|].
  split; [|split; [|split]].
  - intros p'. apply corrected_path_not_docm.
  - intros p p' ->. apply corrected_path_length.
  - now intros f ->.
  - apply corrected_path_idempotent.
Qed.

Lemma save_strip_destination_witness :
  well_formed scenario_A 0
  /\ will_strip_macros 0 (Path "Macros.DocM") (Some false) scenario_A = true
  /\ exists s' dest,
    save 0 (Path "Macros.DocM") (Some false) scenario_A = (s', Ok dest)
    /\ (forall p', dest = Path p' -> Str.endswith (Str.lower p') ".docm" = false)
    /\ (forall p p', Path "Macros.DocM" = Path p -> dest = Path p' ->
                     String.length p' = String.length p)
    /\ (forall f, Path "Macros.DocM" = Stream f -> dest = Stream f)
    /\ corrected_path dest = dest.
Proof.
  assert (Hwf : well_formed scenario_A 0)
    by (unfold well_formed, rIds_unique, quote_free; compute_done).
  split; [exact Hwf|]. split; [reflexivity|].
  apply (save_strip_destination scenario_A 0 (Path "Macros.DocM") (Some false) Hwf).
  reflexivity.
Defined.

(** X10 (dots of directories).  The extension is that of the last component
    of the path: when the file name has no dot, the decision without a flag
    is to strip, whatever dots the directories before it carry -- a
    directory named like a .docm file included. *)
Theorem no_extension_is_stripped dir name :
  Str.rfind "." name = (-1)%Z -> Str.rfind "/" name = (-1)%Z ->
  _should_preserve_macros (Path (dir +:+ "/" +:+ name)) None = false
  /\ _should_preserve_macros (Path name) None = false.
Proof.
  intros Hdot Hsep. split.
  - assert (H1 : Str.rfind "/" (dir +:+ "/" +:+ name) = Z.of_nat (String.length dir)).
    { rewrite (rfind_app "/" dir ("/" +:+ name)).
      change ("/" +:+ name) with (String "/" name). simpl. rewrite Hsep. simpl. lia. }
    assert (H2 : Str.rfind "." (dir +:+ "/" +:+ name) = Str.rfind "." dir).
    { rewrite (rfind_app "." dir ("/" +:+ name)).
      change ("/" +:+ name) with (String "/" name). simpl. now rewrite Hdot. }
    unfold _should_preserve_macros, Str.splitext. rewrite H1, H2.
    pose proof (rfind_bounds "." dir) as Hb.
    replace (Z.of_nat (String.length dir) <? Str.rfind "." dir)%Z with false
      by (symmetry; apply Z.ltb_ge; lia).
    reflexivity.
  - unfold _should_preserve_macros, Str.splitext. rewrite Hdot, Hsep. reflexivity.
Qed.

Lemma no_extension_is_stripped_witness :
  Str.rfind "." "report" = (-1)%Z /\ Str.rfind "/" "report" = (-1)%Z
  /\ _should_preserve_macros (Path ("archive.docm" +:+ "/" +:+ "report")) None = false
  /\ _should_preserve_macros (Path "report") None = false.
Proof.
  split; [reflexivity|]. split; [reflexivity|].
  apply (no_extension_is_stripped "archive.docm" "report"); reflexivity.
Defined.

Lemma lower_ascii_dot c : Str.lower_ascii c = "."%char -> c = "."%char.
Proof.
  destruct c as [[|] [|] [|] [|] [|] [|] [|] [|]]; vm_compute; intros H;
    first [reflexivity | discriminate H].
Qed.

Lemma eqb_of_lower c x y :
  Str.lower_ascii c = x -> Str.lower_ascii y <> x -> Ascii.eqb c y = false.
Proof. intros Hc Hy. apply Ascii.eqb_neq. intros ->. contradiction. Qed.

(** An extension that is .docm up to case: a dot, then four characters that
    are neither dots nor slashes. *)
Lemma docm_extension ext :
  Str.lower ext = ".docm" ->
  Str.rfind "." ext = 0%Z /\ Str.rfind "/" ext = (-1)%Z.
Proof.
  destruct ext as [|c0 [|c1 [|c2 [|c3 [|c4 [|c5 ext]]]]]]; try discriminate.
  simpl. intros [= H0 H1 H2 H3 H4].
  apply lower_ascii_dot in H0. subst c0.
  rewrite (eqb_of_lower c1 "d" "."), (eqb_of_lower c2 "o" "."),
    (eqb_of_lower c3 "c" "."), (eqb_of_lower c4 "m" ".") by (assumption || discriminate).
  rewrite (eqb_of_lower c1 "d" "/"), (eqb_of_lower c2 "o" "/"),
    (eqb_of_lower c3 "c" "/"), (eqb_of_lower c4 "m" "/") by (assumption || discriminate).
  split; reflexivity.
Qed.

Lemma get_app a b n : String.get (String.length a + n) (a +:+ b) = String.get n b.
Proof.
  induction a as [|x a IH]; [reflexivity|].
  change (String.get (String.length a + n) (a +:+ b) = String.get n b). exact IH.
Qed.

Lemma has_non_dot_first p i n c :
  String.get i p = Some c -> c <> "."%char -> Str.has_non_dot p i (S n) = true.
Proof.
  intros Hget Hne. simpl. rewrite Hget.
  destruct c as [[|] [|] [|] [|] [|] [|] [|] [|]]; try reflexivity.
  exfalso. now apply Hne.
Qed.

(** A file name that starts with a character other than the dot and ends in
    an extension that is .docm up to case, after a prefix that is empty or
    ends in a slash. *)
Lemma docm_name_preserved prefix c stem ext :
  Str.rfind "/" prefix = (Z.of_nat (String.length prefix) - 1)%Z ->
  c <> "."%char -> c <> "/"%char -> Str.rfind "/" stem = (-1)%Z ->
  Str.lower ext = ".docm" ->
  _should_preserve_macros (Path (prefix +:+ String c stem +:+ ext)) None = true.
Proof.
  intros Hprefix Hdot Hslash Hstem Hext.
  destruct (docm_extension ext Hext) as (Hdot_ext & Hsep_ext).
  set (name := String c stem).
  assert (Hsep_name : Str.rfind "/" name = (-1)%Z).
  { unfold name. simpl. rewrite Hstem. simpl.
    now rewrite (proj2 (Ascii.eqb_neq c "/") Hslash). }
  assert (Hsep : Str.rfind "/" (prefix +:+ name +:+ ext)
                 = (Z.of_nat (String.length prefix) - 1)%Z).
  { assert (Hin : Str.rfind "/" (name +:+ ext) = (-1)%Z).
    { rewrite (rfind_app "/" name ext), Hsep_ext.
      change (0 <=? -1)%Z with false. cbv iota. exact Hsep_name. }
    rewrite (rfind_app "/" prefix (name +:+ ext)), Hin.
    change (0 <=? -1)%Z with false. cbv iota. exact Hprefix. }
  assert (Hdot_all : Str.rfind "." (prefix +:+ name +:+ ext)
                     = Z.of_nat (String.length prefix + String.length name)).
  { assert (Hin : Str.rfind "." (name +:+ ext) = Z.of_nat (String.length name)).
    { rewrite (rfind_app "." name ext), Hdot_ext.
      change (0 <=? 0)%Z with true. cbv iota. lia. }
    rewrite (rfind_app "." prefix (name +:+ ext)), Hin.
    destruct (0 <=? Z.of_nat (String.length name))%Z eqn:Hle.
    - lia.
    - apply Z.leb_gt in Hle. lia. }
  unfold _should_preserve_macros, Str.splitext. rewrite Hsep, Hdot_all.
  replace (Z.of_nat (String.length prefix) - 1
           <? Z.of_nat (String.length prefix + String.length name))%Z with true
    by (symmetry; apply Z.ltb_lt; lia).
  replace (Z.to_nat (Z.of_nat (String.length prefix) - 1 + 1))
    with (String.length prefix + 0) by lia.
  replace (Z.to_nat (Z.of_nat (String.length prefix + String.length name)
                     - (Z.of_nat (String.length prefix) - 1 + 1)))
    with (S (String.length stem)) by (unfold name; simpl String.length; lia).
  rewrite (has_non_dot_first _ _ _ c); [|now rewrite get_app|exact Hdot].
  simpl andb. cbv iota. simpl snd. rewrite Nat2Z.id.
  rewrite drop_app.
  change (S (String.length stem)) with (String.length name).
  rewrite <- (Nat.add_0_r (String.length name)), drop_app, drop_0, Hext.
  reflexivity.
Qed.

(** X11 (a .docm name in any case).  Without a flag the decision is to
    preserve for every path whose last component starts with a character
    other than the dot and ends in an extension that is .docm in any mix of
    cases, with or without directories before it and whatever other dots the
    name carries. *)
Theorem docm_extension_is_preserved dir c stem ext :
  c <> "."%char -> c <> "/"%char -> Str.rfind "/" stem = (-1)%Z ->
  Str.lower ext = ".docm" ->
  _should_preserve_macros (Path (dir +:+ "/" +:+ String c stem +:+ ext)) None = true
  /\ _should_preserve_macros (Path (String c stem +:+ ext)) None = true.
Proof.
  intros Hdot Hslash Hstem Hext. split.
  - replace (dir +:+ "/" +:+ String c stem +:+ ext)
      with ((dir +:+ "/") +:+ String c stem +:+ ext) by (now rewrite append_assoc).
    apply docm_name_preserved; try assumption.
    rewrite rfind_app. change (Str.rfind "/" "/") with 0%Z. simpl.
    rewrite str_length_app. simpl String.length. lia.
  - change (String c stem +:+ ext) with ("" +:+ String c stem +:+ ext).
    now apply docm_name_preserved.
Qed.

Lemma docm_extension_is_preserved_witness :
  "R"%char <> "."%char /\ "R"%char <> "/"%char
  /\ Str.rfind "/" "eport.final" = (-1)%Z /\ Str.lower ".DoCm" = ".docm"
  /\ _should_preserve_macros (Path ("my.docs" +:+ "/" +:+ String "R" "eport.final" +:+ ".DoCm"))
       None = true
  /\ _should_preserve_macros (Path (String "R" "eport.final" +:+ ".DoCm")) None = true.
Proof.
  assert (H1 : "R"%char <> "."%char) by discriminate.
  assert (H2 : "R"%char <> "/"%char) by discriminate.
  split; [exact H1|]. split; [exact H2|]. split; [reflexivity|]. split; [reflexivity|].
  apply (docm_extension_is_preserved "my.docs" "R" "eport.final" ".DoCm" H1 H2);
    reflexivity.
Defined.

(** ** The accessors keep the store well formed *)

Lemma quote_free_String c rid :
  c <> "034"%char -> quote_free rid -> quote_free (String c rid).
Proof.
  unfold quote_free. intros Hc Hrid. simpl.
  rewrite (proj2 (Ascii.eqb_neq c "034") Hc). exact Hrid.
Qed.

Lemma pretty_N_go_quote_free x acc : quote_free acc -> quote_free (pretty_N_go x acc).
Proof.
  revert acc. induction (N.lt_wf_0 x) as [x _ IH]; intros acc Hacc.
  destruct (N.eq_0_gt_0_cases x) as [->|Hpos].
  - now rewrite pretty_N_go_0.
  - rewrite pretty_N_go_step by exact Hpos. apply IH.
    + now apply N.div_lt.
    + apply quote_free_String; [|exact Hacc].
      unfold pretty_N_char. repeat case_match; discriminate.
Qed.

(** The rIds the code makes can be spliced into an XPath string. *)
Lemma rId_candidate_quote_free n : quote_free (rId_candidate n).
Proof.
  unfold rId_candidate.
  change (quote_free (String "r" (String "I" (String "d" (pretty n))))).
  repeat (apply quote_free_String; [discriminate|]).
  unfold pretty, pretty_nat, pretty, pretty_N.
  destruct (decide (N.of_nat n = 0%N)); [reflexivity|].
  apply pretty_N_go_quote_free. reflexivity.
Qed.

Lemma next_rId_quote_free rs : quote_free (next_rId rs).
Proof.
  unfold next_rId.
  destruct (List.find _ _) as [c|] eqn:Hfind; simpl.
  - apply find_some in Hfind as (Hin & _).
    apply in_map_iff in Hin as (k & <- & _). apply rId_candidate_quote_free.
  - apply rId_candidate_quote_free.
Qed.

Lemma rIds_unique_snoc rs rel :
  rIds_unique rs -> existsb (has_rId (rId rel)) rs = false -> rIds_unique (rs ++ [rel]).
Proof.
  unfold rIds_unique. intros Hnd Hfresh. rewrite map_app. apply NoDup_app.
  split; [exact Hnd|]. split; [|apply NoDup_singleton].
  intros x Hx Hx'. apply list_elem_of_In in Hx. apply list_elem_of_In in Hx'.
  destruct Hx' as [<-|[]]. apply in_map_iff in Hx as (r & Heq & Hr).
  assert (H : existsb (has_rId (rId rel)) rs = true)
    by (apply existsb_has_rId; now exists r).
  congruence.
Qed.

Lemma well_formed_of_parts s self :
  self < length (objects s) ->
  rIds_unique (package_rels s) ->
  (forall q, q < length (objects s) -> rIds_unique (rels (the_part s q))) ->
  Forall (fun rel => quote_free (rId rel)) (rels (the_part s self)) ->
  well_formed s self.
Proof.
  intros Hself Hpkg Hparts Hq. split; [exact Hself|]. split; [exact Hpkg|].
  split; [|exact Hq].
  apply Forall_forall. intros x Hx. apply list_elem_of_lookup in Hx as (q & Hx).
  rewrite <- (the_part_lookup s q x Hx). apply Hparts.
  now apply lookup_lt_Some in Hx.
Qed.

Lemma defaulted_well_formed self rt s s1 p :
  well_formed s self -> defaulted self rt s s1 p -> well_formed s1 self.
Proof.
  intros Hwf (Hp & Hlen & Hpkg & Hrels & Hother & Hnew).
  pose proof (well_formed_dicts s self Hwf) as Hd.
  destruct Hwf as (Hself & Hroot & _ & Hq).
  apply well_formed_of_parts.
  - lia.
  - now rewrite Hpkg.
  - intros q Hlt. destruct (decide (q = self)) as [->|Hne].
    + rewrite Hrels. apply rIds_unique_snoc; [apply (Hd (OfPart self))|].
      apply next_rId_fresh.
    + destruct (decide (q = p)) as [->|Hnp].
      * rewrite Hnew. constructor.
      * destruct (Hother q Hne) as (-> & _); [lia|]. apply (Hd (OfPart q)).
  - rewrite Hrels. apply Forall_app. split; [exact Hq|].
    apply Forall_singleton. apply next_rId_quote_free.
Qed.

Lemma same_graph_well_formed self s s1 :
  well_formed s self -> same_graph s s1 -> well_formed s1 self.
Proof.
  intros Hwf (Hpkg & _ & Hlen & Hsame).
  pose proof (well_formed_dicts s self Hwf) as Hd.
  destruct Hwf as (Hself & Hroot & _ & Hq).
  apply well_formed_of_parts.
  - lia.
  - now rewrite Hpkg.
  - intros q _. destruct (Hsame q) as (_ & _ & -> & _). apply (Hd (OfPart q)).
  - destruct (Hsame self) as (_ & _ & -> & _). exact Hq.
Qed.

Lemma find_app_hit {A} (f : A -> bool) (l k : list A) (x : A) :
  List.find f l = Some x -> List.find f (l ++ k) = Some x.
Proof.
  induction l as [|a l IH]; simpl; [discriminate|].
  destruct (f a); [trivial|exact IH].
Qed.

(** A filled cache stays coherent when a relationship is added after the
    ones at hand. *)
Lemma cache_coherent_snoc s s1 self rel :
  lazy_numbering_part (the_part s1 self) = lazy_numbering_part (the_part s self) ->
  rels (the_part s1 self) = rels (the_part s self) ++ [rel] ->
  cache_coherent s self -> cache_coherent s1 self.
Proof.
  unfold cache_coherent. intros -> ->.
  destruct (lazy_numbering_part (the_part s self)) as [v|]; [|trivial].
  intros (r & Hfind & Ht). exists r. split; [|exact Ht].
  unfold rel_of_type in *. now apply find_app_hit.
Qed.

(** One run of the pattern the accessors share, whatever its outcome. *)
Lemma related_or_default_keeps rt ct name root_tag s self :
  well_formed s self -> cache_coherent s self ->
  let r := related_or_default self rt ct name root_tag s in
  well_formed (fst r) self /\ cache_coherent (fst r) self
  /\ lazy_numbering_part (the_part (fst r) self) = lazy_numbering_part (the_part s self)
  /\ forall p, snd r = Ok p ->
       exists rel, rel_of_type rt (rels (the_part (fst r) self)) = Some rel
                   /\ target rel = TargetPart p.
Proof.
  intros Hwf Hcache.
  destruct (rel_of_type rt (rels (the_part s self))) as [rel|] eqn:Hfind.
  - destruct (target rel) as [q|u] eqn:Ht.
    + rewrite (related_or_default_found s self rt ct name root_tag rel q Hfind Ht).
      simpl. split; [exact Hwf|]. split; [exact Hcache|]. split; [reflexivity|].
      intros p [= <-]. now exists rel.
    + assert (Hrun : related_or_default self rt ct name root_tag s = (s, Raise ValueError)).
      { unfold related_or_default, try_except_KeyError, part_related_by, bind, gets.
        unfold rel_of_type in Hfind. now rewrite Hfind, Ht. }
      rewrite Hrun. simpl. split; [exact Hwf|]. split; [exact Hcache|].
      split; [reflexivity|]. intros p [=].
  - destruct (related_or_default_miss s self rt ct name root_tag (proj1 Hwf) Hfind)
      as (s1 & Hrun & Hdef & _ & Hlazy & Hfind1).
    rewrite Hrun. simpl. split; [|split; [|split]].
    + apply (defaulted_well_formed self rt s s1 _ Hwf Hdef).
    + destruct Hdef as (_ & _ & _ & Hrels & _).
      apply (cache_coherent_snoc s s1 self _ Hlazy Hrels Hcache).
    + exact Hlazy.
    + intros p [= <-]. eexists. split; [exact Hfind1|reflexivity].
Qed.

Lemma cached_well_formed self v s : well_formed s self -> well_formed (cached self v s) self.
Proof. intros Hwf. apply (same_graph_well_formed self s _ Hwf), cached_same_graph. Qed.

Lemma numbering_part_keeps s self :
  well_formed s self -> cache_coherent s self ->
  let r := numbering_part self s in
  well_formed (fst r) self /\ cache_coherent (fst r) self
  /\ forall p, snd r = Ok p ->
       exists rel, rel_of_type RT.NUMBERING (rels (the_part (fst r) self)) = Some rel
                   /\ target rel = TargetPart p.
Proof.
  intros Hwf Hcache.
  set (body := related_or_default self RT.NUMBERING CT.WML_NUMBERING
                 "/word/numbering.xml" "w:numbering").
  change (numbering_part self s) with (lazyproperty_numbering self body s).
  cbv zeta.
  destruct (lazy_numbering_part (the_part s self)) as [v|] eqn:Hlazy.
  - rewrite (lazyproperty_cached self body s v Hlazy). simpl.
    split; [exact Hwf|]. split; [exact Hcache|].
    intros p [= <-]. unfold cache_coherent in Hcache. now rewrite Hlazy in Hcache.
  - pose proof (related_or_default_keeps RT.NUMBERING CT.WML_NUMBERING
                  "/word/numbering.xml" "w:numbering" s self Hwf Hcache) as Hbody.
    fold body in Hbody. cbv zeta in Hbody.
    destruct (body s) as [s1 [v|e]] eqn:Hrun; simpl in Hbody.
    + destruct Hbody as (Hwf1 & _ & _ & Hrel).
      destruct (Hrel v eq_refl) as (rel & Hfind & Ht).
      rewrite (lazyproperty_first self body s s1 v Hlazy Hrun). simpl.
      destruct (cached_same_graph self v s1) as (_ & _ & _ & Hsame).
      destruct (Hsame self) as (_ & _ & Hrels & _).
      split; [now apply cached_well_formed|]. split.
      * unfold cache_coherent. rewrite (cached_lookup self v s1 (proj1 Hwf1)).
        exists rel. rewrite Hrels. now split.
      * intros p [= <-]. exists rel. rewrite Hrels. now split.
    + assert (Hraise : lazyproperty_numbering self body s = (s1, Raise e)).
      { unfold lazyproperty_numbering, bind, gets. now rewrite Hlazy, Hrun. }
      rewrite Hraise. simpl. destruct Hbody as (Hwf1 & Hc1 & _ & _).
      split; [exact Hwf1|]. split; [exact Hc1|]. intros p [=].
Qed.

Lemma save_returns self path_or_stream preserve_macros s :
  well_formed s self ->
  exists s' dest, save self path_or_stream preserve_macros s = (s', Ok dest).
Proof.
  intros Hwf.
  destruct (will_strip_macros self path_or_stream preserve_macros s) eqn:Hstrip.
  - destruct (save_strips self path_or_stream preserve_macros s Hwf Hstrip)
      as (s' & Hrun & _).
    now exists s', (corrected_path path_or_stream).
  - exists s, path_or_stream. now apply save_noop.
Qed.

(** X12 (the accessors keep the store well formed).  A call of
    [_settings_part], [_styles_part], [_comments_part] or [numbering_part]
    on a well-formed store with a coherent numbering cache leaves, whatever
    its outcome, a well-formed store with a coherent numbering cache: the
    rId it gives a new relationship is not in use and has no double quote.
    When it returns a part, that part is the target of the first
    relationship of the accessor's type; and [save] on the store it leaves
    returns. *)
Theorem accessor_keeps_well_formed acc rt s self :
  In (acc, rt) singleton_accessors ->
  well_formed s self -> cache_coherent s self ->
  well_formed (fst (acc self s)) self
  /\ cache_coherent (fst (acc self s)) self
  /\ (forall p, snd (acc self s) = Ok p ->
        exists rel, rel_of_type rt (rels (the_part (fst (acc self s)) self)) = Some rel
                    /\ target rel = TargetPart p)
  /\ forall path_or_stream preserve_macros,
       exists s' dest,
         save self path_or_stream preserve_macros (fst (acc self s)) = (s', Ok dest).
Proof.
  intros Hin Hwf Hcache.
  assert (H : well_formed (fst (acc self s)) self
              /\ cache_coherent (fst (acc self s)) self
              /\ (forall p, snd (acc self s) = Ok p ->
                    exists rel,
                      rel_of_type rt (rels (the_part (fst (acc self s)) self)) = Some rel
                      /\ target rel = TargetPart p)).
  { simpl in Hin.
    destruct Hin as [[= <- <-]|[[= <- <-]|[[= <- <-]|[[= <- <-]|[]]]]].
    - destruct (related_or_default_keeps RT.SETTINGS CT.WML_SETTINGS
                  "/word/settings.xml" "w:settings" s self Hwf Hcache)
        as (H1 & H2 & _ & H3).
      now split; [|split].
    - destruct (related_or_default_keeps RT.STYLES CT.WML_STYLES
                  "/word/styles.xml" "w:styles" s self Hwf Hcache)
        as (H1 & H2 & _ & H3).
      now split; [|split].
    - destruct (related_or_default_keeps RT.COMMENTS CT.WML_COMMENTS
                  "/word/comments.xml" "w:comments" s self Hwf Hcache)
        as (H1 & H2 & _ & H3).
      now split; [|split].
    - apply (numbering_part_keeps s self Hwf Hcache). }
  destruct H as (Hwf1 & Hc1 & Hrel). split; [exact Hwf1|]. split; [exact Hc1|].
  split; [exact Hrel|]. intros path_or_stream preserve_macros.
  now apply save_returns.
Qed.

Lemma accessor_keeps_well_formed_witness :
  In (numbering_part, RT.NUMBERING) singleton_accessors
  /\ well_formed scenario_A 0 /\ cache_coherent scenario_A 0
  /\ well_formed (fst (numbering_part 0 scenario_A)) 0
  /\ cache_coherent (fst (numbering_part 0 scenario_A)) 0.
Proof.
  assert (Hin : In (numbering_part, RT.NUMBERING) singleton_accessors)
    by (simpl; right; right; right; left; reflexivity).
  assert (Hwf : well_formed scenario_A 0) by apply scenario_A_well_formed.
  assert (Hcache : cache_coherent scenario_A 0) by exact I.
  split; [exact Hin|]. split; [exact Hwf|]. split; [exact Hcache|].
  destruct (accessor_keeps_well_formed numbering_part RT.NUMBERING scenario_A 0
              Hin Hwf Hcache) as (H1 & H2 & _).
  split; [exact H1 | exact H2].
Defined.

(** ** Adding a header or footer part *)

(** [part = new(); rId = self.relate_to(part, rt); return part, rId], then
    [self.related_parts[rId]]. *)
Lemma relate_then_lookup (new : M nat) (rt : string) self s s0 p :
  new s = (s0, Ok p) ->
  rels (the_part s0 self) = rels (the_part s self) ->
  self < length (objects s0) ->
  let rid := next_rId (rels (the_part s self)) in
  exists s1,
    (do part <- new; do rId <- relate_to self part rt; ret (part, rId)) s
    = (s1, Ok (p, rid))
    /\ rels (the_part s1 self) = rels (the_part s self) ++ [mkRel rid rt (TargetPart p)]
    /\ (forall q, q <> self -> the_part s1 q = the_part s0 q)
    /\ package_rels s1 = package_rels s0 /\ xml s1 = xml s0
    /\ related_parts_getitem self rid s1 = (s1, Ok p)
    /\ forall rid' q, related_parts_getitem self rid' s = (s, Ok q) ->
                      related_parts_getitem self rid' s1 = (s1, Ok q).
Proof.
  intros Hnew Hrels Hself rid.
  set (rs := rels (the_part s self)).
  set (new_rel := mkRel rid rt (TargetPart p)).
  exists (set_source_rels (OfPart self) (rs ++ [new_rel]) s0).
  assert (Hrels1 : rels (the_part (set_source_rels (OfPart self) (rs ++ [new_rel]) s0) self)
                   = rs ++ [new_rel]).
  { unfold set_source_rels. now rewrite the_part_set_eq. }
  split; [|split; [|split; [|split; [|split; [|split]]]]].
  - unfold bind. rewrite Hnew. unfold relate_to, bind, gets, modify, ret.
    rewrite Hrels. fold rs. fold rid. unfold dict_set.
    unfold rid at 1. unfold rs at 1. now rewrite next_rId_fresh.
  - exact Hrels1.
  - intros q Hne. unfold set_source_rels. now rewrite the_part_set_ne by congruence.
  - reflexivity.
  - reflexivity.
  - unfold related_parts_getitem, bind, gets. rewrite Hrels1.
    assert (Hmiss : List.find (fun r => has_rId rid r && negb (is_external r)) rs = None).
    { apply find_by_rId_miss. intros rel q Hin Heq _.
      assert (H : existsb (has_rId rid) rs = true)
        by (apply existsb_has_rId; now exists rel).
      unfold rid, rs in H. now rewrite next_rId_fresh in H. }
    rewrite (find_app_miss _ rs new_rel Hmiss).
    + reflexivity.
    + unfold has_rId, new_rel. simpl. now rewrite String.eqb_refl.
  - intros rid' q. unfold related_parts_getitem, bind, gets. rewrite Hrels1.
    fold rs. intros Hq.
    destruct (List.find (fun r => has_rId rid' r && negb (is_external r)) rs)
      as [[i t [q'|u]]|] eqn:Hfind; try discriminate Hq.
    injection Hq as <-.
    now rewrite (find_app_hit _ rs [new_rel] _ Hfind).
Qed.

(** X13 (a header or footer part is found again).  When the constructor
    returns a new part object and leaves the relationships of the document
    part alone, [add_header_part] returns that part with an rId that was not
    in use, and its only effect past the constructor's is one relationship
    of the header type added after those of the document part;
    [header_part] of that rId then returns the part, and every rId that
    [header_part] resolved before resolves to the same part after.  The same
    holds of [add_footer_part] and [footer_part], with the footer type. *)
Theorem add_part_then_lookup (new : M nat) self s s0 p :
  new s = (s0, Ok p) ->
  rels (the_part s0 self) = rels (the_part s self) ->
  self < length (objects s0) ->
  let rid := next_rId (rels (the_part s self)) in
  (forall rel, In rel (rels (the_part s self)) -> rId rel <> rid)
  /\ (exists s1,
        add_header_part new self s = (s1, Ok (p, rid))
        /\ rels (the_part s1 self)
           = rels (the_part s self) ++ [mkRel rid RT.HEADER (TargetPart p)]
        /\ (forall q, q <> self -> the_part s1 q = the_part s0 q)
        /\ package_rels s1 = package_rels s0 /\ xml s1 = xml s0
        /\ header_part self rid s1 = (s1, Ok p)
        /\ forall rid' q, header_part self rid' s = (s, Ok q) ->
                          header_part self rid' s1 = (s1, Ok q))
  /\ (exists s1,
        add_footer_part new self s = (s1, Ok (p, rid))
        /\ rels (the_part s1 self)
           = rels (the_part s self) ++ [mkRel rid RT.FOOTER (TargetPart p)]
        /\ (forall q, q <> self -> the_part s1 q = the_part s0 q)
        /\ package_rels s1 = package_rels s0 /\ xml s1 = xml s0
        /\ footer_part self rid s1 = (s1, Ok p)
        /\ forall rid' q, footer_part self rid' s = (s, Ok q) ->
                          footer_part self rid' s1 = (s1, Ok q)).
Proof.
  intros Hnew Hrels Hself rid. split; [|split].
  - intros rel Hin Heq.
    assert (H : existsb (has_rId rid) (rels (the_part s self)) = true)
      by (apply existsb_has_rId; now exists rel).
    unfold rid in H. now rewrite next_rId_fresh in H.
  - apply (relate_then_lookup new RT.HEADER self s s0 p Hnew Hrels Hself).
  - apply (relate_then_lookup new RT.FOOTER self s s0 p Hnew Hrels Hself).
Qed.

Lemma add_part_then_lookup_witness :
  let new := new_part "application/vnd.openxmlformats-officedocument.wordprocessingml.header+xml"
               "/word/header1.xml" "w:hdr" in
  new scenario_A = (fst (new scenario_A), Ok 4)
  /\ (exists s1, add_header_part new 0 scenario_A = (s1, Ok (4, "rId2"))
                 /\ header_part 0 "rId2" s1 = (s1, Ok 4)).
Proof.
  intros new.
  assert (Hnew : new scenario_A = (fst (new scenario_A), Ok 4)) by reflexivity.
  split; [exact Hnew|].
  destruct (add_part_then_lookup new 0 scenario_A (fst (new scenario_A)) 4 Hnew)
    as (_ & (s1 & Hrun & _ & _ & _ & _ & Hlook & _) & _).
  - reflexivity.
  - simpl. lia.
  - exists s1. split; [exact Hrun | exact Hlook].
Defined.

(** ** The related parts after a save *)

(** The first match of a dict is the first match of what is left of it, if
    it is left. *)
Lemma find_sublist (f : Relationship -> bool) l' l x :
  sublist l' l -> rIds_unique l -> List.find f l = Some x -> In x l' ->
  List.find f l' = Some x.
Proof.
  unfold rIds_unique. induction 1 as [|a l1 l2 Hsub IH|a l1 l2 Hsub IH]; simpl.
  - intros _ _ [].
  - intros Hnd Hfind Hin. apply NoDup_cons in Hnd as (Ha & Hnd).
    destruct (f a) eqn:Hfa.
    + injection Hfind as <-. destruct Hin as [Heq|Hin]; [reflexivity|].
      exfalso. apply Ha. apply list_elem_of_In. apply in_map.
      apply (sublist_In l1 l2 _ Hsub Hin).
    + destruct Hin as [<-|Hin].
      * apply find_some in Hfind as (_ & Hfx). congruence.
      * now apply IH.
  - intros Hnd Hfind Hin. apply NoDup_cons in Hnd as (Ha & Hnd).
    destruct (f a) eqn:Hfa.
    + injection Hfind as <-. exfalso. apply Ha. apply list_elem_of_In.
      apply in_map. apply (sublist_In l1 l2 _ Hsub Hin).
    + now apply IH.
Qed.

(** What a save leaves of the document part: its cache, and the first
    relationship of a type that is not a macro type, unless that one leads
    to a VBA part. *)
Lemma save_keeps_first_rel self path_or_stream preserve_macros s rt rel :
  well_formed s self ->
  rel_of_type rt (rels (the_part s self)) = Some rel ->
  str_in rt macro_reltypes = false -> vba_target s rel = false ->
  exists s' dest,
    save self path_or_stream preserve_macros s = (s', Ok dest)
    /\ well_formed s' self
    /\ lazy_numbering_part (the_part s' self) = lazy_numbering_part (the_part s self)
    /\ rel_of_type rt (rels (the_part s' self)) = Some rel.
Proof.
  intros Hwf Hfind Hrt Hvba.
  destruct (will_strip_macros self path_or_stream preserve_macros s) eqn:Hstrip.
  - destruct (save_strips_exact self path_or_stream preserve_macros s Hwf Hstrip)
      as (s' & Hrun & Hst & Hkept & _).
    exists s', (corrected_path path_or_stream). split; [exact Hrun|].
    pose proof (st_shrinks _ _ _ Hst) as Hsh.
    split; [|split].
    + apply (shrinks_well_formed self _ s' Hsh). now apply retyped_well_formed.
    + destruct (sh_attributes _ _ Hsh self) as (_ & _ & _ & ->).
      rewrite retyped_self by apply Hwf. reflexivity.
    + unfold rel_of_type in *.
      pose proof (find_some _ _ Hfind) as (Hin & Heq). apply String.eqb_eq in Heq.
      apply (find_sublist _ _ (rels (the_part s self))).
      * pose proof (sh_rels _ _ Hsh (OfPart self)) as Hsub.
        now rewrite retyped_rels in Hsub.
      * apply (well_formed_dicts s self Hwf (OfPart self)).
      * exact Hfind.
      * apply (Hkept (OfPart self) rel Hin Hvba).
        unfold macro_rel_of. rewrite Heq, Hrt. apply andb_false_r.
  - exists s, path_or_stream. split; [now apply save_noop|]. now split.
Qed.

Lemma accessor_reltype_not_macro (acc : nat -> M nat) rt :
  In (acc, rt) singleton_accessors -> str_in rt macro_reltypes = false.
Proof.
  simpl. intros [[= _ <-]|[[= _ <-]|[[= _ <-]|[[= _ <-]|[]]]]]; reflexivity.
Qed.

Lemma accessor_found (acc : nat -> M nat) rt s self rel p :
  In (acc, rt) singleton_accessors ->
  self < length (objects s) -> cache_coherent s self ->
  rel_of_type rt (rels (the_part s self)) = Some rel -> target rel = TargetPart p ->
  exists s1, acc self s = (s1, Ok p) /\ same_graph s s1.
Proof.
  intros Hin Hself Hcache Hfind Ht.
  assert (Hc : accessor_contract acc rt s self).
  { simpl in Hin.
    destruct Hin as [[= <- <-]|[[= <- <-]|[[= <- <-]|[[= <- <-]|[]]]]].
    - apply (related_or_default_contract RT.SETTINGS CT.WML_SETTINGS
               "/word/settings.xml" "w:settings" s self Hself).
    - apply (related_or_default_contract RT.STYLES CT.WML_STYLES
               "/word/styles.xml" "w:styles" s self Hself).
    - apply (related_or_default_contract RT.COMMENTS CT.WML_COMMENTS
               "/word/comments.xml" "w:comments" s self Hself).
    - now apply numbering_part_contract. }
  unfold accessor_contract in Hc. rewrite Hfind in Hc.
  destruct (Hc p Ht) as (s1 & Hrun & Hsame & _). now exists s1.
Qed.

(** X14 (a related part outlives a save).  On a well-formed store with a
    coherent numbering cache, when the first relationship of the type of
    [_settings_part], [_styles_part], [_comments_part] or [numbering_part]
    leads to a part without a VBA content type or partname, [save] --
    stripping or not -- keeps that relationship the first of its type and
    the numbering cache as it was, and the accessor called after the save
    returns the same part as before, making no part and no relationship. *)
Theorem accessor_after_save acc rt s self path_or_stream preserve_macros rel p :
  In (acc, rt) singleton_accessors ->
  well_formed s self -> cache_coherent s self ->
  rel_of_type rt (rels (the_part s self)) = Some rel -> target rel = TargetPart p ->
  is_vba_part (the_part s p) = false ->
  exists s' dest s1,
    save self path_or_stream preserve_macros s = (s', Ok dest)
    /\ rel_of_type rt (rels (the_part s' self)) = Some rel
    /\ lazy_numbering_part (the_part s' self) = lazy_numbering_part (the_part s self)
    /\ acc self s' = (s1, Ok p) /\ same_graph s' s1
    /\ exists s0, acc self s = (s0, Ok p).
Proof.
  intros Hin Hwf Hcache Hfind Ht Hvba.
  assert (Hrt : str_in rt macro_reltypes = false)
    by apply (accessor_reltype_not_macro acc rt Hin).
  assert (Hv : vba_target s rel = false) by (unfold vba_target; now rewrite Ht).
  destruct (save_keeps_first_rel self path_or_stream preserve_macros s rt rel
              Hwf Hfind Hrt Hv) as (s' & dest & Hrun & Hwf' & Hlazy & Hfind').
  assert (Hcache' : rt = RT.NUMBERING -> cache_coherent s' self).
  { intros ->. unfold cache_coherent in *. rewrite Hlazy.
    destruct (lazy_numbering_part (the_part s self)) as [v|]; [|trivial].
    destruct Hcache as (rel' & Hrel' & Hv'). rewrite Hfind in Hrel'.
    injection Hrel' as <-. now exists rel. }
  assert (Hafter : exists s1, acc self s' = (s1, Ok p) /\ same_graph s' s1).
  { simpl in Hin.
    destruct Hin as [[= <- <-]|[[= <- <-]|[[= <- <-]|[[= <- <-]|[]]]]].
    - exists s'. split; [|apply same_graph_refl].
      apply (related_or_default_found s' self RT.SETTINGS CT.WML_SETTINGS
               "/word/settings.xml" "w:settings" rel p Hfind' Ht).
    - exists s'. split; [|apply same_graph_refl].
      apply (related_or_default_found s' self RT.STYLES CT.WML_STYLES
               "/word/styles.xml" "w:styles" rel p Hfind' Ht).
    - exists s'. split; [|apply same_graph_refl].
      apply (related_or_default_found s' self RT.COMMENTS CT.WML_COMMENTS
               "/word/comments.xml" "w:comments" rel p Hfind' Ht).
    - apply (accessor_found numbering_part RT.NUMBERING s' self rel p);
        [simpl; tauto | apply Hwf' | now apply Hcache' | exact Hfind' | exact Ht]. }
  destruct Hafter as (s1 & Hacc & Hsame).
  destruct (accessor_found acc rt s self rel p Hin (proj1 Hwf) Hcache Hfind Ht)
    as (s0 & Hbefore & _).
  exists s', dest, s1. split; [exact Hrun|]. split; [exact Hfind'|].
  split; [exact Hlazy|]. split; [exact Hacc|]. split; [exact Hsame|].
  now exists s0.
Qed.

Lemma accessor_after_save_witness :
  In (_styles_part, RT.STYLES) singleton_accessors
  /\ well_formed scenario_A 0 /\ cache_coherent scenario_A 0
  /\ is_vba_part (the_part scenario_A 1) = false
  /\ exists s' s1,
       save 0 (Path "out.docm") (Some false) scenario_A = (s', Ok (Path "out.docx"))
       /\ _styles_part 0 s' = (s1, Ok 1).
Proof.
  assert (Hin : In (_styles_part, RT.STYLES) singleton_accessors)
    by (simpl; right; left; reflexivity).
  assert (Hwf : well_formed scenario_A 0) by apply scenario_A_well_formed.
  assert (Hcache : cache_coherent scenario_A 0) by exact I.
  assert (Hvba : is_vba_part (the_part scenario_A 1) = false) by reflexivity.
  split; [exact Hin|]. split; [exact Hwf|]. split; [exact Hcache|].
  split; [exact Hvba|].
  destruct (accessor_after_save _styles_part RT.STYLES scenario_A 0 (Path "out.docm")
              (Some false) (mkRel "rId1" RT.STYLES (TargetPart 1)) 1
              Hin Hwf Hcache eq_refl eq_refl Hvba)
    as (s' & dest & s1 & Hrun & _ & _ & Hacc & _).
  exists s', s1. split; [|exact Hacc].
  rewrite Hrun. f_equal. f_equal.
  assert (H : snd (save 0 (Path "out.docm") (Some false) scenario_A) = Ok dest)
    by now rewrite Hrun.
  vm_compute in H. now injection H.
Defined.
